(** * transcribe_split.py: chunk planning, export/transcription loop and
    transcript assembly

    A shallow embedding of [main] of [transcribe_split.py] and the properties
    of its chunk planner, of its output files and of its failure behaviour.

    Conventions of the embedding:
    - Python [int] is [Z]; Python [str] is [string], holding the UTF-8 bytes
      of the text;
    - a Python [float] is a dyadic rational [mant * 2^expo]; the quotient
      [a / b] of two ints is the correctly rounded binary64 value of the exact
      quotient (round half to even), as CPython computes it;
    - the interpreter is a 64-bit CPython on a POSIX system: [len] returns at
      most [2^63 - 1], [os.path] is [posixpath], text files are written as
      they are;
    - [pydub], the OpenAI client and the disk are given by a [world]: what the
      audio file decodes to, and which exports, transcriptions and writes
      fail with which exception;
    - the script runs in a monad that threads the console output, the file
      system and the log of external calls, and that stops at the first
      exception, keeping the state reached;
    - the console takes every line, the OpenAI client is always constructed,
      and a write that fails does so when the file is opened, before anything
      changes: what a failing [print] or a half-done write leaves behind is
      outside this model, and no property below is about it. *)

From Stdlib Require Import ZArith Lia String Ascii List Bool.
From stdpp Require Import base tactics option list gmap strings pretty.

Local Open Scope Z_scope.

(** ** Exceptions *)

Inductive exn : Type :=
| SystemExit (code : Z)
| RuntimeError (msg : string)
| FileNotFoundError (msg : string)
| ValueError (msg : string)
| ZeroDivisionError (msg : string)
| OverflowError (msg : string)
| ExternalError (cause : string).

(** ** Python numbers *)

Module Py.

(** A finite binary64 value, as the dyadic rational [mant * 2^expo].  A zero
    has no sign here: the script prints quotients by 60000 only. *)
Record float : Type := Float { mant : Z; expo : Z }.

(** [2^(max 0 k)]: the scaling factor that is applied on one side of a
    quotient so that only non-negative powers of two are taken. *)
Definition pow2 (k : Z) : Z := 2 ^ Z.max 0 k.

(** Nearest integer to [n / d] for [0 <= n] and [0 < d], ties to even. *)
Definition round_half_even (n d : Z) : Z :=
  let q := n / d in
  let r := n mod d in
  if 2 * r <? d then q
  else if d <? 2 * r then q + 1
  else if Z.even q then q else q + 1.

(** [floor (log2 (a / b))] for [0 < a] and [0 < b]. *)
Definition ilog2_ratio (a b : Z) : Z :=
  let d := Z.log2 a - Z.log2 b in
  if a * pow2 (- d) <? b * pow2 d then d - 1 else d.

(** The binary64 value nearest to [a / b], for [0 <= a] and [0 < b]: 53
    significant bits, exponents from [-1074] (subnormal numbers) up; a result
    of [2^1024] or more does not fit. *)
Definition float_of_ratio (a b : Z) : exn + float :=
  if a =? 0 then inr (Float 0 0)
  else
    let e := Z.max (ilog2_ratio a b - 52) (-1074) in
    let m := round_half_even (a * pow2 (- e)) (b * pow2 e) in
    if 2 ^ 1024 <=? m * pow2 e
    then inl (OverflowError "integer division result too large for a float")
    else inr (Float m e).

Definition neg (f : float) : float := Float (- mant f) (expo f).

(** [a / b] on ints (true division). *)
Definition truediv (a b : Z) : exn + float :=
  if b =? 0 then inl (ZeroDivisionError "division by zero")
  else
    match float_of_ratio (Z.abs a) (Z.abs b) with
    | inl e => inl e
    | inr f => inr (if Z.sgn a * Z.sgn b <? 0 then neg f else f)
    end.

(** [math.ceil] of a finite float: an exact integer. *)
Definition ceil (f : float) : Z :=
  if 0 <=? expo f then mant f * 2 ^ expo f
  else - ((- mant f) / 2 ^ (- expo f)).

(** [str(n)] for an int. *)
Definition str (n : Z) : string := pretty n.

(** [format(f, ".1f")]: the decimal with one digit after the point nearest to
    the exact value of [f], ties to even. *)
Definition format_1f (f : float) : string :=
  let t := round_half_even (Z.abs (mant f) * 10 * pow2 (expo f)) (pow2 (- expo f)) in
  (if mant f <? 0 then "-" else "") +:+ str (t / 10) +:+ "." +:+ str (t mod 10).

(** [sys.maxsize] of a 64-bit CPython, the largest value [len] returns. *)
Definition maxsize : Z := 2 ^ 63 - 1.

(** The builtin [len] applied to an object whose [__len__] returns [n]. *)
Definition len (n : Z) : exn + Z :=
  if n <? 0 then inl (ValueError "__len__() should return >= 0")
  else if maxsize <? n
       then inl (OverflowError "cannot fit 'int' into an index-sized integer")
       else inr n.

End Py.

(** ** Python text *)

Definition nl : string := String (ascii_of_nat 10) "".

(** U+2013 EN DASH in UTF-8. *)
Definition en_dash : string :=
  String (ascii_of_nat 226) (String (ascii_of_nat 128) (String (ascii_of_nat 147) "")).

(** [sep.join(parts)]. *)
Fixpoint str_join (sep : string) (parts : list string) : string :=
  match parts with
  | [] => ""
  | [p] => p
  | p :: rest => p +:+ sep +:+ str_join sep rest
  end.

(** [int(s)] on ASCII text: surrounding whitespace is dropped, one sign is
    allowed, and single underscores may separate digits.  [None] stands for
    [ValueError].  (Decimal digits and blanks outside ASCII, which [int] also
    takes, and the limit that recent interpreters put on the number of digits
    are not part of this model.) *)
Module Int.

Definition is_space (c : ascii) : bool :=
  let n := nat_of_ascii c in
  ((9 <=? n)%nat && (n <=? 13)%nat) || (n =? 32)%nat.

Fixpoint lstrip (s : string) : string :=
  match s with
  | String c r => if is_space c then lstrip r else s
  | "" => ""
  end.

Fixpoint rstrip (s : string) : string :=
  match s with
  | "" => ""
  | String c r =>
      match rstrip r with
      | "" => if is_space c then "" else String c ""
      | r' => String c r'
      end
  end.

Definition digit (c : ascii) : option Z :=
  let n := Z.of_nat (nat_of_ascii c) in
  if (48 <=? n) && (n <=? 57) then Some (n - 48) else None.

Fixpoint digits (acc : Z) (after_digit : bool) (s : string) : option Z :=
  match s with
  | "" => if after_digit then Some acc else None
  | String c r =>
      match digit c with
      | Some d => digits (10 * acc + d) true r
      | None =>
          if Ascii.eqb c "_" && after_digit then digits acc false r else None
      end
  end.

Definition parse (s : string) : option Z :=
  match rstrip (lstrip s) with
  | String "+" r => digits 0 false r
  | String "-" r => Z.opp <$> digits 0 false r
  | t => digits 0 false t
  end.

End Int.

(** ** [os.path] on POSIX *)

Module Path.

(** The text before and after the last occurrence of [sep]. *)
Fixpoint rpartition (sep : ascii) (p : string) : option (string * string) :=
  match p with
  | "" => None
  | String c r =>
      match rpartition sep r with
      | Some (b, a) => Some (String c b, a)
      | None => if Ascii.eqb c sep then Some ("", r) else None
      end
  end.

Fixpoint all_of (ch : ascii) (s : string) : bool :=
  match s with
  | "" => true
  | String c r => Ascii.eqb c ch && all_of ch r
  end.

(** [s.rstrip('/')]. *)
Fixpoint rstrip_slash (s : string) : string :=
  match s with
  | "" => ""
  | String c r =>
      match rstrip_slash r with
      | "" => if Ascii.eqb c "/" then "" else String c ""
      | r' => String c r'
      end
  end.

(** [head, tail = p[:i], p[i:]] with [i = p.rfind('/') + 1]. *)
Definition split_at_sep (p : string) : string * string :=
  match rpartition "/" p with
  | Some (b, a) => (b +:+ "/", a)
  | None => ("", p)
  end.

Definition basename (p : string) : string := snd (split_at_sep p).

Definition dirname (p : string) : string :=
  let head := fst (split_at_sep p) in
  if all_of "/" head then head else rstrip_slash head.

(** The extension starts at the last dot of the last component, unless only
    dots come before it there. *)
Definition splitext (p : string) : string * string :=
  let '(head, tail) := split_at_sep p in
  match rpartition "." tail with
  | Some (b, a) => if all_of "." b then (p, "") else (head +:+ b, "." +:+ a)
  | None => (p, "")
  end.

(** [s.endswith('/')]. *)
Fixpoint ends_with_slash (s : string) : bool :=
  match s with
  | "" => false
  | String c "" => Ascii.eqb c "/"
  | String _ r => ends_with_slash r
  end.

(** [os.path.join(a, b)]. *)
Definition join (a b : string) : string :=
  match b with
  | String "/" _ => b
  | _ => if String.eqb a "" || ends_with_slash a then a +:+ b else a +:+ "/" +:+ b
  end.

End Path.

(** ** The world the script runs in *)

(** What a file holds. *)
Inductive content : Type :=
| Opaque                      (** a file that was there before the run *)
| Mp3 (start_ms end_ms : Z)   (** [audio[start_ms:end_ms]] exported as mp3 *)
| Text (s : string).          (** text written with [out.write] *)

(** Console lines and calls that reach outside the process, in program
    order.  A call is logged when it is made, whether it returns or raises. *)
Inductive event : Type :=
| Print (line : string)
| PathExists (path : string)
| FromFile (path : string)
| Export (path : string) (start_ms end_ms : Z)
| OpenRb (path : string)
| Transcribe (path : string)
| OpenW (path : string).

Record state : Type := State {
  trace : list event;
  fs : gmap string content
}.

(** The inputs of a run and the behaviour of what the script calls. *)
Record world : Type := World {
  argv : list string;
  environ : gmap string string;
  abspath : string → string;
  fs0 : gmap string content;
  (** [AudioSegment.from_file(path)]: an exception, or an audio whose
      [__len__] returns this number of milliseconds *)
  from_file : string → exn + Z;
  (** [chunk.export(path, format="mp3")] *)
  export_error : string → option exn;
  (** [client.audio.transcriptions.create(...)] on the open file *)
  transcription : string → content → exn + string;
  (** [open(path, "w", encoding="utf-8")] *)
  open_w_error : string → option exn
}.

(** ** The monad of the script: state and exceptions *)

Definition M (A : Type) : Type := state → (exn + A) * state.

Definition ret {A} (a : A) : M A := λ st, (inr a, st).
Definition raise {A} (e : exn) : M A := λ st, (inl e, st).
Definition bind {A B} (m : M A) (k : A → M B) : M B :=
  λ st, match m st with
        | (inr a, st') => k a st'
        | (inl e, st') => (inl e, st')
        end.

Declare Scope py_scope.
Delimit Scope py_scope with py.
Notation "'let!' x ':=' m 'in' k" := (bind m (λ x, k))
  (at level 10, x name, m at level 100, k at level 200) : py_scope.
Notation "m '>>' k" := (bind m (λ _, k))
  (at level 100, k at level 200, right associativity) : py_scope.
Local Open Scope py_scope.

Definition lift {A} (r : exn + A) : M A :=
  match r with inl e => raise e | inr a => ret a end.

Definition log (ev : event) : M unit :=
  λ st, (inr tt, State (trace st ++ [ev]) (fs st)).

Definition print (line : string) : M unit := log (Print line).

Definition store (path : string) (c : content) : M unit :=
  λ st, (inr tt, State (trace st) (<[path := c]> (fs st))).

(** [os.path.exists(path)] *)
Definition path_exists (path : string) : M bool :=
  log (PathExists path) >> λ st, (inr (bool_decide (is_Some (fs st !! path))), st).

(** [len(AudioSegment.from_file(path))] *)
Definition load_audio (w : world) (path : string) : M Z :=
  log (FromFile path) >>
  let! n := lift (from_file w path) in
  lift (Py.len n).

(** [audio[start_ms:end_ms].export(path, format="mp3")] *)
Definition export (w : world) (path : string) (start_ms end_ms : Z) : M unit :=
  log (Export path start_ms end_ms) >>
  match export_error w path with
  | Some e => raise e
  | None => store path (Mp3 start_ms end_ms)
  end.

(** [open(path, "rb")] *)
Definition open_rb (path : string) : M content :=
  log (OpenRb path) >>
  λ st, match fs st !! path with
        | Some c => (inr c, st)
        | None => (inl (FileNotFoundError path), st)
        end.

(** [client.audio.transcriptions.create(model=..., file=f).text] *)
Definition transcribe (w : world) (path : string) (f : content) : M string :=
  log (Transcribe path) >>
  lift (transcription w path f).

(** [with open(path, "w", encoding="utf-8") as out: out.write(text)] *)
Definition write_text (w : world) (path text : string) : M unit :=
  log (OpenW path) >>
  match open_w_error w path with
  | Some e => raise e
  | None => store path (Text text)
  end.

(** [for x in xs: acc = body(x, acc)] *)
Fixpoint for_each {A B} (xs : list A) (body : A → B → M B) (acc : B) : M B :=
  match xs with
  | [] => ret acc
  | x :: rest => let! acc' := body x acc in for_each rest body acc'
  end.

(** [range(n)] *)
Definition range (n : Z) : list Z := Z.of_nat <$> seq 0 (Z.to_nat n).

(** ** The script *)

Definition usage : string :=
  "Usage: python transcribe_split.py path/to/audio.mp3 [chunk_minutes]".

Definition no_key_message : string :=
  "OPENAI_API_KEY environment variable is not set." +:+ nl
  +:+ "Please set it before running this script.".

(** [math.ceil(duration_ms / chunk_ms)] *)
Definition num_chunks (duration_ms chunk_ms : Z) : exn + Z :=
  match Py.truediv duration_ms chunk_ms with
  | inl e => inl e
  | inr q => inr (Py.ceil q)
  end.

(** [f"{ms / 60000:.1f}"] *)
Definition minutes (ms : Z) : exn + string :=
  match Py.truediv ms 60000 with
  | inl e => inl e
  | inr q => inr (Py.format_1f q)
  end.

Definition chunk_filename (basename : string) (part_num : Z) : string :=
  basename +:+ "_part_" +:+ Py.str part_num +:+ ".mp3".

Definition part_txt_filename (basename : string) (part_num : Z) : string :=
  basename +:+ "_part_" +:+ Py.str part_num +:+ "_transcript.txt".

Definition full_filename (basename : string) : string :=
  basename +:+ "_full_transcript.txt".

(** The entry that one chunk appends to [full_transcript_parts]. *)
Definition part_entry (part_num : Z) (start_min end_min text : string) : string :=
  "### Part " +:+ Py.str part_num +:+ " (" +:+ start_min +:+ en_dash +:+ end_min
  +:+ " min)" +:+ nl +:+ nl +:+ text.

(** The body of the loop over [i in range(num_chunks)]. *)
Definition process_chunk (w : world) (folder basename : string)
    (chunk_ms duration_ms : Z) (i : Z) (full_transcript_parts : list string)
  : M (list string) :=
  let part_num := i + 1 in
  let start_ms := i * chunk_ms in
  let end_ms := Z.min ((i + 1) * chunk_ms) duration_ms in
  let! start_min := lift (minutes start_ms) in
  let! end_min := lift (minutes end_ms) in
  print ("=== Part " +:+ Py.str part_num +:+ ": " +:+ start_min +:+ en_dash
         +:+ end_min +:+ " min ===") >>
  let chunk_path := Path.join folder (chunk_filename basename part_num) in
  print ("Exporting " +:+ chunk_filename basename part_num +:+ " ...") >>
  export w chunk_path start_ms end_ms >>
  print "Transcribing with OpenAI ..." >>
  let! f := open_rb chunk_path in
  let! text := transcribe w chunk_path f in
  let part_txt_path := Path.join folder (part_txt_filename basename part_num) in
  write_text w part_txt_path text >>
  print ("Saved transcript -> " +:+ part_txt_filename basename part_num +:+ nl) >>
  ret (full_transcript_parts ++ [part_entry part_num start_min end_min text]).

(** Everything after the command line and the credential were accepted. *)
Definition split_and_transcribe (w : world) (audio_path : string) (chunk_minutes : Z)
  : M unit :=
  let! found := path_exists audio_path in
  (if found : bool then ret tt
   else raise (A := unit) (FileNotFoundError ("Audio file not found: " +:+ audio_path))) >>
  let folder := Path.dirname audio_path in
  let basename := fst (Path.splitext (Path.basename audio_path)) in
  print ("Audio file: " +:+ audio_path) >>
  print ("Output folder: " +:+ folder) >>
  print (nl +:+ "Loading audio file...") >>
  let! duration_ms := load_audio w audio_path in
  let! duration_min := lift (minutes duration_ms) in
  print ("Total audio length: " +:+ duration_min +:+ " minutes") >>
  let chunk_ms := chunk_minutes * 60 * 1000 in
  let! n := lift (num_chunks duration_ms chunk_ms) in
  print ("Splitting into " +:+ Py.str n +:+ " chunk(s) of ~" +:+ Py.str chunk_minutes
         +:+ " minutes each." +:+ nl) >>
  let! full_transcript_parts :=
    for_each (range n) (process_chunk w folder basename chunk_ms duration_ms) [] in
  let full_path := Path.join folder (full_filename basename) in
  write_text w full_path (str_join (nl +:+ nl) full_transcript_parts) >>
  print "Done." >>
  print ("Full transcript saved to: " +:+ full_path).

(** The chunk length argument: [int(sys.argv[2])] when it is there, else 20. *)
Definition parse_chunk_minutes (rest : list string) : M Z :=
  match rest with
  | arg :: _ =>
      match Int.parse arg with
      | Some n => ret n
      | None => print "chunk_minutes must be an integer (e.g. 20)" >> raise (SystemExit 1)
      end
  | [] => ret 20
  end.

Definition main (w : world) : M unit :=
  match argv w with
  | _ :: path :: rest =>
      let audio_path := abspath w path in
      let! chunk_minutes := parse_chunk_minutes rest in
      match environ w !! "OPENAI_API_KEY" with
      | None | Some "" => raise (RuntimeError no_key_message)
      | Some _ => split_and_transcribe w audio_path chunk_minutes
      end
  | _ => print usage >> raise (SystemExit 1)
  end.

(** A run starts with an empty console and the world's file system. *)
Definition run (w : world) : (exn + unit) * state := main w (State [] (fs0 w)).

(** The paths of the three kinds of output file. *)
Definition chunk_path (folder basename : string) (part_num : Z) : string :=
  Path.join folder (chunk_filename basename part_num).

Definition part_txt_path (folder basename : string) (part_num : Z) : string :=
  Path.join folder (part_txt_filename basename part_num).

Definition full_path (folder basename : string) : string :=
  Path.join folder (full_filename basename).

(** ** The chunk plan *)

(** The loop computes its windows one at a time; [plan] collects the windows
    of all iterations, in order. *)
Record window : Type := Window { index : Z; start_ms : Z; end_ms : Z }.

Definition window_of (chunk_ms duration_ms i : Z) : window :=
  {| index := i + 1;
     start_ms := i * chunk_ms;
     end_ms := Z.min ((i + 1) * chunk_ms) duration_ms |}.

Definition plan (duration_ms chunk_minutes : Z) : exn + list window :=
  let chunk_ms := chunk_minutes * 60 * 1000 in
  match num_chunks duration_ms chunk_ms with
  | inl e => inl e
  | inr n => inr (window_of chunk_ms duration_ms <$> range n)
  end.

(** The ceiling of the exact quotient [a / b]. *)
Definition ceil_div (a b : Z) : Z := - ((- a) / b).

(** What the chunk planner is to deliver for a duration and a chunk length:
    the windows [[i*chunk_ms, min((i+1)*chunk_ms, duration_ms))], as many as
    the ceiling of [duration_ms / chunk_ms], contiguous, non-overlapping and
    covering [[0, duration_ms)] exactly. *)
Record planner_spec (duration_ms chunk_minutes : Z) (ws : list window) : Prop := {
  ps_count :
    Z.of_nat (length ws) = ceil_div duration_ms (chunk_minutes * 60000);
  ps_zero : duration_ms = 0 → ws = [];
  ps_window : ∀ (i : nat) win,
    ws !! i = Some win →
    win = {| index := Z.of_nat i + 1;
             start_ms := Z.of_nat i * (chunk_minutes * 60000);
             end_ms := Z.min ((Z.of_nat i + 1) * (chunk_minutes * 60000)) duration_ms |};
  ps_first : ∀ win, ws !! 0%nat = Some win → start_ms win = 0;
  ps_contiguous : ∀ (i : nat) win win',
    ws !! i = Some win → ws !! S i = Some win' → end_ms win = start_ms win';
  ps_last : ∀ win, last ws = Some win → end_ms win = duration_ms;
  ps_nonempty : ∀ win, win ∈ ws → start_ms win < end_ms win;
  ps_disjoint : ∀ (i j : nat) wi wj t,
    ws !! i = Some wi → ws !! j = Some wj →
    start_ms wi ≤ t < end_ms wi → start_ms wj ≤ t < end_ms wj → i = j;
  ps_cover : ∀ t,
    0 ≤ t < duration_ms ↔ ∃ win, win ∈ ws ∧ start_ms win ≤ t < end_ms win
}.

(** The planner meets its specification at one input. *)
Definition planner_claim (duration_ms chunk_minutes : Z) : Prop :=
  ∃ ws, plan duration_ms chunk_minutes = inr ws ∧
        planner_spec duration_ms chunk_minutes ws.

(** The lengths of the planned windows as C5 states them: each at most
    chunk_minutes*60000 ms, all but the last exactly that. *)
Definition lengths_claim (duration_ms chunk_minutes : Z) : Prop :=
  ∃ ws, plan duration_ms chunk_minutes = inr ws ∧
        (∀ win, win ∈ ws → end_ms win - start_ms win ≤ chunk_minutes * 60000) ∧
        (∀ (i : nat) win,
           ws !! i = Some win → (S i < length ws)%nat →
           end_ms win - start_ms win = chunk_minutes * 60000).

(** ** Text without a given character *)

(** [ch] does not occur in [s]. *)
Fixpoint free_of (ch : ascii) (s : string) : bool :=
  match s with
  | "" => true
  | String c r => negb (Ascii.eqb c ch) && free_of ch r
  end.

(** What [join] puts in front of a relative name. *)
Definition dir_prefix (folder : string) : string :=
  if String.eqb folder "" || Path.ends_with_slash folder then folder else folder +:+ "/".

(** ** The steps of one chunk *)

Definition get {A} (d : A) (r : exn + A) : A :=
  match r with inr a => a | inl _ => d end.

(** [r] is a value, not an exception. *)
Definition returns {A} (r : exn + A) : Prop := ∃ a, r = inr a.

Definition header_line (part_num : Z) (start_min end_min : string) : string :=
  "=== Part " +:+ Py.str part_num +:+ ": " +:+ start_min +:+ en_dash
  +:+ end_min +:+ " min ===".

Definition start_min (win : window) : string := get "" (minutes (start_ms win)).
Definition end_min (win : window) : string := get "" (minutes (end_ms win)).

Section ChunkModel.

Context (w : world) (folder basename : string).

(** The console lines and calls of one chunk, up to and including the export. *)
Definition export_events (win : window) (start_min end_min : string) : list event :=
  [Print (header_line (index win) start_min end_min);
   Print ("Exporting " +:+ chunk_filename basename (index win) +:+ " ...");
   Export (chunk_path folder basename (index win)) (start_ms win) (end_ms win)].

(** From there up to and including the transcription call. *)
Definition transcribe_events (win : window) : list event :=
  [Print "Transcribing with OpenAI ...";
   OpenRb (chunk_path folder basename (index win));
   Transcribe (chunk_path folder basename (index win))].

Definition write_events (win : window) : list event :=
  [OpenW (part_txt_path folder basename (index win))].

Definition saved_events (win : window) : list event :=
  [Print ("Saved transcript -> " +:+ part_txt_filename basename (index win) +:+ nl)].

(** What the transcription service answers for the exported chunk. *)
Definition chunk_text (win : window) : exn + string :=
  transcription w (chunk_path folder basename (index win))
    (Mp3 (start_ms win) (end_ms win)).

(** Every step of the chunk goes through. *)
Definition chunk_ok (win : window) : Prop :=
  returns (minutes (start_ms win)) ∧ returns (minutes (end_ms win)) ∧
  export_error w (chunk_path folder basename (index win)) = None ∧
  returns (chunk_text win) ∧
  open_w_error w (part_txt_path folder basename (index win)) = None.

Definition entry_of (win : window) : string :=
  part_entry (index win) (start_min win) (end_min win) (get "" (chunk_text win)).

Definition chunk_events (win : window) : list event :=
  export_events win (start_min win) (end_min win)
  ++ transcribe_events win
  ++ write_events win
  ++ saved_events win.

Definition add_files (files : gmap string content) (win : window) : gmap string content :=
  <[part_txt_path folder basename (index win) := Text (get "" (chunk_text win))]>
    (<[chunk_path folder basename (index win) := Mp3 (start_ms win) (end_ms win)]> files).

(** The state after the chunks of [wins] went through, from console [t0] and
    files [f0]. *)
Definition after_chunks (t0 : list event) (f0 : gmap string content)
    (wins : list window) (parts : list string) (st : state) : Prop :=
  Forall chunk_ok wins ∧
  parts = entry_of <$> wins ∧
  trace st = t0 ++ concat (chunk_events <$> wins) ∧
  fs st = foldl add_files f0 wins.

(** How far a chunk got when it raised [e], and what it left behind. *)
Inductive chunk_failure (win : window) (e : exn) :
  list event → gmap string content → gmap string content → Prop :=
| Fail_minutes files :
    minutes (start_ms win) = inl e ∨ minutes (end_ms win) = inl e →
    chunk_failure win e [] files files
| Fail_export files :
    export_error w (chunk_path folder basename (index win)) = Some e →
    chunk_failure win e
      (export_events win (start_min win) (end_min win))
      files files
| Fail_transcribe files :
    export_error w (chunk_path folder basename (index win)) = None →
    chunk_text win = inl e →
    chunk_failure win e
      (export_events win (start_min win) (end_min win)
       ++ transcribe_events win)
      files
      (<[chunk_path folder basename (index win) := Mp3 (start_ms win) (end_ms win)]> files)
| Fail_write files :
    export_error w (chunk_path folder basename (index win)) = None →
    returns (chunk_text win) →
    open_w_error w (part_txt_path folder basename (index win)) = Some e →
    chunk_failure win e
      (export_events win (start_min win) (end_min win)
       ++ transcribe_events win
       ++ write_events win)
      files
      (<[chunk_path folder basename (index win) := Mp3 (start_ms win) (end_ms win)]> files).

(** The three calls of a chunk that can fail. *)
Inductive step : Type := Exporting | Transcribing | Writing.

(** Step [s] of window [win] raises [e], the steps before it go through. *)
Definition step_fails (win : window) (s : step) (e : exn) : Prop :=
  match s with
  | Exporting => export_error w (chunk_path folder basename (index win)) = Some e
  | Transcribing =>
      export_error w (chunk_path folder basename (index win)) = None ∧
      chunk_text win = inl e
  | Writing =>
      export_error w (chunk_path folder basename (index win)) = None ∧
      returns (chunk_text win) ∧
      open_w_error w (part_txt_path folder basename (index win)) = Some e
  end.

Definition failing_call (win : window) (s : step) : event :=
  match s with
  | Exporting => Export (chunk_path folder basename (index win)) (start_ms win) (end_ms win)
  | Transcribing => Transcribe (chunk_path folder basename (index win))
  | Writing => OpenW (part_txt_path folder basename (index win))
  end.

(** What the chunk of [win] prints and calls after its header line and before
    the call of step [s]. *)
Definition steps_before (win : window) (s : step) : list event :=
  match s with
  | Exporting =>
      [Print ("Exporting " +:+ chunk_filename basename (index win) +:+ " ...")]
  | Transcribing =>
      [Print ("Exporting " +:+ chunk_filename basename (index win) +:+ " ...");
       Export (chunk_path folder basename (index win)) (start_ms win) (end_ms win);
       Print "Transcribing with OpenAI ...";
       OpenRb (chunk_path folder basename (index win))]
  | Writing =>
      [Print ("Exporting " +:+ chunk_filename basename (index win) +:+ " ...");
       Export (chunk_path folder basename (index win)) (start_ms win) (end_ms win);
       Print "Transcribing with OpenAI ...";
       OpenRb (chunk_path folder basename (index win));
       Transcribe (chunk_path folder basename (index win))]
  end.

End ChunkModel.

(** ** The run of a world *)

(** What a world makes of the command line and the environment. *)
Definition audio_path (w : world) : string :=
  match argv w with _ :: path :: _ => abspath w path | _ => "" end.

Definition folder_of (w : world) : string := Path.dirname (audio_path w).

Definition basename_of (w : world) : string :=
  (Path.splitext (Path.basename (audio_path w))).1.

(** [None] when the command line is rejected. *)
Definition chunk_minutes_of (w : world) : option Z :=
  match argv w with
  | [_; _] => Some 20
  | _ :: _ :: arg :: _ => Int.parse arg
  | _ => None
  end.

Definition has_key (w : world) : bool :=
  match environ w !! "OPENAI_API_KEY" with
  | None | Some "" => false
  | Some _ => true
  end.

(** The length of the audio as [len] reports it, when the file decodes. *)
Definition duration_of (w : world) : exn + Z :=
  match from_file w (audio_path w) with
  | inl e => inl e
  | inr n => Py.len n
  end.

Definition loading_events (ap : string) : list event :=
  [PathExists ap;
   Print ("Audio file: " +:+ ap);
   Print ("Output folder: " +:+ Path.dirname ap);
   Print (nl +:+ "Loading audio file...");
   FromFile ap].

Definition total_line (duration_min : string) : string :=
  "Total audio length: " +:+ duration_min +:+ " minutes".

Definition splitting_line (n chunk_minutes : Z) : string :=
  "Splitting into " +:+ Py.str n +:+ " chunk(s) of ~" +:+ Py.str chunk_minutes
  +:+ " minutes each." +:+ nl.

Definition final_events (full : string) : list event :=
  [Print "Done."; Print ("Full transcript saved to: " +:+ full)].

(** The windows that the run of a world plans; none when the run does not
    get that far. *)
Definition planned (w : world) : list window :=
  match chunk_minutes_of w, duration_of w with
  | Some chunk_minutes, inr duration_ms =>
      match plan duration_ms chunk_minutes with
      | inr ws => ws
      | inl _ => []
      end
  | _, _ => []
  end.

(** The paths that a run wrote to, or tried to, in order. *)
Definition written (tr : list event) : list string :=
  omap (λ ev, match ev with
              | Export p _ _ | OpenW p => Some p
              | _ => None
              end) tr.

Definition is_print (ev : event) : Prop := ∃ line, ev = Print line.

(** ** The ways a run ends *)

(** The world [w] started with another command line. *)
Definition with_argv (w : world) (args : list string) : world :=
  {| argv := args;
     environ := environ w;
     abspath := abspath w;
     fs0 := fs0 w;
     from_file := from_file w;
     export_error := export_error w;
     transcription := transcription w;
     open_w_error := open_w_error w |}.

(** The run gets as far as the chunk count: the command line and the
    credential are accepted, the audio file is there and decodes. *)
Definition loaded (w : world) (chunk_minutes duration_ms : Z) : Prop :=
  chunk_minutes_of w = Some chunk_minutes ∧ has_key w = true ∧
  is_Some (fs0 w !! audio_path w) ∧ duration_of w = inr duration_ms.

(** What a run prints and calls before its loop. *)
Definition opening_events (w : world) (duration_min : string) (n chunk_minutes : Z)
  : list event :=
  loading_events (audio_path w)
  ++ [Print (total_line duration_min); Print (splitting_line n chunk_minutes)].

(** The eight ways in which a run ends, each with the result and the state
    it ends in: the exits of [main], from top to bottom. *)
Inductive outcome (w : world) : (exn + unit) * state → Prop :=
| Rejected line :
    chunk_minutes_of w = None →
    line = (if decide (length (argv w) < 2)%nat then usage
            else "chunk_minutes must be an integer (e.g. 20)") →
    outcome w (inl (SystemExit 1), State [Print line] (fs0 w))
| No_key :
    is_Some (chunk_minutes_of w) → has_key w = false →
    outcome w (inl (RuntimeError no_key_message), State [] (fs0 w))
| No_file chunk_minutes :
    chunk_minutes_of w = Some chunk_minutes → has_key w = true →
    fs0 w !! audio_path w = None →
    outcome w (inl (FileNotFoundError ("Audio file not found: " +:+ audio_path w)),
               State [PathExists (audio_path w)] (fs0 w))
| Not_loaded chunk_minutes e :
    chunk_minutes_of w = Some chunk_minutes → has_key w = true →
    is_Some (fs0 w !! audio_path w) → duration_of w = inl e →
    outcome w (inl e, State (loading_events (audio_path w)) (fs0 w))
| Not_counted chunk_minutes duration_ms duration_min e :
    loaded w chunk_minutes duration_ms →
    minutes duration_ms = inr duration_min →
    num_chunks duration_ms (chunk_minutes * 60 * 1000) = inl e →
    outcome w (inl e,
               State (loading_events (audio_path w) ++ [Print (total_line duration_min)])
                     (fs0 w))
| Chunk_failed chunk_minutes duration_ms duration_min n pre win post e evs files :
    loaded w chunk_minutes duration_ms →
    minutes duration_ms = inr duration_min →
    num_chunks duration_ms (chunk_minutes * 60 * 1000) = inr n →
    plan duration_ms chunk_minutes = inr (pre ++ win :: post) →
    Forall (chunk_ok w (folder_of w) (basename_of w)) pre →
    chunk_failure w (folder_of w) (basename_of w) win e evs
      (foldl (add_files w (folder_of w) (basename_of w)) (fs0 w) pre) files →
    outcome w
      (inl e,
       State (opening_events w duration_min n chunk_minutes
              ++ concat (chunk_events (folder_of w) (basename_of w) <$> pre) ++ evs)
             files)
| Merged_failed chunk_minutes duration_ms duration_min n ws e :
    loaded w chunk_minutes duration_ms →
    minutes duration_ms = inr duration_min →
    num_chunks duration_ms (chunk_minutes * 60 * 1000) = inr n →
    plan duration_ms chunk_minutes = inr ws →
    Forall (chunk_ok w (folder_of w) (basename_of w)) ws →
    open_w_error w (full_path (folder_of w) (basename_of w)) = Some e →
    outcome w
      (inl e,
       State (opening_events w duration_min n chunk_minutes
              ++ concat (chunk_events (folder_of w) (basename_of w) <$> ws)
              ++ [OpenW (full_path (folder_of w) (basename_of w))])
             (foldl (add_files w (folder_of w) (basename_of w)) (fs0 w) ws))
| Finished chunk_minutes duration_ms duration_min n ws :
    loaded w chunk_minutes duration_ms →
    minutes duration_ms = inr duration_min →
    num_chunks duration_ms (chunk_minutes * 60 * 1000) = inr n →
    plan duration_ms chunk_minutes = inr ws →
    Forall (chunk_ok w (folder_of w) (basename_of w)) ws →
    open_w_error w (full_path (folder_of w) (basename_of w)) = None →
    outcome w
      (inr tt,
       State (opening_events w duration_min n chunk_minutes
              ++ concat (chunk_events (folder_of w) (basename_of w) <$> ws)
              ++ OpenW (full_path (folder_of w) (basename_of w))
                 :: final_events (full_path (folder_of w) (basename_of w)))
             (<[full_path (folder_of w) (basename_of w)
                := Text (str_join (nl +:+ nl)
                           (entry_of w (folder_of w) (basename_of w) <$> ws))]>
                (foldl (add_files w (folder_of w) (basename_of w)) (fs0 w) ws))).

(** ** The calls and the console of a run *)

(** The slices that a run exported, or tried to, in order. *)
Definition exported (tr : list event) : list (string * Z * Z) :=
  omap (λ ev, match ev with
              | Export p s e => Some (p, s, e)
              | _ => None
              end) tr.

(** The files that a run sent to the transcription service, in order. *)
Definition requested (tr : list event) : list string :=
  omap (λ ev, match ev with
              | Transcribe p => Some p
              | _ => None
              end) tr.

(** The lines that a run printed, in order. *)
Definition printed (tr : list event) : list string :=
  omap (λ ev, match ev with
              | Print line => Some line
              | _ => None
              end) tr.

(** The slice of the audio that the chunk of [win] exports, and where to. *)
Definition slice_of (folder basename : string) (win : window) : string * Z * Z :=
  (chunk_path folder basename (index win), start_ms win, end_ms win).

(** The two files of a chunk. *)
Definition chunk_outputs (folder basename : string) (win : window) : list string :=
  [chunk_path folder basename (index win); part_txt_path folder basename (index win)].

(** The three calls of the chunk of [win] go through. *)
Definition calls_succeed (w : world) (folder basename : string) (win : window) : Prop :=
  export_error w (chunk_path folder basename (index win)) = None ∧
  returns (chunk_text w folder basename win) ∧
  open_w_error w (part_txt_path folder basename (index win)) = None.

(** The four lines that the chunk of [win] prints when it goes through. *)
Definition chunk_lines (basename : string) (win : window) : list string :=
  [header_line (index win) (start_min win) (end_min win);
   "Exporting " +:+ chunk_filename basename (index win) +:+ " ...";
   "Transcribing with OpenAI ...";
   "Saved transcript -> " +:+ part_txt_filename basename (index win) +:+ nl].



(** ** The specification's wording *)

(** The block of a chunk as the specification words it: the header line
    [Part <index> (<start_min>-<end_min> min)], a blank line, the text. *)
Definition stated_block (w : world) (win : window) : string :=
  "Part " +:+ Py.str (index win) +:+ " (" +:+ start_min win +:+ en_dash
  +:+ end_min win +:+ " min)" +:+ nl +:+ nl
  +:+ get "" (chunk_text w (folder_of w) (basename_of w) win).

Definition stated_merged (w : world) (ws : list window) : string :=
  str_join (nl +:+ nl) (stated_block w <$> ws).

(** The output files as the specification names them, in the order of
    writing: for the chunk with index [n] the audio [<basename>_part_<n>.mp3]
    and the text [<basename>_part_<n>_transcript.txt], and at the end the
    merged [<basename>_full_transcript.txt], all in [folder]. *)
Definition stated_outputs (folder basename : string) (ws : list window) : list string :=
  concat ((λ win,
             [Path.join folder (basename +:+ "_part_" +:+ Py.str (index win) +:+ ".mp3");
              Path.join folder
                (basename +:+ "_part_" +:+ Py.str (index win) +:+ "_transcript.txt")])
          <$> ws)
  ++ [Path.join folder (basename +:+ "_full_transcript.txt")].

(** [block] is the block of [win] in the merged transcript: its header line
    [### Part <index> (<start_min>-<end_min> min)], a blank line and the text
    that the transcription of its audio file returned. *)
Definition is_block (w : world) (win : window) (block : string) : Prop :=
  ∃ start_min end_min text,
    minutes (start_ms win) = inr start_min ∧
    minutes (end_ms win) = inr end_min ∧
    chunk_text w (folder_of w) (basename_of w) win = inr text ∧
    block = "### Part " +:+ Py.str (index win) +:+ " (" +:+ start_min
            +:+ en_dash +:+ end_min +:+ " min)" +:+ nl +:+ nl +:+ text.

(** The scenario as C3 states it: after the abort the files of window 1 are
    there, and no file of window 2 or 3 and no merged transcript is. *)
Definition only_window_1_on_disk (w : world) : Prop :=
  let files := fs (run w).2 in
  let folder := folder_of w in
  let base := basename_of w in
  is_Some (files !! chunk_path folder base 1) ∧
  is_Some (files !! part_txt_path folder base 1) ∧
  files !! chunk_path folder base 2 = None ∧
  files !! part_txt_path folder base 2 = None ∧
  files !! chunk_path folder base 3 = None ∧
  files !! part_txt_path folder base 3 = None ∧
  files !! full_path folder base = None.

(** The text that the interpreter prints for an uncaught exception. *)
Definition message (e : exn) : string :=
  match e with
  | SystemExit code => Py.str code
  | RuntimeError msg | FileNotFoundError msg | ValueError msg
  | ZeroDivisionError msg | OverflowError msg | ExternalError msg => msg
  end.

Fixpoint starts_with (prefix s : string) : bool :=
  match prefix, s with
  | "", _ => true
  | String a p, String b r => Ascii.eqb a b && starts_with p r
  | _, "" => false
  end.

(** [needle in hay] *)
Fixpoint occurs_in (needle hay : string) : bool :=
  (starts_with needle hay)
  || match hay with
     | "" => false
     | String _ r => occurs_in needle r
     end.

(** C7 as stated, for the window with index [part_num]: the error that
    surfaces names the window. *)
Definition error_names_window (r : exn + unit) (part_num : Z) : Prop :=
  ∃ e, r = inl e ∧ occurs_in (Py.str part_num) (message e) = true.

(** ** Sample worlds *)

(** A file [/home/u/talk.mp3] of [duration] ms, a working directory
    [/home/u], a service that answers [answer] and a disk that takes every
    write. *)
Definition talk (args : list string) (key : option string) (duration : Z)
    (answer : string → content → exn + string) : world :=
  {| argv := "transcribe_split.py" :: args;
     environ := match key with Some k => {[ "OPENAI_API_KEY" := k ]} | None => ∅ end;
     abspath := λ p, "/home/u/" +:+ p;
     fs0 := {[ "/home/u/talk.mp3" := Opaque ]};
     from_file := λ _, inr duration;
     export_error := λ _, None;
     transcription := answer;
     open_w_error := λ _, None |}.

Definition echo : string → content → exn + string := λ p _, inr ("text of " +:+ p).

(** The service fails on the file of part 2. *)
Definition fails_on_part_2 : string → content → exn + string :=
  λ p c, if String.eqb p "/home/u/talk_part_2.mp3"
         then inl (ExternalError "rate limit exceeded") else echo p c.

(** A 50-minute talk in 20-minute chunks, with a service that fails on
    part 2. *)
Definition talk_failing_on_2 : world :=
  talk ["talk.mp3"; "20"] (Some "sk-test") 3000000 fails_on_part_2.

(** A 25-minute talk in 20-minute chunks, transcribed without failure. *)
Definition talk_25_min : world :=
  talk ["talk.mp3"] (Some "sk-test") 1500000 echo.

(** A talk whose file does not decode. *)
Definition talk_undecodable : world :=
  {| argv := ["transcribe_split.py"; "talk.mp3"];
     environ := {[ "OPENAI_API_KEY" := "sk-test" ]};
     abspath := λ p, "/home/u/" +:+ p;
     fs0 := {[ "/home/u/talk.mp3" := Opaque ]};
     from_file := λ _, inl (ExternalError "could not decode");
     export_error := λ _, None;
     transcription := echo;
     open_w_error := λ _, None |}.

(** ** The model at work *)

Example truediv_1_3 : Py.truediv 1 3 = inr (Py.Float 6004799503160661 (-54)).
Proof. vm_compute. reflexivity. Qed.

Example truediv_minutes : Py.truediv 1000000 60000 = inr (Py.Float 4691249611844267 (-48)).
Proof. vm_compute. reflexivity. Qed.

Example format_minutes :
  (λ f, Py.format_1f f) <$> [Py.Float 4691249611844267 (-48); Py.Float 1 (-2); Py.Float 20 0]
  = ["16.7"; "0.2"; "20.0"].
Proof. vm_compute. reflexivity. Qed.

Example int_examples :
  Int.parse <$> ["20"; " 15 "; "-5"; "+7"; "0"; "1_000"; "007"; "";
                 "abc"; "3.5"; "1__0"; "_1"; "1_"; "- 5"; "2 0"]
  = [Some 20; Some 15; Some (-5); Some 7; Some 0; Some 1000; Some 7; None;
     None; None; None; None; None; None; None].
Proof. vm_compute. reflexivity. Qed.

Example path_examples :
  (λ p, (Path.dirname p, Path.basename p, Path.splitext (Path.basename p)))
    <$> ["/home/u/talk.mp3"; "/talk.final.mp3"; "//x"; "/a/b/"; ".hidden"; "/a/..mp3"; "rel/x.y"]
  = [("/home/u", "talk.mp3", ("talk", ".mp3"));
     ("/", "talk.final.mp3", ("talk.final", ".mp3"));
     ("//", "x", ("x", ""));
     ("/a/b", "", ("", ""));
     ("", ".hidden", (".hidden", ""));
     ("/a", "..mp3", ("..mp3", ""));
     ("rel", "x.y", ("x", ".y"))].
Proof. vm_compute. reflexivity. Qed.

Example join_examples :
  [Path.join "/home/u" "a.txt"; Path.join "/" "a.txt"; Path.join "" "a.txt"; Path.join "/x" "/abs"]
  = ["/home/u/a.txt"; "/a.txt"; "a.txt"; "/abs"].
Proof. vm_compute. reflexivity. Qed.

Example plan_60_min :
  plan 3600000 20
  = inr [Window 1 0 1200000; Window 2 1200000 2400000; Window 3 2400000 3600000].
Proof. vm_compute. reflexivity. Qed.

Example plan_short : plan 1000000 20 = inr [Window 1 0 1000000].
Proof. vm_compute. reflexivity. Qed.

Example plan_empty : plan 0 20 = inr [].
Proof. vm_compute. reflexivity. Qed.

Example merged_transcript_of_talk :
  fs (run talk_25_min).2 !! "/home/u/talk_full_transcript.txt"
  = Some (Text ("### Part 1 (0.0" +:+ en_dash +:+ "20.0 min)" +:+ nl +:+ nl
                +:+ "text of /home/u/talk_part_1.mp3" +:+ nl +:+ nl
                +:+ "### Part 2 (20.0" +:+ en_dash +:+ "25.0 min)" +:+ nl +:+ nl
                +:+ "text of /home/u/talk_part_2.mp3")).
Proof. by vm_compute. Qed.

(** * Properties *)

(** ** Rounding *)

Section Rounding.

Import Py.

Lemma pow2_pos k : 0 < pow2 k.
Proof. unfold pow2. apply Z.pow_pos_nonneg; lia. Qed.

Lemma pow2_nonneg k : 0 ≤ k → pow2 k = 2 ^ k.
Proof. intros. unfold pow2. f_equal. lia. Qed.

Lemma pow2_nonpos k : k ≤ 0 → pow2 k = 1.
Proof. intros. unfold pow2. replace (Z.max 0 k) with 0 by lia. reflexivity. Qed.

Lemma ceil_div_spec a b : 0 < b → (ceil_div a b - 1) * b < a ≤ ceil_div a b * b.
Proof.
  intros Hb. unfold ceil_div.
  pose proof (Z.div_mod (- a) b ltac:(lia)).
  pose proof (Z.mod_pos_bound (- a) b Hb). nia.
Qed.

Lemma ceil_div_unique a b k : 0 < b → (k - 1) * b < a ≤ k * b → ceil_div a b = k.
Proof. intros Hb Hk. pose proof (ceil_div_spec a b Hb). nia. Qed.

Lemma round_half_even_le n d N : 0 < d → n ≤ N * d → round_half_even n d ≤ N.
Proof.
  intros Hd Hn. unfold round_half_even.
  pose proof (Z.div_mod n d ltac:(lia)).
  pose proof (Z.mod_pos_bound n d Hd).
  destruct (Z.ltb_spec (2 * (n mod d)) d); [nia|].
  destruct (Z.ltb_spec d (2 * (n mod d))); [nia|].
  destruct (Z.even (n / d)); nia.
Qed.

Lemma round_half_even_gt n d N :
  0 < d → N * d < n → d < 2 * (n - N * d) → N + 1 ≤ round_half_even n d.
Proof.
  intros Hd Hn Hhalf. unfold round_half_even.
  pose proof (Z.div_mod n d ltac:(lia)).
  pose proof (Z.mod_pos_bound n d Hd).
  assert (N ≤ n / d) by nia.
  destruct (Z.ltb_spec (2 * (n mod d)) d); [nia|].
  destruct (Z.ltb_spec d (2 * (n mod d))); [nia|].
  destruct (Z.even (n / d)); nia.
Qed.

Lemma round_half_even_nonneg n d : 0 < d → 0 ≤ n → 0 ≤ round_half_even n d.
Proof.
  intros Hd Hn. unfold round_half_even.
  pose proof (Z.div_pos n d Hn Hd). repeat case_match; lia.
Qed.

Lemma ilog2_ratio_lower a b :
  0 < a → 0 < b → b * pow2 (ilog2_ratio a b) ≤ a * pow2 (- ilog2_ratio a b).
Proof.
  intros Ha Hb. unfold ilog2_ratio.
  destruct (Z.log2_spec a Ha) as [Ha1 _]. destruct (Z.log2_spec b Hb) as [_ Hb2].
  pose proof (Z.log2_nonneg a). pose proof (Z.log2_nonneg b).
  set (la := Z.log2 a) in *. set (lb := Z.log2 b) in *.
  destruct (Z.ltb_spec (a * pow2 (- (la - lb))) (b * pow2 (la - lb))); [|lia].
  destruct (Z.le_gt_cases 0 (la - lb - 1)).
  - rewrite (pow2_nonneg (la - lb - 1)), (pow2_nonpos (- (la - lb - 1))) by lia.
    assert (2 ^ Z.succ lb * 2 ^ (la - lb - 1) = 2 ^ la) as Hpow.
    { rewrite <- Z.pow_add_r by lia. f_equal; lia. }
    assert (0 < 2 ^ (la - lb - 1)) by (apply Z.pow_pos_nonneg; lia). nia.
  - rewrite (pow2_nonpos (la - lb - 1)), (pow2_nonneg (- (la - lb - 1))) by lia.
    assert (2 ^ la * 2 ^ (- (la - lb - 1)) = 2 ^ Z.succ lb) as Hpow.
    { rewrite <- Z.pow_add_r by lia. f_equal; lia. }
    assert (0 < 2 ^ (- (la - lb - 1))) by (apply Z.pow_pos_nonneg; lia). nia.
Qed.

Lemma ilog2_ratio_upper a b :
  0 < a → 0 < b →
  a * pow2 (- (ilog2_ratio a b + 1)) < b * pow2 (ilog2_ratio a b + 1).
Proof.
  intros Ha Hb. unfold ilog2_ratio.
  destruct (Z.log2_spec a Ha) as [_ Ha2]. destruct (Z.log2_spec b Hb) as [Hb1 _].
  pose proof (Z.log2_nonneg a). pose proof (Z.log2_nonneg b).
  set (la := Z.log2 a) in *. set (lb := Z.log2 b) in *.
  destruct (Z.ltb_spec (a * pow2 (- (la - lb))) (b * pow2 (la - lb))).
  { replace (la - lb - 1 + 1) with (la - lb) by lia. done. }
  destruct (Z.le_gt_cases 0 (la - lb + 1)).
  - rewrite (pow2_nonneg (la - lb + 1)), (pow2_nonpos (- (la - lb + 1))) by lia.
    assert (2 ^ lb * 2 ^ (la - lb + 1) = 2 ^ Z.succ la) as Hpow.
    { rewrite <- Z.pow_add_r by lia. f_equal; lia. }
    assert (0 < 2 ^ (la - lb + 1)) by (apply Z.pow_pos_nonneg; lia). nia.
  - rewrite (pow2_nonpos (la - lb + 1)), (pow2_nonneg (- (la - lb + 1))) by lia.
    assert (2 ^ Z.succ la * 2 ^ (- (la - lb + 1)) = 2 ^ lb) as Hpow.
    { rewrite <- Z.pow_add_r by lia. f_equal; lia. }
    assert (0 < 2 ^ (- (la - lb + 1))) by (apply Z.pow_pos_nonneg; lia). nia.
Qed.

(** The quotient of a positive [a] below [2^53 * b] is a float with a
    non-positive exponent [- s] whose mantissa is [a * 2^s / b] rounded. *)
Lemma float_of_ratio_small a b :
  0 < a → 0 < b → a < 2 ^ 53 * b →
  ∃ s, 0 ≤ s ∧ s = Z.min (52 - ilog2_ratio a b) 1074 ∧
       float_of_ratio a b = inr (Float (round_half_even (a * 2 ^ s) b) (- s)).
Proof.
  intros Ha Hb Hab. unfold float_of_ratio.
  destruct (Z.eqb_spec a 0); [lia|].
  pose proof (ilog2_ratio_lower a b Ha Hb) as Hlo.
  pose proof (ilog2_ratio_upper a b Ha Hb) as Hup.
  set (L := ilog2_ratio a b) in *.
  assert (L ≤ 52) as HL.
  { destruct (Z.le_gt_cases L 52); [done|exfalso].
    rewrite (pow2_nonneg L), (pow2_nonpos (- L)) in Hlo by lia.
    assert (2 ^ 53 ≤ 2 ^ L) by (apply Z.pow_le_mono_r; lia). nia. }
  exists (Z.min (52 - L) 1074). split; [lia|]. split; [done|].
  set (s := Z.min (52 - L) 1074).
  replace (Z.max (L - 52) (-1074)) with (- s) by lia.
  rewrite (pow2_nonpos (- s)), Z.opp_involutive, (pow2_nonneg s) by lia.
  rewrite !Z.mul_1_r.
  assert (0 < 2 ^ s) as Hs by (apply Z.pow_pos_nonneg; lia).
  assert (round_half_even (a * 2 ^ s) b ≤ 2 ^ 53) as Hm.
  { apply round_half_even_le; [done|].
    assert (2 ^ s ≤ 2 ^ (52 - L)) as Hs' by (apply Z.pow_le_mono_r; lia).
    destruct (Z.le_gt_cases 0 (L + 1)).
    - rewrite (pow2_nonneg (L + 1)), (pow2_nonpos (- (L + 1))) in Hup by lia.
      assert (2 ^ (L + 1) * 2 ^ (52 - L) = 2 ^ 53) as Hpow.
      { rewrite <- Z.pow_add_r by lia. f_equal; lia. }
      assert (0 < 2 ^ (L + 1)) by (apply Z.pow_pos_nonneg; lia).
      assert (a * 2 ^ s ≤ a * 2 ^ (52 - L)) by (apply Z.mul_le_mono_nonneg_l; lia).
      assert (a * 2 ^ (52 - L) ≤ b * 2 ^ (L + 1) * 2 ^ (52 - L))
        by (apply Z.mul_le_mono_nonneg_r; lia).
      rewrite <- Z.mul_assoc, Hpow in *. lia.
    - rewrite (pow2_nonpos (L + 1)), (pow2_nonneg (- (L + 1))) in Hup by lia.
      assert (2 ^ (- (L + 1)) * 2 ^ 53 = 2 ^ (52 - L)) as Hpow.
      { rewrite <- Z.pow_add_r by lia. f_equal; lia. }
      assert (a * 2 ^ s ≤ a * 2 ^ (52 - L)) by (apply Z.mul_le_mono_nonneg_l; lia).
      assert (a * 2 ^ (- (L + 1)) * 2 ^ 53 ≤ b * 2 ^ 53)
        by (apply Z.mul_le_mono_nonneg_r; lia).
      rewrite <- Z.mul_assoc, Hpow in *. lia. }
  destruct (Z.leb_spec (2 ^ 1024) (round_half_even (a * 2 ^ s) b)); [|done].
  assert (2 ^ 53 < 2 ^ 1024) by (apply Z.pow_lt_mono_r; lia). lia.
Qed.

Lemma ceil_small_exponent m s : 0 ≤ s → ceil (Float m (- s)) = ceil_div m (2 ^ s).
Proof.
  intros Hs. unfold ceil, ceil_div. simpl.
  destruct (Z.leb_spec 0 (- s)).
  - replace s with 0 by lia. simpl. rewrite Z.div_1_r. lia.
  - by rewrite Z.opp_involutive.
Qed.

End Rounding.

(** ** The number of chunks *)

Section NumChunks.

Import Py.

Lemma truediv_nonneg a b :
  0 ≤ a → 0 < b → truediv a b = float_of_ratio a b.
Proof.
  intros Ha Hb. unfold truediv.
  destruct (Z.eqb_spec b 0); [lia|].
  rewrite (Z.abs_eq a), (Z.abs_eq b) by lia.
  destruct (float_of_ratio a b); [done|].
  destruct (Z.ltb_spec (Z.sgn a * Z.sgn b) 0); [|done].
  pose proof (Z.sgn_nonneg a). pose proof (Z.sgn_nonneg b). nia.
Qed.

(** Below [2^53] chunks the float quotient never rounds past the next
    integer: the loop runs at most [ceil_div] times. *)
Lemma num_chunks_le d c :
  0 ≤ d → 0 < c → d < 2 ^ 53 * c →
  ∃ n, num_chunks d c = inr n ∧ 0 ≤ n ≤ ceil_div d c.
Proof.
  intros Hd Hc Hdc. unfold num_chunks. rewrite truediv_nonneg by lia.
  destruct (Z.eq_dec d 0) as [->|].
  { exists 0. split; [done|]. pose proof (ceil_div_spec 0 c Hc). nia. }
  destruct (float_of_ratio_small d c) as (s & Hs & _ & ->); [lia..|].
  eexists. split; [done|]. rewrite ceil_small_exponent by done.
  assert (0 < 2 ^ s) as Hp by (apply Z.pow_pos_nonneg; lia).
  pose proof (ceil_div_spec d c Hc) as [_ Hk].
  set (m := round_half_even (d * 2 ^ s) c).
  assert (0 ≤ m) by (apply round_half_even_nonneg; nia).
  assert (m ≤ ceil_div d c * 2 ^ s) as Hm.
  { apply round_half_even_le; [done|]. nia. }
  pose proof (ceil_div_spec m (2 ^ s) Hp). nia.
Qed.

(** For a duration below [2^53] ms the float quotient rounds to the exact
    ceiling. *)
Lemma num_chunks_exact d c :
  0 ≤ d < 2 ^ 53 → 0 < c < 2 ^ 1075 → num_chunks d c = inr (ceil_div d c).
Proof.
  intros [Hd Hd53] [Hc Hc'].
  destruct (Z.eq_dec d 0) as [->|].
  { unfold num_chunks. by rewrite truediv_nonneg by lia. }
  assert (d < 2 ^ 53 * c) as Hdc by nia.
  unfold num_chunks. rewrite truediv_nonneg by lia.
  destruct (float_of_ratio_small d c) as (s & Hs & Hsdef & ->); [lia..|].
  f_equal. rewrite ceil_small_exponent by done.
  assert (0 < 2 ^ s) as Hp by (apply Z.pow_pos_nonneg; lia).
  pose proof (ceil_div_spec d c Hc) as [Hk1 Hk2].
  set (k := ceil_div d c) in *.
  set (m := round_half_even (d * 2 ^ s) c).
  apply ceil_div_unique; [done|]. split.
  - (* the quotient is more than half a unit in the last place above [k - 1] *)
    assert (c < 2 * 2 ^ s) as Hulp.
    { pose proof (ilog2_ratio_lower d c ltac:(lia) Hc) as Hlo.
      set (L := ilog2_ratio d c) in *.
      destruct (Z.le_gt_cases 1074 (52 - L)).
      { replace s with 1074 by lia. change (2 * 2 ^ 1074) with (2 ^ 1075). lia. }
      replace s with (52 - L) by lia.
      replace (2 * 2 ^ (52 - L)) with (2 ^ (53 - L)).
      2:{ replace (53 - L) with (1 + (52 - L)) by lia. by rewrite Z.pow_add_r by lia. }
      destruct (Z.le_gt_cases 0 L).
      - rewrite (pow2_nonneg L), (pow2_nonpos (- L)) in Hlo by lia.
        assert (2 ^ (53 - L) * 2 ^ L = 2 ^ 53) as Hpow.
        { rewrite <- Z.pow_add_r by lia. f_equal; lia. }
        assert (0 < 2 ^ L) by (apply Z.pow_pos_nonneg; lia). nia.
      - rewrite (pow2_nonpos L), (pow2_nonneg (- L)) in Hlo by lia.
        assert (2 ^ 53 * 2 ^ (- L) = 2 ^ (53 - L)) as Hpow.
        { rewrite <- Z.pow_add_r by lia. f_equal; lia. }
        assert (0 < 2 ^ (- L)) by (apply Z.pow_pos_nonneg; lia). nia. }
    assert ((k - 1) * 2 ^ s + 1 ≤ m); [|lia].
    apply round_half_even_gt; [done|nia|nia].
  - apply round_half_even_le; [done|nia].
Qed.

End NumChunks.

(** ** Paths *)

Lemma append_cons c (s1 s2 : string) : String c s1 +:+ s2 = String c (s1 +:+ s2).
Proof. reflexivity. Qed.

Lemma append_nil_l (s : string) : "" +:+ s = s.
Proof. reflexivity. Qed.

Lemma append_assoc (s1 s2 s3 : string) : (s1 +:+ s2) +:+ s3 = s1 +:+ s2 +:+ s3.
Proof. induction s1 as [|c s1 IH]; [done|]. by rewrite !append_cons, IH. Qed.

Lemma append_nil_r (s : string) : s +:+ "" = s.
Proof. induction s as [|c s IH]; [done|]. by rewrite append_cons, IH. Qed.

Section Paths.

Import Path.

Lemma free_of_app ch s1 s2 :
  free_of ch (s1 +:+ s2) = free_of ch s1 && free_of ch s2.
Proof.
  induction s1 as [|c s1 IH]; [done|]. rewrite append_cons. simpl.
  rewrite IH. by destruct (Ascii.eqb c ch).
Qed.

Lemma rpartition_None sep p : free_of sep p = true → rpartition sep p = None.
Proof.
  induction p as [|c p IH]; simpl; [done|].
  intros [Hc Hp]%andb_true_iff. rewrite IH by done.
  by destruct (Ascii.eqb c sep).
Qed.

Lemma rpartition_Some sep p b a :
  rpartition sep p = Some (b, a) → p = b +:+ String sep a ∧ free_of sep a = true.
Proof.
  revert b. induction p as [|c p IH]; simpl; [done|]. intros b.
  destruct (rpartition sep p) as [[b' a']|] eqn:Hp.
  - intros [= <- <-]. destruct (IH b' eq_refl) as [-> ?]. done.
  - destruct (Ascii.eqb_spec c sep) as [->|]; [|done]. intros [= <- <-]. split; [done|].
    clear IH. induction p as [|c p IH]; simpl in *; [done|].
    destruct (rpartition sep p) as [[??]|]; [done|].
    destruct (Ascii.eqb c sep); [done|]. simpl. by apply IH.
Qed.

Lemma rpartition_app sep b a :
  free_of sep a = true → rpartition sep (b +:+ String sep a) = Some (b, a).
Proof.
  intros Ha. induction b as [|c b IH].
  - rewrite append_nil_l. simpl. rewrite rpartition_None by done.
    by rewrite Ascii.eqb_refl.
  - rewrite append_cons. simpl. by rewrite IH.
Qed.

Lemma basename_free p : free_of "/" (basename p) = true.
Proof.
  unfold basename, split_at_sep.
  destruct (rpartition "/" p) as [[b a]|] eqn:Hp; simpl.
  - by apply rpartition_Some in Hp as [_ ?].
  - clear -Hp. induction p as [|c p IH]; simpl in *; [done|].
    destruct (rpartition "/" p) as [[??]|]; [done|].
    destruct (Ascii.eqb c "/"); [done|]. by apply IH.
Qed.

Lemma splitext_root_free t : free_of "/" t = true → free_of "/" (splitext t).1 = true.
Proof.
  intros Ht. unfold splitext, split_at_sep. rewrite (rpartition_None "/" t) by done.
  destruct (rpartition "." t) as [[b a]|] eqn:Hdot; [|done].
  destruct (all_of "." b); [done|]. simpl.
  apply rpartition_Some in Hdot as [-> _].
  rewrite free_of_app in Ht. by apply andb_true_iff in Ht as [? _].
Qed.

Lemma join_relative folder name :
  free_of "/" name = true → join folder name = dir_prefix folder +:+ name.
Proof.
  intros Hname. unfold join, dir_prefix.
  destruct name as [|c name]; [|simpl in Hname; destruct (Ascii.eqb_spec c "/") as [->|]].
  - destruct (_ || _); [done|]. by rewrite append_assoc.
  - done.
  - assert (∀ r : string,
              match String c name with String "/" _ => String c name | _ => r end = r)
      as ->.
    { intros r. destruct c as [[] [] [] [] [] [] [] []]; done. }
    destruct (_ || _); [done|]. by rewrite append_assoc.
Qed.

(** Two names in one folder give different paths. *)
Lemma join_inj folder name1 name2 :
  free_of "/" name1 = true → free_of "/" name2 = true →
  join folder name1 = join folder name2 → name1 = name2.
Proof.
  intros H1 H2. rewrite !join_relative by done. apply String.app_inj.
Qed.

Lemma all_of_snoc ch s : all_of ch (s +:+ String ch "") = all_of ch s.
Proof.
  induction s as [|c s IH].
  - simpl. by rewrite Ascii.eqb_refl.
  - rewrite append_cons. simpl. by rewrite IH.
Qed.

Lemma all_of_ends s : all_of "/" s = true → s ≠ "" → ends_with_slash s = true.
Proof.
  induction s as [|c s IH]; [done|]. simpl.
  intros [Hc Hs]%andb_true_iff _. destruct s as [|c' s]; [done|].
  by apply IH.
Qed.

Lemma ends_with_slash_cons c s : s ≠ "" → ends_with_slash (String c s) = ends_with_slash s.
Proof. by destruct s. Qed.

Lemma rstrip_slash_ends s : ends_with_slash (rstrip_slash s) = false.
Proof.
  induction s as [|c s IH]; [done|]. simpl.
  destruct (rstrip_slash s) as [|c' r] eqn:Hr.
  - destruct (Ascii.eqb c "/") eqn:Hc; [done|]. simpl. done.
  - by rewrite ends_with_slash_cons.
Qed.

Lemma rstrip_slash_id s : ends_with_slash s = false → rstrip_slash s = s.
Proof.
  induction s as [|c s IH]; [done|]. destruct s as [|c' s].
  - simpl. by intros ->.
  - rewrite ends_with_slash_cons by done. intros Hs.
    change (rstrip_slash (String c (String c' s)))
      with (match rstrip_slash (String c' s) with
            | "" => if Ascii.eqb c "/" then "" else String c ""
            | r' => String c r'
            end).
    by rewrite IH.
Qed.

Lemma rstrip_slash_snoc s : rstrip_slash (s +:+ "/") = rstrip_slash s.
Proof.
  induction s as [|c s IH]; [done|]. rewrite append_cons. simpl. by rewrite IH.
Qed.

Lemma ends_with_slash_snoc s : ends_with_slash s = true → ∃ b, s = b +:+ "/".
Proof.
  induction s as [|c s IH]; [done|]. destruct s as [|c' s].
  - simpl. intros ->%Ascii.eqb_eq. by exists "".
  - rewrite ends_with_slash_cons by done. intros [b ->]%IH.
    exists (String c b). by rewrite append_cons.
Qed.

(** A [dirname] is empty, made of slashes only, or does not end in one. *)
Lemma dirname_shape p :
  dirname p = "" ∨ all_of "/" (dirname p) = true ∨ ends_with_slash (dirname p) = false.
Proof.
  unfold dirname. destruct (all_of "/" (split_at_sep p).1) eqn:Hall.
  - right. by left.
  - right. right. apply rstrip_slash_ends.
Qed.

Lemma dirname_relative name : free_of "/" name = true → dirname name = "".
Proof.
  intros Hname. unfold dirname, split_at_sep. by rewrite rpartition_None.
Qed.

Lemma dirname_app_slash b name :
  free_of "/" name = true →
  dirname (b +:+ "/" +:+ name)
  = if all_of "/" (b +:+ "/") then b +:+ "/" else rstrip_slash (b +:+ "/").
Proof.
  intros Hname. unfold dirname, split_at_sep.
  change ("/" +:+ name) with (String "/" name). by rewrite rpartition_app.
Qed.

(** A file that is joined to the folder of a path lies in that folder. *)
Lemma dirname_join p name :
  free_of "/" name = true → dirname (join (dirname p) name) = dirname p.
Proof.
  intros Hname. rewrite join_relative by done. unfold dir_prefix.
  destruct (String.eqb_spec (dirname p) "") as [->|Hne]; simpl.
  { by apply dirname_relative. }
  destruct (ends_with_slash (dirname p)) eqn:Hends.
  - destruct (ends_with_slash_snoc _ Hends) as [b Hb].
    rewrite Hb, append_assoc, dirname_app_slash by done. rewrite <- Hb.
    destruct (dirname_shape p) as [?|[->|?]]; [done|done|congruence].
  - rewrite append_assoc, dirname_app_slash by done.
    rewrite all_of_snoc, rstrip_slash_snoc.
    destruct (all_of "/" (dirname p)) eqn:Hall.
    + apply all_of_ends in Hall; [congruence|done].
    + by apply rstrip_slash_id.
Qed.

Lemma pretty_N_go_free ch x s :
  (∀ d, (d < 10)%N → pretty_N_char d ≠ ch) →
  free_of ch s = true → free_of ch (pretty_N_go x s) = true.
Proof.
  intros Hch. revert s. induction (N.lt_wf_0 x) as [x _ IH]. intros s Hs.
  destruct (decide (x = 0)%N) as [->|].
  - by rewrite pretty_N_go_0.
  - rewrite pretty_N_go_step by lia. apply IH.
    + apply N.div_lt; lia.
    + simpl. rewrite Hs, andb_true_r. apply negb_true_iff, Ascii.eqb_neq.
      apply Hch. apply N.mod_lt. lia.
Qed.

Lemma pretty_N_char_not_slash d : (d < 10)%N → pretty_N_char d ≠ "/"%char.
Proof. unfold pretty_N_char. repeat case_match; done. Qed.

(** The decimal form of an int has no [/]. *)
Lemma str_free n : free_of "/" (Py.str n) = true.
Proof.
  assert (∀ x, free_of "/" (pretty (N.pos x)) = true) as Hpos.
  { intros x. unfold pretty, pretty_N. case_decide; [done|].
    apply pretty_N_go_free; [apply pretty_N_char_not_slash|done]. }
  unfold Py.str, pretty, pretty_Z. destruct n as [|x|x]; [done|apply Hpos|].
  change ("-" +:+ pretty x) with (String "-" (pretty (N.pos x))).
  simpl. apply Hpos.
Qed.

End Paths.

(** ** One chunk *)

Section Chunk.

Context (w : world) (folder basename : string) (chunk_ms duration_ms : Z).

(** The body of the loop, one external call at a time. *)
Lemma process_chunk_eq i parts st :
  let win := window_of chunk_ms duration_ms i in
  let cp := chunk_path folder basename (index win) in
  let tp := part_txt_path folder basename (index win) in
  let audio := Mp3 (start_ms win) (end_ms win) in
  process_chunk w folder basename chunk_ms duration_ms i parts st =
  match minutes (start_ms win), minutes (end_ms win) with
  | inl e, _ => (inl e, st)
  | inr _, inl e => (inl e, st)
  | inr sm, inr em =>
      let t1 := trace st ++ export_events folder basename win sm em in
      match export_error w cp with
      | Some e => (inl e, State t1 (fs st))
      | None =>
          let t2 := t1 ++ transcribe_events folder basename win in
          match transcription w cp audio with
          | inl e => (inl e, State t2 (<[cp := audio]> (fs st)))
          | inr text =>
              let t3 := t2 ++ write_events folder basename win in
              match open_w_error w tp with
              | Some e => (inl e, State t3 (<[cp := audio]> (fs st)))
              | None =>
                  (inr (parts ++ [part_entry (index win) sm em text]),
                   State (t3 ++ saved_events basename win)
                         (<[tp := Text text]> (<[cp := audio]> (fs st))))
              end
          end
      end
  end.
Proof.
  intros win cp tp audio. subst win cp tp audio. destruct st as [tr files].
  unfold process_chunk, export_events, transcribe_events, write_events,
    saved_events, chunk_path, part_txt_path, header_line.
  cbv beta iota delta [bind print log export open_rb transcribe write_text store
    lift ret raise trace fs window_of index start_ms end_ms].
  destruct (minutes (i * chunk_ms)) as [e|sm]; [reflexivity|].
  destruct (minutes (Z.min ((i + 1) * chunk_ms) duration_ms)) as [e|em];
    [reflexivity|].
  cbv beta iota.
  destruct (export_error w _) as [e|]; cbv beta iota.
  { by rewrite <- !(assoc_L (++)). }
  rewrite lookup_insert_eq.
  destruct (transcription w _ _) as [e|text]; cbv beta iota.
  { by rewrite <- !(assoc_L (++)). }
  destruct (open_w_error w _) as [e|]; cbv beta iota; by rewrite <- !(assoc_L (++)).
Qed.

End Chunk.

(** ** The loop *)

(** A loop invariant that is indexed by the items already processed holds
    after the loop, and held before the iteration that raised. *)
Lemma for_each_inv {A B} (I : list A → B → state → Prop) (body : A → B → M B) :
  (∀ seen x a s a' s',
     I seen a s → body x a s = (inr a', s') → I (seen ++ [x]) a' s') →
  ∀ xs seen acc st,
    I seen acc st →
    match for_each xs body acc st with
    | (inr r, st') => I (seen ++ xs) r st'
    | (inl e, st') =>
        ∃ pre x post a s,
          xs = pre ++ x :: post ∧ I (seen ++ pre) a s ∧ body x a s = (inl e, st')
    end.
Proof.
  intros Hstep xs. induction xs as [|x xs IH]; intros seen acc st HI.
  - simpl. unfold ret. by rewrite app_nil_r.
  - simpl. unfold bind. destruct (body x acc st) as [[e|acc'] st1] eqn:Hbody.
    + exists [], x, xs, acc, st. by rewrite app_nil_r.
    + specialize (IH (seen ++ [x]) acc' st1 (Hstep _ _ _ _ _ _ HI Hbody)).
      destruct (for_each xs body acc' st1) as [[e|r] st'].
      * destruct IH as (pre & y & post & a & s & -> & HIpre & Hy).
        exists (x :: pre), y, post, a, s. split; [done|].
        by rewrite <- (assoc_L (++)) in HIpre.
      * by rewrite <- (assoc_L (++)) in IH.
Qed.

Lemma length_range n : length (range n) = Z.to_nat n.
Proof. unfold range. by rewrite length_fmap, length_seq. Qed.

Lemma lookup_range n (i : nat) :
  (i < Z.to_nat n)%nat → range n !! i = Some (Z.of_nat i).
Proof.
  intros Hi. unfold range. rewrite list_lookup_fmap, lookup_seq_lt by done. done.
Qed.

Lemma lookup_range_Some n (i : nat) x :
  range n !! i = Some x → x = Z.of_nat i ∧ (i < Z.to_nat n)%nat.
Proof.
  intros Hx. pose proof (lookup_lt_Some _ _ _ Hx) as Hi. rewrite length_range in Hi.
  rewrite lookup_range in Hx by done. by injection Hx as <-.
Qed.

Section Loop.

Context (w : world) (folder basename : string) (chunk_ms duration_ms : Z).

Lemma process_chunk_success i parts st parts' st' :
  let win := window_of chunk_ms duration_ms i in
  process_chunk w folder basename chunk_ms duration_ms i parts st = (inr parts', st') →
  chunk_ok w folder basename win ∧
  parts' = parts ++ [entry_of w folder basename win] ∧
  trace st' = trace st ++ chunk_events folder basename win ∧
  fs st' = add_files w folder basename (fs st) win.
Proof.
  intros win. rewrite process_chunk_eq. fold win.
  unfold chunk_ok, entry_of, chunk_events, add_files, start_min, end_min, chunk_text.
  destruct (minutes (start_ms win)) as [|sm]; [by intros [=]|].
  destruct (minutes (end_ms win)) as [|em]; [by intros [=]|].
  destruct (export_error w _); [by intros [=]|].
  destruct (transcription w _ _) as [|text]; [by intros [=]|].
  destruct (open_w_error w _); [by intros [=]|].
  intros [= <- <-]. unfold returns. cbn [trace fs].
  rewrite <- !(assoc_L (++)). split_and?; eauto.
Qed.

Lemma process_chunk_failure i parts st e st' :
  let win := window_of chunk_ms duration_ms i in
  process_chunk w folder basename chunk_ms duration_ms i parts st = (inl e, st') →
  ∃ evs, chunk_failure w folder basename win e evs (fs st) (fs st') ∧
         trace st' = trace st ++ evs.
Proof.
  intros win. rewrite process_chunk_eq. fold win.
  destruct (minutes (start_ms win)) as [|sm] eqn:Hsm.
  { intros [= <- <-]. exists []. rewrite app_nil_r. split; [|done].
    apply Fail_minutes. by left. }
  destruct (minutes (end_ms win)) as [|em] eqn:Hem.
  { intros [= <- <-]. exists []. rewrite app_nil_r. split; [|done].
    apply Fail_minutes. by right. }
  assert (start_min win = sm) as Hs by (unfold start_min; by rewrite Hsm).
  assert (end_min win = em) as He by (unfold end_min; by rewrite Hem).
  destruct (export_error w _) as [e1|] eqn:Hexp.
  { intros [= <- <-]. eexists. split; [|done]. simpl. rewrite <- Hs, <- He.
    by apply Fail_export. }
  destruct (transcription w _ _) as [e1|text] eqn:Htr.
  { intros [= <- <-]. eexists. split; [|simpl; by rewrite <- (assoc_L (++))].
    rewrite <- Hs, <- He. by apply Fail_transcribe. }
  destruct (open_w_error w _) as [e1|] eqn:Hw; [|by intros [=]].
  intros [= <- <-]. eexists. split; [|simpl; by rewrite <- !(assoc_L (++))].
  rewrite <- Hs, <- He. apply Fail_write; [done|by exists text|done].
Qed.

(** The loop over [range n], from console [t0] and files [f0]. *)
Lemma loop_outcome n t0 f0 :
  let wins := window_of chunk_ms duration_ms <$> range n in
  match for_each (range n) (process_chunk w folder basename chunk_ms duration_ms) []
          (State t0 f0) with
  | (inr parts, st') => after_chunks w folder basename t0 f0 wins parts st'
  | (inl e, st') =>
      ∃ pre win post evs,
        wins = pre ++ win :: post ∧
        Forall (chunk_ok w folder basename) pre ∧
        chunk_failure w folder basename win e evs
          (foldl (add_files w folder basename) f0 pre) (fs st') ∧
        trace st' = t0 ++ concat (chunk_events folder basename <$> pre) ++ evs
  end.
Proof.
  intros wins.
  set (I := λ seen parts st,
         after_chunks w folder basename t0 f0
           (window_of chunk_ms duration_ms <$> seen) parts st).
  assert (∀ seen x a s a' s',
            I seen a s →
            process_chunk w folder basename chunk_ms duration_ms x a s = (inr a', s') →
            I (seen ++ [x]) a' s') as Hstep.
  { intros seen x a s a' s' (Hok & -> & Htr & Hfs) Hbody.
    apply process_chunk_success in Hbody as (Hx & -> & Htr' & Hfs').
    unfold I. rewrite fmap_app. simpl. split_and!.
    - apply Forall_app. split; [done|]. by apply Forall_singleton.
    - by rewrite fmap_app.
    - rewrite Htr', Htr, fmap_app, concat_app. simpl.
      by rewrite ?app_nil_r, <- ?(assoc_L (++)).
    - by rewrite Hfs', Hfs, foldl_app. }
  assert (I [] [] (State t0 f0)) as Hinit.
  { unfold I. split_and!; simpl; [done|done|by rewrite app_nil_r|done]. }
  pose proof (for_each_inv I _ Hstep (range n) [] [] (State t0 f0) Hinit) as Hinv.
  unfold I in Hinv.
  rewrite app_nil_l in Hinv.
  destruct (for_each _ _ _ _) as [[e|parts] st']; [|done].
  destruct Hinv as (pre & x & post & a & s & Hsplit & (Hok & -> & Htr & Hfs) & Hbody).
  change ([] ++ pre) with pre in *.
  apply process_chunk_failure in Hbody as (evs & Hfail & Htr').
  exists (window_of chunk_ms duration_ms <$> pre), (window_of chunk_ms duration_ms x),
    (window_of chunk_ms duration_ms <$> post), evs.
  split_and!.
  - unfold wins. by rewrite Hsplit, fmap_app.
  - done.
  - by rewrite <- Hfs.
  - by rewrite Htr', Htr, <- (assoc_L (++)).
Qed.

End Loop.

(** ** The whole run *)

Lemma main_eq w st :
  main w st =
  match argv w with
  | _ :: _ :: _ =>
      match chunk_minutes_of w with
      | None =>
          (inl (SystemExit 1),
           State (trace st ++ [Print "chunk_minutes must be an integer (e.g. 20)"]) (fs st))
      | Some chunk_minutes =>
          if has_key w then split_and_transcribe w (audio_path w) chunk_minutes st
          else (inl (RuntimeError no_key_message), st)
      end
  | _ => (inl (SystemExit 1), State (trace st ++ [Print usage]) (fs st))
  end.
Proof.
  unfold main, chunk_minutes_of, audio_path, has_key.
  destruct (argv w) as [|a0 [|a1 rest]]; [reflexivity..|].
  destruct rest as [|a2 rest]; simpl.
  - unfold bind, ret. destruct (environ w !! _) as [[|]|]; reflexivity.
  - destruct (Int.parse a2); [|reflexivity].
    unfold bind, ret. destruct (environ w !! _) as [[|]|]; reflexivity.
Qed.

Lemma split_and_transcribe_eq w ap chunk_minutes st :
  let folder := Path.dirname ap in
  let basename := (Path.splitext (Path.basename ap)).1 in
  let chunk_ms := chunk_minutes * 60 * 1000 in
  let full := full_path folder basename in
  split_and_transcribe w ap chunk_minutes st =
  if bool_decide (is_Some (fs st !! ap)) then
    let t1 := trace st ++ loading_events ap in
    match from_file w ap with
    | inl e => (inl e, State t1 (fs st))
    | inr raw =>
        match Py.len raw with
        | inl e => (inl e, State t1 (fs st))
        | inr duration_ms =>
            match minutes duration_ms with
            | inl e => (inl e, State t1 (fs st))
            | inr duration_min =>
                let t2 := t1 ++ [Print (total_line duration_min)] in
                match num_chunks duration_ms chunk_ms with
                | inl e => (inl e, State t2 (fs st))
                | inr n =>
                    let t3 := t2 ++ [Print (splitting_line n chunk_minutes)] in
                    match for_each (range n)
                            (process_chunk w folder basename chunk_ms duration_ms) []
                            (State t3 (fs st)) with
                    | (inl e, st') => (inl e, st')
                    | (inr parts, st') =>
                        match open_w_error w full with
                        | Some e => (inl e, State (trace st' ++ [OpenW full]) (fs st'))
                        | None =>
                            (inr tt,
                             State (trace st' ++ OpenW full :: final_events full)
                                   (<[full := Text (str_join (nl +:+ nl) parts)]> (fs st')))
                        end
                    end
                end
            end
        end
    end
  else
    (inl (FileNotFoundError ("Audio file not found: " +:+ ap)),
     State (trace st ++ [PathExists ap]) (fs st)).
Proof.
  intros folder basename chunk_ms full. subst folder basename chunk_ms full.
  destruct st as [tr files].
  unfold split_and_transcribe, loading_events, total_line, splitting_line,
    final_events, full_path.
  cbv beta iota zeta delta [bind print log path_exists load_audio write_text store
    lift ret raise trace fs].
  destruct (bool_decide (is_Some (files !! ap))); [|reflexivity].
  destruct (from_file w ap) as [e|raw]; cbv beta iota.
  { by rewrite <- !(assoc_L (++)). }
  destruct (Py.len raw) as [e|duration_ms]; cbv beta iota.
  { by rewrite <- !(assoc_L (++)). }
  destruct (minutes duration_ms) as [e|duration_min]; cbv beta iota.
  { by rewrite <- !(assoc_L (++)). }
  destruct (num_chunks duration_ms _) as [e|n]; cbv beta iota.
  { by rewrite <- !(assoc_L (++)). }
  rewrite <- !(assoc_L (++)). simpl app.
  destruct (for_each _ _ _ _) as [[e|parts] [tr' files']]; [reflexivity|].
  destruct (open_w_error w _) as [e|]; cbv beta iota;
    by rewrite <- ?(assoc_L (++)).
Qed.

(** ** The chunk plan *)

Section Planner.

Lemma lookup_windows c d n (i : nat) win :
  (window_of c d <$> range n) !! i = Some win →
  win = window_of c d (Z.of_nat i) ∧ 0 ≤ Z.of_nat i < n.
Proof.
  rewrite list_lookup_fmap. destruct (range n !! i) as [x|] eqn:Hx; [|done].
  apply lookup_range_Some in Hx as [-> Hi]. intros [= <-]. split; [done|lia].
Qed.

Lemma elem_of_windows c d n win :
  win ∈ window_of c d <$> range n →
  ∃ i, win = window_of c d i ∧ 0 ≤ i < n.
Proof.
  intros (i & Hi)%list_elem_of_lookup. apply lookup_windows in Hi as [-> ?]. eauto.
Qed.

Lemma windows_lookup c d n i :
  0 ≤ i < n → (window_of c d <$> range n) !! Z.to_nat i = Some (window_of c d i).
Proof.
  intros Hi. rewrite list_lookup_fmap, lookup_range by lia. simpl.
  by rewrite Z2Nat.id by lia.
Qed.

(** When the loop runs exactly [ceil (d / c)] times, its windows split
    [[0, d)]. *)
Lemma windows_partition c d k :
  0 < c → 0 ≤ d → 0 ≤ k → (k - 1) * c < d ≤ k * c →
  let ws := window_of c d <$> range k in
  Z.of_nat (length ws) = k ∧
  (∀ win, ws !! 0%nat = Some win → start_ms win = 0) ∧
  (∀ (i : nat) win win',
     ws !! i = Some win → ws !! S i = Some win' → end_ms win = start_ms win') ∧
  (∀ win, last ws = Some win → end_ms win = d) ∧
  (∀ win, win ∈ ws → start_ms win < end_ms win) ∧
  (∀ (i j : nat) wi wj t,
     ws !! i = Some wi → ws !! j = Some wj →
     start_ms wi ≤ t < end_ms wi → start_ms wj ≤ t < end_ms wj → i = j) ∧
  (∀ t, 0 ≤ t < d ↔ ∃ win, win ∈ ws ∧ start_ms win ≤ t < end_ms win).
Proof.
  intros Hc Hd Hk Hkc ws.
  assert (Z.of_nat (length ws) = k) as Hlen.
  { unfold ws. rewrite length_fmap, length_range. lia. }
  split_and!.
  - done.
  - intros win [-> _]%lookup_windows. simpl. lia.
  - intros i win win' [-> ?]%lookup_windows [-> ?]%lookup_windows. simpl. nia.
  - intros win. rewrite last_lookup. intros [-> ?]%lookup_windows. simpl.
    assert (Z.of_nat (Init.Nat.pred (length ws)) = k - 1) by lia. nia.
  - intros win (i & -> & Hi)%elem_of_windows. simpl. nia.
  - intros i j wi wj t [-> ?]%lookup_windows [-> ?]%lookup_windows. simpl.
    intros ??. nia.
  - intros t. split.
    + intros Ht. exists (window_of c d (t / c)).
      pose proof (Z.div_mod t c ltac:(lia)). pose proof (Z.mod_pos_bound t c Hc).
      assert (0 ≤ t / c < k) by nia.
      split; [|simpl; nia].
      apply list_elem_of_lookup. exists (Z.to_nat (t / c)). by apply windows_lookup.
    + intros (win & (i & -> & Hi)%elem_of_windows & Ht). simpl in Ht. nia.
Qed.

Lemma plan_windows d cm n :
  num_chunks d (cm * 60 * 1000) = inr n →
  plan d cm = inr (window_of (cm * 60 * 1000) d <$> range n).
Proof. intros Hn. unfold plan. by rewrite Hn. Qed.

Lemma plan_length d cm n ws :
  num_chunks d (cm * 60 * 1000) = inr n →
  plan d cm = inr ws → length ws = Z.to_nat n.
Proof.
  intros Hn. rewrite (plan_windows _ _ _ Hn). intros [= <-].
  by rewrite length_fmap, length_range.
Qed.

(** C1, as amended: for every duration from 0 up to (not including) 2^53 ms
    and every chunk length of at least one minute (with chunk_minutes*60000
    below 2^1075), the planner produces the windows
    [i*chunk_ms, min((i+1)*chunk_ms, duration_ms)); they are contiguous,
    non-overlapping, cover [0, duration_ms) exactly, and their number is the
    ceiling of duration_ms / (chunk_minutes*60000), which is 0 for an empty
    audio. *)
Theorem plan_partitions_below_2_53 (duration_ms chunk_minutes : Z) :
  0 ≤ duration_ms < 2 ^ 53 →
  1 ≤ chunk_minutes →
  chunk_minutes * 60000 < 2 ^ 1075 →
  planner_claim duration_ms chunk_minutes.
Proof.
  intros Hd Hcm Hbig.
  set (c := chunk_minutes * 60000).
  assert (chunk_minutes * 60 * 1000 = c) as Hc by (unfold c; lia).
  assert (0 < c) as Hcpos by (unfold c; lia).
  pose proof (num_chunks_exact duration_ms c Hd ltac:(lia)) as Hn.
  pose proof (ceil_div_spec duration_ms c Hcpos) as Hk.
  set (k := ceil_div duration_ms c) in *.
  assert (0 ≤ k) as Hk0 by nia.
  exists (window_of c duration_ms <$> range k). split.
  { rewrite <- Hc. apply plan_windows. by rewrite Hc. }
  destruct (windows_partition c duration_ms k Hcpos ltac:(lia) Hk0 Hk)
    as (Hlen & Hfirst & Hcont & Hlast & Hne & Hdisj & Hcover).
  split; try done.
  - intros ->. assert (k = 0) as -> by nia. done.
  - intros i win [-> _]%lookup_windows. done.
Qed.

Lemma plan_partitions_witness : planner_claim 3600000 20.
Proof.
  apply (plan_partitions_below_2_53 3600000 20).
  - split; [lia|]. by vm_compute.
  - lia.
  - by vm_compute.
Defined.

(** C1 as stated fails: an audio of 2^38 minutes and one millisecond is
    planned in 2^38 one-minute chunks, and its last millisecond is in none. *)
Lemma plan_misses_last_ms :
  0 ≤ 16492674416640001 ∧ 1 ≤ 1 ∧ ¬ planner_claim 16492674416640001 1.
Proof.
  split; [lia|]. split; [lia|]. intros (ws & Hplan & Hspec).
  assert (num_chunks 16492674416640001 (1 * 60 * 1000) = inr 274877906944) as Hn
    by (by vm_compute).
  pose proof (ps_count _ _ _ Hspec) as Hcount.
  rewrite (plan_length _ _ _ _ Hn Hplan), Z2Nat.id in Hcount by lia.
  clear -Hcount. vm_compute in Hcount. discriminate Hcount.
Qed.

(** The lengths of the windows while the float count does not exceed the
    ceiling: for every chunk length of at least one minute and every
    duration from 0 up to (not including) 2^53 chunk lengths, the planner
    returns windows that are each at most chunk_minutes*60000 ms long, and
    all but the last are exactly that long. *)
Theorem windows_length (duration_ms chunk_minutes : Z) :
  1 ≤ chunk_minutes →
  0 ≤ duration_ms < 2 ^ 53 * (chunk_minutes * 60000) →
  lengths_claim duration_ms chunk_minutes.
Proof.
  intros Hcm [Hd Hdc].
  set (c := chunk_minutes * 60000) in *.
  assert (chunk_minutes * 60 * 1000 = c) as Hc by (unfold c; lia).
  assert (60000 ≤ c) as Hcpos by (unfold c; lia).
  destruct (num_chunks_le duration_ms c Hd ltac:(lia) Hdc) as (n & Hn & Hn0 & Hnk).
  pose proof (ceil_div_spec duration_ms c ltac:(lia)) as [Hk _].
  exists (window_of c duration_ms <$> range n). split_and!.
  - rewrite <- Hc. apply plan_windows. by rewrite Hc.
  - intros win (i & -> & Hi)%elem_of_windows. simpl. lia.
  - intros i win [-> Hi]%lookup_windows. rewrite length_fmap, length_range.
    intros Hlast. simpl. nia.
Qed.

(** Every length that [len] reports is below 2^53 chunk lengths. *)
Lemma len_below_2_53_chunks (duration_ms chunk_minutes : Z) :
  1 ≤ chunk_minutes → duration_ms ≤ Py.maxsize →
  duration_ms < 2 ^ 53 * (chunk_minutes * 60000).
Proof.
  intros Hcm Hmax.
  assert (Py.maxsize < 2 ^ 53 * 60000) by (by vm_compute).
  assert (2 ^ 53 * 60000 ≤ 2 ^ 53 * (chunk_minutes * 60000))
    by (apply Z.mul_le_mono_nonneg_l; lia).
  lia.
Qed.

(** The bound matters only beyond the lengths that [len] reports, where no
    run gets: for (2^54 + 2) minutes and one millisecond in one-minute chunks
    the float quotient rounds up to 2^54 + 4 chunks, and the window with
    index 2^54 + 3, which is not the last, is 1 ms long. *)
Lemma window_before_last_is_short :
  0 ≤ 1080863910568919160001 ∧ 1 ≤ 1 ∧
  ¬ lengths_claim 1080863910568919160001 1.
Proof.
  split; [lia|]. split; [lia|]. intros (ws & Hplan & _ & Hfull).
  assert (num_chunks 1080863910568919160001 (1 * 60 * 1000)
          = inr 18014398509481988) as Hn by (by vm_compute).
  pose proof (plan_length _ _ _ _ Hn Hplan) as Hlen.
  rewrite (plan_windows _ _ _ Hn) in Hplan.
  assert (ws = window_of (1 * 60 * 1000) 1080863910568919160001
                 <$> range 18014398509481988) as -> by congruence.
  pose proof (windows_lookup (1 * 60 * 1000) 1080863910568919160001
                18014398509481988 18014398509481986 ltac:(lia)) as Hwin.
  specialize (Hfull _ _ Hwin). rewrite Hlen in Hfull.
  assert (S (Z.to_nat 18014398509481986) < Z.to_nat 18014398509481988)%nat as Hlt by lia.
  specialize (Hfull Hlt). clear -Hfull. vm_compute in Hfull. discriminate Hfull.
Qed.

End Planner.

Section Run.

(** Minutes can be printed for every length that [len] reports. *)
Lemma minutes_returns ms : 0 ≤ ms ≤ Py.maxsize → returns (minutes ms).
Proof.
  intros [H0 Hmax]. unfold minutes.
  assert (Py.maxsize < 2 ^ 53 * 60000) by (by vm_compute).
  destruct (num_chunks_le ms 60000) as (n & Hn & _); [lia..|].
  unfold num_chunks in Hn. destruct (Py.truediv ms 60000); [done|by eexists].
Qed.

Lemma len_bounds n d : Py.len n = inr d → 0 ≤ d ≤ Py.maxsize.
Proof.
  unfold Py.len. destruct (Z.ltb_spec n 0); [done|].
  destruct (Z.ltb_spec Py.maxsize n); [done|]. intros [= <-]. lia.
Qed.

Lemma duration_bounds w d : duration_of w = inr d → 0 ≤ d ≤ Py.maxsize.
Proof.
  unfold duration_of. destruct (from_file w _); [done|]. apply len_bounds.
Qed.

Lemma num_chunks_zero_duration c : c ≠ 0 → num_chunks 0 c = inr 0.
Proof.
  intros Hc. unfold num_chunks, Py.truediv.
  destruct (Z.eqb_spec c 0); [done|]. reflexivity.
Qed.

Lemma num_chunks_zero_chunk d :
  num_chunks d 0 = inl (ZeroDivisionError "division by zero").
Proof. reflexivity. Qed.

(** The run of a world whose command line and credential are accepted and
    whose audio file is there and decodes: the steps up to the loop. *)
Lemma run_loaded w cm d :
  chunk_minutes_of w = Some cm →
  has_key w = true →
  is_Some (fs0 w !! audio_path w) →
  duration_of w = inr d →
  ∃ dm, minutes d = inr dm ∧
    run w =
    let t2 := loading_events (audio_path w) ++ [Print (total_line dm)] in
    match num_chunks d (cm * 60 * 1000) with
    | inl e => (inl e, State t2 (fs0 w))
    | inr n =>
        match for_each (range n)
                (process_chunk w (folder_of w) (basename_of w) (cm * 60 * 1000) d) []
                (State (t2 ++ [Print (splitting_line n cm)]) (fs0 w)) with
        | (inl e, st') => (inl e, st')
        | (inr parts, st') =>
            let full := full_path (folder_of w) (basename_of w) in
            match open_w_error w full with
            | Some e => (inl e, State (trace st' ++ [OpenW full]) (fs st'))
            | None =>
                (inr tt,
                 State (trace st' ++ OpenW full :: final_events full)
                       (<[full := Text (str_join (nl +:+ nl) parts)]> (fs st')))
            end
        end
    end.
Proof.
  intros Hcm Hkey Hfile Hd.
  destruct (minutes_returns d (duration_bounds _ _ Hd)) as [dm Hdm].
  exists dm. split; [done|].
  unfold run. rewrite main_eq, Hcm, Hkey.
  assert (∃ a0 a1 rest, argv w = a0 :: a1 :: rest) as (a0 & a1 & rest & Hargv).
  { unfold chunk_minutes_of in Hcm. destruct (argv w) as [|? [|? ?]]; [done..|eauto]. }
  rewrite Hargv, split_and_transcribe_eq. cbn [fs trace].
  rewrite bool_decide_true by done.
  unfold duration_of in Hd. destruct (from_file w (audio_path w)) as [|raw]; [done|].
  rewrite Hd, Hdm. reflexivity.
Qed.

(** A rejected command line: the usage line or the complaint about the chunk
    length, then exit status 1; nothing else happens. *)
Lemma run_rejected w :
  chunk_minutes_of w = None →
  ∃ line, run w = (inl (SystemExit 1), State [Print line] (fs0 w)).
Proof.
  intros Hcm. unfold run. rewrite main_eq, Hcm.
  destruct (argv w) as [|? [|? ?]]; eauto.
Qed.

(** An accepted command line without a credential. *)
Lemma run_no_key w :
  is_Some (chunk_minutes_of w) → has_key w = false →
  run w = (inl (RuntimeError no_key_message), State [] (fs0 w)).
Proof.
  intros [cm Hcm] Hkey. unfold run. rewrite main_eq, Hcm, Hkey.
  unfold chunk_minutes_of in Hcm. by destruct (argv w) as [|? [|? ?]].
Qed.

(** A run that ended normally went through every stage. *)
Lemma run_success w st :
  run w = (inr tt, st) →
  ∃ cm d dm n parts st',
    chunk_minutes_of w = Some cm ∧ has_key w = true ∧
    is_Some (fs0 w !! audio_path w) ∧ duration_of w = inr d ∧
    minutes d = inr dm ∧ num_chunks d (cm * 60 * 1000) = inr n ∧
    for_each (range n)
      (process_chunk w (folder_of w) (basename_of w) (cm * 60 * 1000) d) []
      (State (loading_events (audio_path w)
              ++ [Print (total_line dm)] ++ [Print (splitting_line n cm)]) (fs0 w))
    = (inr parts, st') ∧
    open_w_error w (full_path (folder_of w) (basename_of w)) = None ∧
    st = State (trace st' ++ OpenW (full_path (folder_of w) (basename_of w))
                          :: final_events (full_path (folder_of w) (basename_of w)))
               (<[full_path (folder_of w) (basename_of w)
                  := Text (str_join (nl +:+ nl) parts)]> (fs st')).
Proof.
  intros Hrun.
  destruct (chunk_minutes_of w) as [cm|] eqn:Hcm.
  2:{ destruct (run_rejected w Hcm) as [line Hrej]. congruence. }
  destruct (has_key w) eqn:Hkey.
  2:{ rewrite run_no_key in Hrun by (by rewrite ?Hcm). done. }
  destruct (decide (is_Some (fs0 w !! audio_path w))) as [Hfile|Hfile].
  2:{ revert Hrun. unfold run. rewrite main_eq, Hcm, Hkey.
      unfold chunk_minutes_of in Hcm. destruct (argv w) as [|? [|? ?]]; [done..|].
      rewrite split_and_transcribe_eq. cbn [fs trace].
      by rewrite bool_decide_false by done. }
  destruct (duration_of w) as [e|d] eqn:Hd.
  { revert Hrun. unfold run. rewrite main_eq, Hcm, Hkey.
    unfold chunk_minutes_of in Hcm. destruct (argv w) as [|? [|? ?]]; [done..|].
    rewrite split_and_transcribe_eq. cbn [fs trace].
    rewrite bool_decide_true by done. unfold duration_of in Hd.
    destruct (from_file w (audio_path w)); [done|]. by rewrite Hd. }
  destruct (run_loaded w cm d Hcm Hkey Hfile Hd) as (dm & Hdm & Heq).
  rewrite Heq in Hrun. clear Heq. cbv zeta in Hrun.
  destruct (num_chunks d (cm * 60 * 1000)) as [e|n] eqn:Hn; [done|].
  rewrite <- (assoc_L (++)) in Hrun.
  destruct (for_each _ _ _ _) as [[e|parts] st'] eqn:Hloop; [done|].
  destruct (open_w_error w _) eqn:Hw; [done|].
  injection Hrun as <-. exists cm, d, dm, n, parts, st'. split_and!; done.
Qed.

End Run.

(** C5: for every chunk length of at least one minute and every duration
    that a run can have - [duration_ms] is what [len(audio)] returned, so it
    is at least 0 and at most [sys.maxsize] - every planned window is at most
    chunk_minutes*60000 ms long, and every window except possibly the last is
    exactly chunk_minutes*60000 ms long. *)
Theorem windows_length_of_every_audio (raw duration_ms chunk_minutes : Z) :
  Py.len raw = inr duration_ms → 1 ≤ chunk_minutes →
  lengths_claim duration_ms chunk_minutes.
Proof.
  intros Hlen Hcm. pose proof (len_bounds _ _ Hlen) as [H0 Hmax].
  apply windows_length; [done|]. split; [done|]. by apply len_below_2_53_chunks.
Qed.

Lemma windows_length_witness : lengths_claim 3000000 20.
Proof.
  apply (windows_length_of_every_audio 3000000 3000000 20); [reflexivity|lia].
Defined.

Section PlannedWindows.

Import Py.

(** A chunk length below zero gives a count that is not positive. *)
Lemma num_chunks_negative_chunk d c n :
  0 ≤ d → c < 0 → num_chunks d c = inr n → n ≤ 0.
Proof.
  intros Hd Hc. unfold num_chunks, truediv.
  destruct (Z.eqb_spec c 0); [lia|].
  rewrite (Z.abs_eq d) by lia. unfold float_of_ratio.
  destruct (Z.eqb_spec d 0) as [->|Hd0].
  { simpl. intros [= <-]. done. }
  set (e := Z.max (ilog2_ratio d (Z.abs c) - 52) (-1074)).
  set (m := round_half_even (d * pow2 (- e)) (Z.abs c * pow2 e)).
  assert (0 ≤ m) as Hm.
  { apply round_half_even_nonneg.
    - pose proof (pow2_pos e). nia.
    - pose proof (pow2_pos (- e)). nia. }
  destruct (2 ^ 1024 <=? m * pow2 e); [done|].
  assert ((Z.sgn d * Z.sgn c <? 0) = true) as ->.
  { apply Z.ltb_lt. rewrite (Z.sgn_pos d), (Z.sgn_neg c) by lia. lia. }
  intros [= <-]. unfold ceil, neg. simpl.
  destruct (Z.leb_spec 0 e).
  - assert (0 ≤ 2 ^ e) by (apply Z.pow_nonneg; lia). nia.
  - rewrite Z.opp_involutive.
    assert (0 < 2 ^ (- e)) by (apply Z.pow_pos_nonneg; lia).
    pose proof (Z.div_pos m (2 ^ (- e)) Hm ltac:(done)). lia.
Qed.

(** The windows of a plan lie in [[0, duration_ms]], and their minutes can be
    printed. *)
Lemma planned_window_bounds d cm ws win :
  0 ≤ d ≤ maxsize → plan d cm = inr ws → win ∈ ws →
  0 ≤ start_ms win ≤ d ∧ 0 ≤ end_ms win ≤ d.
Proof.
  intros Hd Hplan Hin. unfold plan in Hplan.
  destruct (num_chunks d (cm * 60 * 1000)) as [|n] eqn:Hn; [done|].
  injection Hplan as <-. apply elem_of_windows in Hin as (i & -> & Hi).
  set (c := cm * 60 * 1000) in *.
  destruct (Z.lt_trichotomy c 0) as [Hc|[Hc|Hc]].
  - pose proof (num_chunks_negative_chunk d c n ltac:(lia) Hc Hn). lia.
  - rewrite Hc in Hn. by rewrite num_chunks_zero_chunk in Hn.
  - assert (d < 2 ^ 53 * c) as Hdc.
    { assert (maxsize < 2 ^ 53 * 60000) by (by vm_compute).
      assert (60000 ≤ c) by (unfold c in *; lia).
      assert (2 ^ 53 * 60000 ≤ 2 ^ 53 * c) by (apply Z.mul_le_mono_nonneg_l; lia).
      lia. }
    destruct (num_chunks_le d c ltac:(lia) Hc Hdc) as (n' & Hn' & _ & Hnk).
    assert (n' = n) as -> by congruence.
    pose proof (ceil_div_spec d c Hc) as [Hk _]. simpl. nia.
Qed.

Lemma planned_window_minutes d cm ws win :
  0 ≤ d ≤ maxsize → plan d cm = inr ws → win ∈ ws →
  returns (minutes (start_ms win)) ∧ returns (minutes (end_ms win)).
Proof.
  intros Hd Hplan Hin.
  destruct (planned_window_bounds d cm ws win Hd Hplan Hin).
  split; apply minutes_returns; lia.
Qed.

Lemma plan_index d cm ws (i : nat) win :
  plan d cm = inr ws → ws !! i = Some win → index win = Z.of_nat i + 1.
Proof.
  unfold plan. destruct (num_chunks d _); [done|]. intros [= <-].
  by intros [-> _]%lookup_windows.
Qed.

End PlannedWindows.

(** ** Start-up *)

(** C6: without the credential in the environment the run aborts and has
    then touched nothing but the console: no file was looked up, read or
    written.  The abort is the configuration error [RuntimeError] whenever
    the command line is accepted (the command line is checked first). *)
Theorem no_credential_aborts_before_io (w : world) :
  has_key w = false →
  (∃ e, (run w).1 = inl e) ∧
  Forall is_print (trace (run w).2) ∧
  fs (run w).2 = fs0 w ∧
  (is_Some (chunk_minutes_of w) →
   (run w).1 = inl (RuntimeError no_key_message) ∧ trace (run w).2 = []).
Proof.
  intros Hkey. destruct (chunk_minutes_of w) as [cm|] eqn:Hcm.
  - rewrite run_no_key by (by rewrite ?Hcm). simpl. split_and!; eauto.
  - destruct (run_rejected w Hcm) as [line ->]. simpl. split_and!; eauto.
    + apply Forall_singleton. by exists line.
    + by intros [? [=]].
Qed.

Lemma no_credential_witness :
  let w := talk ["talk.mp3"; "20"] None 3000000 echo in
  has_key w = false ∧
  (run w).1 = inl (RuntimeError no_key_message) ∧ trace (run w).2 = [] ∧
  fs (run w).2 = fs0 w.
Proof.
  intros w. split; [reflexivity|].
  destruct (no_credential_aborts_before_io w) as (_ & _ & Hfs & Hcfg); [reflexivity|].
  destruct Hcfg as [-> ->]; [by eexists|]. done.
Defined.

(** ** Chunk lengths that are not positive *)

(** C9: with a chunk length argument that parses to 0 the division in the
    chunk count is reached with [chunk_ms = 0]: the audio has been loaded by
    then, the run ends in [ZeroDivisionError], and it is not the usage exit;
    no file was written. *)
Theorem zero_chunk_minutes_divides_by_zero (w : world) (duration_ms : Z) :
  chunk_minutes_of w = Some 0 →
  has_key w = true →
  is_Some (fs0 w !! audio_path w) →
  duration_of w = inr duration_ms →
  (run w).1 = inl (ZeroDivisionError "division by zero") ∧
  (run w).1 ≠ inl (SystemExit 1) ∧
  (∃ duration_min,
     trace (run w).2
     = loading_events (audio_path w) ++ [Print (total_line duration_min)]) ∧
  FromFile (audio_path w) ∈ trace (run w).2 ∧
  fs (run w).2 = fs0 w.
Proof.
  intros Hcm Hkey Hfile Hd.
  destruct (run_loaded w 0 duration_ms Hcm Hkey Hfile Hd) as (dm & _ & ->).
  change (0 * 60 * 1000) with 0. rewrite num_chunks_zero_chunk. simpl.
  split_and!; [done|done|by exists dm| |done].
  rewrite !elem_of_cons. auto 10.
Qed.

Lemma zero_chunk_minutes_witness :
  let w := talk ["talk.mp3"; "0"] (Some "sk-test") 3000000 echo in
  (run w).1 = inl (ZeroDivisionError "division by zero") ∧
  FromFile "/home/u/talk.mp3" ∈ trace (run w).2.
Proof.
  intros w.
  destruct (zero_chunk_minutes_divides_by_zero w 3000000)
    as (Hr & _ & _ & Hload & _);
    [reflexivity|reflexivity|by exists Opaque|reflexivity|].
  split; [exact Hr|exact Hload].
Defined.

(** C4, at inputs that the code takes: the arguments "0" and "-5" are not
    rejected.  With "0" the audio is loaded and the run ends in
    [ZeroDivisionError]; with "-5" the audio is loaded, no chunk is made, an
    empty merged transcript is written and the run ends normally. *)
Theorem nonpositive_chunk_minutes_not_rejected :
  run (talk ["talk.mp3"; "0"] (Some "sk-test") 3000000 echo)
  = (inl (ZeroDivisionError "division by zero"),
     State (loading_events "/home/u/talk.mp3"
            ++ [Print "Total audio length: 50.0 minutes"])
           {[ "/home/u/talk.mp3" := Opaque ]}) ∧
  run (talk ["talk.mp3"; "-5"] (Some "sk-test") 3000000 echo)
  = (inr tt,
     State (loading_events "/home/u/talk.mp3"
            ++ [Print "Total audio length: 50.0 minutes";
                Print ("Splitting into -10 chunk(s) of ~-5 minutes each." +:+ nl);
                OpenW "/home/u/talk_full_transcript.txt";
                Print "Done.";
                Print "Full transcript saved to: /home/u/talk_full_transcript.txt"])
           (<[ "/home/u/talk_full_transcript.txt" := Text "" ]>
              {[ "/home/u/talk.mp3" := Opaque ]})).
Proof. split; by vm_compute. Qed.

(** The part of C4 that the code does: an argument that is not an integer is
    reported and ends the run with status 1 before anything else happens. *)
Lemma non_numeric_chunk_minutes_rejected (w : world) a0 a1 a2 rest :
  argv w = a0 :: a1 :: a2 :: rest →
  Int.parse a2 = None →
  run w = (inl (SystemExit 1),
           State [Print "chunk_minutes must be an integer (e.g. 20)"] (fs0 w)).
Proof.
  intros Hargv Hparse. unfold run. rewrite main_eq.
  unfold chunk_minutes_of. by rewrite Hargv, Hparse.
Qed.

(** ** An empty audio *)

(** C10: with an audio of length 0 (and a chunk length other than 0) no chunk
    is made, and the merged transcript is still written, empty, before the
    run ends normally; and whenever a run ends normally, the merged
    transcript has been written. *)
Theorem empty_audio_writes_empty_transcript (w : world) :
  ((run w).1 = inr tt →
   ∃ text, fs (run w).2 !! full_path (folder_of w) (basename_of w) = Some (Text text)) ∧
  (∀ chunk_minutes,
     chunk_minutes_of w = Some chunk_minutes →
     chunk_minutes ≠ 0 →
     has_key w = true →
     is_Some (fs0 w !! audio_path w) →
     duration_of w = inr 0 →
     open_w_error w (full_path (folder_of w) (basename_of w)) = None →
     (run w).1 = inr tt ∧
     fs (run w).2 = <[full_path (folder_of w) (basename_of w) := Text ""]> (fs0 w) ∧
     (∀ p s e, Export p s e ∉ trace (run w).2)).
Proof.
  split.
  - intros Hok. destruct (run w) as [r st] eqn:Hrun. simpl in Hok. subst r.
    apply run_success in Hrun as (? & ? & ? & ? & parts & st' & _ & _ & _ & _ & _ & _ & _ & _ & ->).
    simpl. eexists. apply lookup_insert_eq.
  - intros cm Hcm Hne Hkey Hfile Hd Hw.
    destruct (run_loaded w cm 0 Hcm Hkey Hfile Hd) as (dm & _ & ->).
    rewrite num_chunks_zero_duration by lia. simpl. rewrite Hw. simpl.
    split_and!; [done|done|].
    intros p s e. unfold final_events. rewrite !elem_of_cons, elem_of_nil.
    intros Hin. decompose [or] Hin; done.
Qed.

Lemma empty_audio_witness :
  let w := talk ["talk.mp3"] (Some "sk-test") 0 echo in
  (run w).1 = inr tt ∧
  fs (run w).2 !! "/home/u/talk_full_transcript.txt" = Some (Text "").
Proof.
  intros w.
  destruct (empty_audio_writes_empty_transcript w) as [_ H].
  destruct (H 20) as (Hr & Hfs & _);
    [reflexivity|lia|reflexivity|by exists Opaque|reflexivity|reflexivity|].
  split; [exact Hr|]. rewrite Hfs. by vm_compute.
Defined.

(** ** Output paths *)

Section OutputPaths.

Lemma basename_of_free w : free_of "/" (basename_of w) = true.
Proof. unfold basename_of. apply splitext_root_free, basename_free. Qed.

Lemma chunk_filename_free base n :
  free_of "/" base = true → free_of "/" (chunk_filename base n) = true.
Proof.
  intros Hb. unfold chunk_filename. rewrite !free_of_app, Hb, str_free. done.
Qed.

Lemma part_txt_filename_free base n :
  free_of "/" base = true → free_of "/" (part_txt_filename base n) = true.
Proof.
  intros Hb. unfold part_txt_filename. rewrite !free_of_app, Hb, str_free. done.
Qed.

Lemma full_filename_free base :
  free_of "/" base = true → free_of "/" (full_filename base) = true.
Proof. intros Hb. unfold full_filename. rewrite !free_of_app, Hb. done. Qed.

(** Two output names that differ after the basename are different files of
    the folder. *)
Lemma join_suffix_inj folder base s1 s2 :
  free_of "/" (base +:+ s1) = true → free_of "/" (base +:+ s2) = true →
  Path.join folder (base +:+ s1) = Path.join folder (base +:+ s2) → s1 = s2.
Proof. intros H1 H2 Heq%join_inj; [|done..]. by apply String.app_inj in Heq. Qed.

(** The seven outputs of a three-chunk run are seven different files. *)
Lemma outputs_of_three_distinct folder base :
  free_of "/" base = true →
  NoDup [chunk_path folder base 1; part_txt_path folder base 1;
         chunk_path folder base 2; part_txt_path folder base 2;
         chunk_path folder base 3; part_txt_path folder base 3;
         full_path folder base].
Proof.
  intros Hb.
  assert (∀ s1 s2, free_of "/" s1 = true → free_of "/" s2 = true → s1 ≠ s2 →
            Path.join folder (base +:+ s1) ≠ Path.join folder (base +:+ s2)) as Hne.
  { intros s1 s2 H1 H2 Hs Heq. apply Hs. apply (join_suffix_inj folder base).
    - by rewrite free_of_app, Hb.
    - by rewrite free_of_app, Hb.
    - done. }
  unfold chunk_path, part_txt_path, full_path.
  repeat (apply NoDup_cons; split;
          [rewrite ?not_elem_of_cons; split_and?; try apply not_elem_of_nil;
           apply Hne; done|]).
  apply NoDup_nil_2.
Qed.

End OutputPaths.

(** ** A transcription failure on window 2 of 3 *)

Section Window2.

Context (w : world) (chunk_minutes duration_ms : Z) (win1 win2 win3 : window).

Let folder := folder_of w.
Let base := basename_of w.

(** C3, as amended: when the transcription call fails on window 2 of a
    3-window plan, the run aborts with that failure; the audio file and the
    transcript of window 1 and the audio file of window 2 (exported before
    the call) are on disk; window 2 has no transcript, window 3 has no file,
    and the merged transcript is not written. *)
Theorem failure_on_window_2_keeps_its_audio (text1 : string) (e : exn) :
  chunk_minutes_of w = Some chunk_minutes →
  has_key w = true →
  is_Some (fs0 w !! audio_path w) →
  duration_of w = inr duration_ms →
  plan duration_ms chunk_minutes = inr [win1; win2; win3] →
  export_error w (chunk_path folder base 1) = None →
  chunk_text w folder base win1 = inr text1 →
  open_w_error w (part_txt_path folder base 1) = None →
  export_error w (chunk_path folder base 2) = None →
  chunk_text w folder base win2 = inl e →
  fs0 w !! part_txt_path folder base 2 = None →
  fs0 w !! chunk_path folder base 3 = None →
  fs0 w !! part_txt_path folder base 3 = None →
  fs0 w !! full_path folder base = None →
  let files := fs (run w).2 in
  (run w).1 = inl e ∧
  files !! chunk_path folder base 1 = Some (Mp3 (start_ms win1) (end_ms win1)) ∧
  files !! part_txt_path folder base 1 = Some (Text text1) ∧
  files !! chunk_path folder base 2 = Some (Mp3 (start_ms win2) (end_ms win2)) ∧
  files !! part_txt_path folder base 2 = None ∧
  files !! chunk_path folder base 3 = None ∧
  files !! part_txt_path folder base 3 = None ∧
  files !! full_path folder base = None.
Proof.
  intros Hcm Hkey Hfile Hd Hplan Hexp1 Htext1 Hw1 Hexp2 Htext2 Hno_t2 Hno_c3
    Hno_t3 Hno_full files.
  set (c := chunk_minutes * 60 * 1000) in *.
  pose proof (duration_bounds _ _ Hd) as Hdb.
  (* minutes are printable for the bounds of windows 1 and 2 *)
  destruct (planned_window_minutes _ _ _ win1 Hdb Hplan) as [[sm1 Hsm1] [em1 Hem1]].
  { apply elem_of_cons. by left. }
  destruct (planned_window_minutes _ _ _ win2 Hdb Hplan) as [[sm2 Hsm2] [em2 Hem2]].
  { apply elem_of_cons. right. apply elem_of_cons. by left. }
  (* the plan has three windows: the loop runs over 0, 1, 2 *)
  unfold plan in Hplan. fold c in Hplan.
  destruct (num_chunks duration_ms c) as [|n] eqn:Hn; [done|].
  injection Hplan as Hplan.
  assert (n = 3) as ->.
  { apply (f_equal length) in Hplan. rewrite length_fmap, length_range in Hplan.
    simpl in Hplan. lia. }
  change (range 3) with [0; 1; 2] in Hplan. injection Hplan as <- <- <-.
  (* the run *)
  destruct (run_loaded w chunk_minutes duration_ms Hcm Hkey Hfile Hd) as (dm & _ & Hrun).
  fold c folder base in Hrun. rewrite Hn in Hrun. cbv zeta in Hrun.
  change (range 3) with [0; 1; 2] in Hrun. cbn [for_each] in Hrun.
  unfold bind at 1 in Hrun. rewrite process_chunk_eq in Hrun.
  cbv zeta in Hrun. rewrite Hsm1, Hem1 in Hrun.
  change (index (window_of c duration_ms 0)) with 1 in Hrun.
  rewrite Hexp1 in Hrun. unfold chunk_text in Htext1.
  change (index (window_of c duration_ms 0)) with 1 in Htext1.
  rewrite Htext1, Hw1 in Hrun.
  unfold bind at 1 in Hrun. rewrite process_chunk_eq in Hrun.
  cbv zeta in Hrun. rewrite Hsm2, Hem2 in Hrun.
  change (index (window_of c duration_ms 1)) with 2 in Hrun.
  rewrite Hexp2 in Hrun. unfold chunk_text in Htext2.
  change (index (window_of c duration_ms 1)) with 2 in Htext2.
  cbn [fs trace] in Hrun. rewrite Htext2 in Hrun.
  unfold files. rewrite Hrun. cbn [fst snd fs].
  (* the files *)
  pose proof (outputs_of_three_distinct folder base (basename_of_free w)) as Hnd.
  rewrite !NoDup_cons, !not_elem_of_cons in Hnd.
  destruct Hnd as ((?&?&?&?&?&?&_) & (?&?&?&?&?&_) & (?&?&?&?&_) & _).
  split_and!.
  - done.
  - by rewrite lookup_insert_ne, lookup_insert_ne, lookup_insert_eq by done.
  - by rewrite lookup_insert_ne, lookup_insert_eq by done.
  - by rewrite lookup_insert_eq.
  - by rewrite !lookup_insert_ne by done.
  - by rewrite !lookup_insert_ne by done.
  - by rewrite !lookup_insert_ne by done.
  - by rewrite !lookup_insert_ne by done.
Qed.

End Window2.

Lemma failure_on_window_2_witness :
  let files := fs (run talk_failing_on_2).2 in
  (run talk_failing_on_2).1 = inl (ExternalError "rate limit exceeded") ∧
  files !! "/home/u/talk_part_1.mp3" = Some (Mp3 0 1200000) ∧
  files !! "/home/u/talk_part_1_transcript.txt"
    = Some (Text "text of /home/u/talk_part_1.mp3") ∧
  files !! "/home/u/talk_part_2.mp3" = Some (Mp3 1200000 2400000) ∧
  files !! "/home/u/talk_part_2_transcript.txt" = None ∧
  files !! "/home/u/talk_part_3.mp3" = None ∧
  files !! "/home/u/talk_part_3_transcript.txt" = None ∧
  files !! "/home/u/talk_full_transcript.txt" = None.
Proof.
  apply (failure_on_window_2_keeps_its_audio talk_failing_on_2 20 3000000
           (Window 1 0 1200000) (Window 2 1200000 2400000) (Window 3 2400000 3000000)
           "text of /home/u/talk_part_1.mp3" (ExternalError "rate limit exceeded"));
    first [by exists Opaque | by vm_compute].
Defined.

(** C3 as stated fails: in that run the audio file of window 2 is on disk
    when the transcription of window 2 aborts the run. *)
Lemma window_2_audio_is_on_disk :
  plan 3000000 20
  = inr [Window 1 0 1200000; Window 2 1200000 2400000; Window 3 2400000 3000000] ∧
  (run talk_failing_on_2).1 = inl (ExternalError "rate limit exceeded") ∧
  fs (run talk_failing_on_2).2 !! "/home/u/talk_part_2.mp3" = Some (Mp3 1200000 2400000) ∧
  ¬ only_window_1_on_disk talk_failing_on_2.
Proof.
  split_and!; [by vm_compute..|].
  intros (_ & _ & Hnone & _). vm_compute in Hnone. discriminate.
Qed.

(** ** The merged transcript *)

Section Merged.

Lemma entry_of_stated w win :
  entry_of w (folder_of w) (basename_of w) win = "### " +:+ stated_block w win.
Proof. reflexivity. Qed.

(** A run that ended normally: its windows, and the state it ended in. *)
Lemma run_success_state w :
  (run w).1 = inr tt →
  let folder := folder_of w in
  let base := basename_of w in
  ∃ cm d dm n,
    chunk_minutes_of w = Some cm ∧ duration_of w = inr d ∧
    num_chunks d (cm * 60 * 1000) = inr n ∧
    planned w = window_of (cm * 60 * 1000) d <$> range n ∧
    Forall (chunk_ok w folder base) (planned w) ∧
    open_w_error w (full_path folder base) = None ∧
    trace (run w).2
    = (loading_events (audio_path w)
       ++ [Print (total_line dm)] ++ [Print (splitting_line n cm)])
      ++ concat (chunk_events folder base <$> planned w)
      ++ OpenW (full_path folder base) :: final_events (full_path folder base) ∧
    fs (run w).2
    = <[full_path folder base
        := Text (str_join (nl +:+ nl) (entry_of w folder base <$> planned w))]>
        (foldl (add_files w folder base) (fs0 w) (planned w)).
Proof.
  intros Hok folder base. destruct (run w) as [r st] eqn:Hrun. simpl in Hok. subst r.
  apply run_success in Hrun
    as (cm & d & dm & n & parts & st' & Hcm & _ & _ & Hd & _ & Hn & Hloop & Hw & ->).
  exists cm, d, dm, n.
  assert (planned w = window_of (cm * 60 * 1000) d <$> range n) as Hplanned.
  { unfold planned. by rewrite Hcm, Hd, (plan_windows _ _ _ Hn). }
  pose proof (loop_outcome w folder base (cm * 60 * 1000) d n
                (loading_events (audio_path w)
                 ++ [Print (total_line dm)] ++ [Print (splitting_line n cm)])
                (fs0 w)) as Hout.
  cbv zeta in Hout. fold folder base in Hloop. rewrite Hloop in Hout.
  destruct Hout as (Hall & -> & Htr & Hfs). rewrite <- Hplanned in *.
  split_and!; try done.
  - simpl. rewrite Htr. by rewrite <- !(assoc_L (++)).
  - simpl. by rewrite Hfs.
Qed.

(** C2, as amended: after a run that ended normally the merged transcript
    file holds the blocks of the planned windows, in index order, with exactly
    one blank line between two blocks; the block of a window is the header
    line [### Part <index> (<start_min>-<end_min> min)], with the minutes
    to one decimal place and an en dash between them, then a blank line, then
    the text that the transcription returned, as it is. *)
Theorem merged_transcript_content (w : world) :
  (run w).1 = inr tt →
  ∃ chunk_minutes duration_ms blocks,
    chunk_minutes_of w = Some chunk_minutes ∧
    duration_of w = inr duration_ms ∧
    plan duration_ms chunk_minutes = inr (planned w) ∧
    (∀ (i : nat) win, planned w !! i = Some win → index win = Z.of_nat i + 1) ∧
    Forall2 (is_block w) (planned w) blocks ∧
    fs (run w).2 !! full_path (folder_of w) (basename_of w)
    = Some (Text (str_join (nl +:+ nl) blocks)).
Proof.
  intros Hok.
  destruct (run_success_state w Hok)
    as (cm & d & dm & n & Hcm & Hd & Hn & Hplanned & Hall & _ & _ & Hfs).
  exists cm, d, (entry_of w (folder_of w) (basename_of w) <$> planned w).
  split_and!; [done|done| | | |].
  - rewrite Hplanned. by apply plan_windows.
  - intros i win. rewrite Hplanned. by intros [-> _]%lookup_windows.
  - apply Forall2_fmap_r, Forall_Forall2_diag.
    eapply Forall_impl; [exact Hall|].
    intros win ([sm Hsm] & [em Hem] & _ & [text Htext] & _).
    exists sm, em, text. split_and!; [done..|].
    unfold entry_of, part_entry, start_min, end_min. by rewrite Hsm, Hem, Htext.
  - rewrite Hfs. apply lookup_insert_eq.
Qed.

End Merged.

Lemma merged_transcript_witness :
  (run talk_25_min).1 = inr tt ∧
  ∃ chunk_minutes duration_ms blocks,
    chunk_minutes_of talk_25_min = Some chunk_minutes ∧
    duration_of talk_25_min = inr duration_ms ∧
    plan duration_ms chunk_minutes = inr (planned talk_25_min) ∧
    (∀ (i : nat) win,
       planned talk_25_min !! i = Some win → index win = Z.of_nat i + 1) ∧
    Forall2 (is_block talk_25_min) (planned talk_25_min) blocks ∧
    fs (run talk_25_min).2
      !! full_path (folder_of talk_25_min) (basename_of talk_25_min)
    = Some (Text (str_join (nl +:+ nl) blocks)).
Proof.
  assert ((run talk_25_min).1 = inr tt) as Hok by (by vm_compute).
  split; [exact Hok|]. exact (merged_transcript_content talk_25_min Hok).
Defined.

(** C2 as stated fails: the header lines of the merged file start with
    [### ], which the stated form does not have. *)
Lemma merged_headers_have_a_prefix :
  (run talk_25_min).1 = inr tt ∧
  planned talk_25_min = [Window 1 0 1200000; Window 2 1200000 1500000] ∧
  fs (run talk_25_min).2 !! "/home/u/talk_full_transcript.txt"
  ≠ Some (Text (stated_merged talk_25_min (planned talk_25_min))).
Proof. split_and!; by vm_compute. Qed.

(** ** The output files *)

Section Outputs.

Lemma written_app tr1 tr2 : written (tr1 ++ tr2) = written tr1 ++ written tr2.
Proof. apply omap_app. Qed.

Lemma written_chunks folder base ws :
  written (concat (chunk_events folder base <$> ws))
  = concat ((λ win, [chunk_path folder base (index win);
                     part_txt_path folder base (index win)]) <$> ws).
Proof.
  induction ws as [|win ws IH]; [done|].
  rewrite !fmap_cons, !concat_cons, written_app, IH. done.
Qed.

(** What a chunk that raised had written, or tried to write, by then. *)
Lemma written_failure w folder base win e evs f f' :
  chunk_failure w folder base win e evs f f' →
  written evs `prefix_of`
    [chunk_path folder base (index win); part_txt_path folder base (index win)].
Proof.
  intros [ ]; simpl.
  - apply prefix_nil.
  - by exists [part_txt_path folder base (index win)].
  - by exists [part_txt_path folder base (index win)].
  - done.
Qed.

(** A run that stops before the audio is loaded writes nothing. *)
Lemma run_early w :
  (∃ cm d, chunk_minutes_of w = Some cm ∧ has_key w = true ∧
           is_Some (fs0 w !! audio_path w) ∧ duration_of w = inr d) ∨
  (∃ e, (run w).1 = inl e) ∧ written (trace (run w).2) = [] ∧ fs (run w).2 = fs0 w.
Proof.
  destruct (chunk_minutes_of w) as [cm|] eqn:Hcm.
  2:{ right. destruct (run_rejected w Hcm) as [line ->]. simpl. eauto. }
  destruct (has_key w) eqn:Hkey.
  2:{ right. rewrite run_no_key by (by rewrite ?Hcm). simpl. eauto. }
  assert (run w = split_and_transcribe w (audio_path w) cm (State [] (fs0 w))) as Hrun.
  { unfold run. rewrite main_eq, Hcm, Hkey. unfold chunk_minutes_of in Hcm.
    by destruct (argv w) as [|? [|? ?]]. }
  rewrite split_and_transcribe_eq in Hrun. cbn [fs trace] in Hrun.
  destruct (decide (is_Some (fs0 w !! audio_path w))) as [Hfile|Hfile].
  2:{ right. rewrite bool_decide_false in Hrun by done. rewrite Hrun. simpl. eauto. }
  destruct (duration_of w) as [e|d] eqn:Hd; [|left; eauto 10].
  right. rewrite bool_decide_true in Hrun by done. unfold duration_of in Hd.
  destruct (from_file w (audio_path w)) as [|raw].
  - rewrite Hrun. simpl. eauto.
  - rewrite Hd in Hrun. rewrite Hrun. simpl. eauto.
Qed.

Lemma stated_outputs_eq folder base ws :
  stated_outputs folder base ws
  = concat ((λ win, [chunk_path folder base (index win);
                     part_txt_path folder base (index win)]) <$> ws)
    ++ [full_path folder base].
Proof. reflexivity. Qed.

(** The files that a run writes, in order, are the stated ones: all of them
    when the run ends normally, the first so many when it aborts. *)
Lemma run_writes w :
  written (trace (run w).2)
    `prefix_of` stated_outputs (folder_of w) (basename_of w) (planned w) ∧
  ((run w).1 = inr tt →
   written (trace (run w).2) = stated_outputs (folder_of w) (basename_of w) (planned w)).
Proof.
  destruct (run_early w) as [(cm & d & Hcm & Hkey & Hfile & Hd)|(He & -> & _)].
  2:{ split; [apply prefix_nil|]. destruct He as [e ->]. done. }
  destruct (run_loaded w cm d Hcm Hkey Hfile Hd) as (dm & _ & Hrun).
  cbv zeta in Hrun.
  destruct (num_chunks d (cm * 60 * 1000)) as [e|n] eqn:Hn.
  { rewrite Hrun. simpl. split; [apply prefix_nil|done]. }
  assert (planned w = window_of (cm * 60 * 1000) d <$> range n) as Hplanned.
  { unfold planned. by rewrite Hcm, Hd, (plan_windows _ _ _ Hn). }
  rewrite stated_outputs_eq, Hplanned.
  set (t3 := (loading_events (audio_path w) ++ [Print (total_line dm)])
             ++ [Print (splitting_line n cm)]) in *.
  assert (written t3 = []) as Ht3 by reflexivity.
  pose proof (loop_outcome w (folder_of w) (basename_of w) (cm * 60 * 1000) d n t3
                (fs0 w)) as Hout.
  cbv zeta in Hout.
  destruct (for_each _ _ _ _) as [[e|parts] st'].
  - destruct Hout as (pre & win & post & evs & -> & _ & Hfail & Htr).
    rewrite Hrun. cbn [fst snd]. split; [|done].
    rewrite Htr, !written_app, Ht3, written_chunks, app_nil_l.
    rewrite fmap_app, concat_app, fmap_cons, concat_cons.
    rewrite <- !(assoc_L (++)). apply prefix_app.
    apply written_failure in Hfail as [rest ->].
    rewrite <- !(assoc_L (++)). by eexists.
  - destruct Hout as (_ & _ & Htr & _).
    assert (written (trace st')
            = concat ((λ win, [chunk_path (folder_of w) (basename_of w) (index win);
                               part_txt_path (folder_of w) (basename_of w) (index win)])
                      <$> (window_of (cm * 60 * 1000) d <$> range n))) as Hwr.
    { by rewrite Htr, written_app, Ht3, written_chunks. }
    destruct (open_w_error w _); rewrite Hrun; cbn [fst snd trace];
      rewrite written_app, Hwr; done.
Qed.

End Outputs.

(** ** A failure inside the loop *)

Section PathsInjective.

Lemma length_append (s1 s2 : string) :
  String.length (s1 +:+ s2) = (String.length s1 + String.length s2)%nat.
Proof. induction s1 as [|c s1 IH]; [done|]. rewrite append_cons. simpl. by rewrite IH. Qed.

Lemma append_inj_r (s1 s2 t : string) : s1 +:+ t = s2 +:+ t → s1 = s2.
Proof.
  revert s2. induction s1 as [|c s1 IH]; intros [|c' s2] Heq.
  - done.
  - apply (f_equal String.length) in Heq. rewrite append_nil_l, length_append in Heq.
    simpl in Heq. lia.
  - apply (f_equal String.length) in Heq. rewrite append_nil_l, length_append in Heq.
    simpl in Heq. lia.
  - rewrite !append_cons in Heq. injection Heq as -> Heq. f_equal. by apply IH.
Qed.

Lemma chunk_path_inj folder base n m :
  free_of "/" base = true →
  chunk_path folder base n = chunk_path folder base m → n = m.
Proof.
  intros Hb Heq. unfold chunk_path, chunk_filename in Heq.
  apply join_suffix_inj in Heq.
  - apply (String.app_inj "_part_") in Heq. apply append_inj_r in Heq.
    by apply (inj pretty) in Heq.
  - by apply chunk_filename_free.
  - by apply chunk_filename_free.
Qed.

Lemma part_txt_path_inj folder base n m :
  free_of "/" base = true →
  part_txt_path folder base n = part_txt_path folder base m → n = m.
Proof.
  intros Hb Heq. unfold part_txt_path, part_txt_filename in Heq.
  apply join_suffix_inj in Heq.
  - apply (String.app_inj "_part_") in Heq. apply append_inj_r in Heq.
    by apply (inj pretty) in Heq.
  - by apply part_txt_filename_free.
  - by apply part_txt_filename_free.
Qed.

End PathsInjective.

Section WindowFailure.

Context (w : world).

Let folder := folder_of w.
Let base := basename_of w.

Lemma chunk_ok_no_failure win e evs f f' :
  chunk_ok w folder base win → chunk_failure w folder base win e evs f f' → False.
Proof.
  intros ([sm Hsm] & [em Hem] & Hexp & [text Htext] & Hw) Hfail.
  destruct Hfail as [? [?|?]|? ?|? ? ?|? ? ? ?]; congruence.
Qed.

Lemma step_fails_not_ok win s e :
  step_fails w folder base win s e → chunk_ok w folder base win → False.
Proof.
  intros Hfail (_ & _ & Hexp & [text Htext] & Hw).
  destruct s; simpl in Hfail; [congruence| |].
  - destruct Hfail as [_ ?]. congruence.
  - destruct Hfail as (_ & _ & ?). congruence.
Qed.

(** A failure of step [s] is the failure that the loop body reports, with the
    console lines and calls of the chunk up to the failing call. *)
Lemma chunk_failure_step win s e e' evs f f' :
  returns (minutes (start_ms win)) → returns (minutes (end_ms win)) →
  step_fails w folder base win s e →
  chunk_failure w folder base win e' evs f f' →
  e' = e ∧
  evs = Print (header_line (index win) (start_min win) (end_min win))
        :: steps_before folder base win s ++ [failing_call folder base win s].
Proof.
  intros [sm Hsm] [em Hem] Hstep Hfail.
  destruct Hfail as [? [?|?]|? Hexp|? Hexp Htext|? Hexp [text Htext] Hw];
    [congruence..| | |].
  - destruct s; simpl in Hstep; [|destruct Hstep; congruence..].
    split; [congruence|done].
  - destruct s; simpl in Hstep; [congruence| |].
    + destruct Hstep as [_ ?]. split; [congruence|done].
    + destruct Hstep as (_ & [? ?] & _). congruence.
  - destruct s; simpl in Hstep; [congruence| |].
    + destruct Hstep as [_ ?]. congruence.
    + destruct Hstep as (_ & _ & ?). split; [congruence|done].
Qed.

(** The failing call of a window is none of the calls of another window. *)
Lemma failing_call_not_in_chunk win win' s :
  index win' ≠ index win →
  failing_call folder base win s ∉ chunk_events folder base win'.
Proof.
  intros Hne Hin. pose proof (basename_of_free w) as Hb.
  unfold chunk_events, export_events, transcribe_events, write_events, saved_events in Hin.
  simpl in Hin. rewrite !elem_of_cons, elem_of_nil in Hin.
  destruct s; simpl in Hin; decompose [or] Hin; try done;
    match goal with
    | H : _ = _ |- _ =>
        injection H as H;
        first [apply chunk_path_inj in H | apply part_txt_path_inj in H]; done
    end.
Qed.

End WindowFailure.

Section Surfacing.

Context (w : world) (chunk_minutes duration_ms : Z).

Let folder := folder_of w.
Let base := basename_of w.

(** C7, as amended: when the export, the transcription call or the
    transcript write of a window fails, the run aborts with exactly the
    exception that the call raised - the underlying cause, to which the
    program adds nothing, so no window index either; the window shows on the
    console only, where the last header line is the one of the failing
    window; the failing call is the last thing the run does and it is made
    once: nothing is retried. *)
Theorem window_failure_surfaces_unchanged
    (pre post : list window) (win : window) (s : step) (e : exn) :
  chunk_minutes_of w = Some chunk_minutes →
  has_key w = true →
  is_Some (fs0 w !! audio_path w) →
  duration_of w = inr duration_ms →
  plan duration_ms chunk_minutes = inr (pre ++ win :: post) →
  Forall (chunk_ok w folder base) pre →
  step_fails w folder base win s e →
  (run w).1 = inl e ∧
  ∃ before,
    trace (run w).2
    = before
      ++ [Print (header_line (index win) (start_min win) (end_min win))]
      ++ steps_before folder base win s ++ [failing_call folder base win s] ∧
    (failing_call folder base win s ∉ before) ∧
    (failing_call folder base win s ∉ steps_before folder base win s).
Proof.
  intros Hcm Hkey Hfile Hd Hplan Hpre Hstep.
  pose proof (duration_bounds _ _ Hd) as Hdb.
  destruct (planned_window_minutes duration_ms chunk_minutes _ win Hdb Hplan)
    as [Hsm Hem].
  { apply elem_of_app. right. apply elem_of_cons. by left. }
  destruct (run_loaded w chunk_minutes duration_ms Hcm Hkey Hfile Hd) as (dm & _ & Hrun).
  cbv zeta in Hrun. pose proof Hplan as Hwins. unfold plan in Hwins.
  destruct (num_chunks duration_ms (chunk_minutes * 60 * 1000)) as [|n] eqn:Hn; [done|].
  injection Hwins as Hwins.
  set (t3 := (loading_events (audio_path w) ++ [Print (total_line dm)])
             ++ [Print (splitting_line n chunk_minutes)]) in *.
  pose proof (loop_outcome w folder base (chunk_minutes * 60 * 1000) duration_ms n t3
                (fs0 w)) as Hout.
  cbv zeta in Hout. fold folder base in Hrun.
  destruct (for_each _ _ _ _) as [[e'|parts] st'].
  2:{ destruct Hout as (Hall & _). rewrite Hwins in Hall.
      apply Forall_app in Hall as [_ Hall]. apply Forall_cons in Hall as [Hok _].
      destruct (step_fails_not_ok w win s e Hstep Hok). }
  destruct Hout as (pre' & win' & post' & evs & Hsplit & Hpre' & Hfail & Htr).
  rewrite Hwins in Hsplit.
  assert (pre' = pre ∧ win' = win) as [-> ->].
  { destruct (Nat.lt_trichotomy (length pre) (length pre')) as [Hlt|[Heq|Hgt]].
    - exfalso. pose proof (list_lookup_middle pre post win _ eq_refl) as Hwin.
      rewrite Hsplit, lookup_app_l in Hwin by done.
      apply (Forall_lookup_1 _ _ _ _ Hpre') in Hwin.
      destruct (step_fails_not_ok w win s e Hstep Hwin).
    - apply app_inj_1 in Hsplit as [-> [= -> _]]; done.
    - exfalso. pose proof (list_lookup_middle pre' post' win' _ eq_refl) as Hwin.
      rewrite <- Hsplit, lookup_app_l in Hwin by done.
      apply (Forall_lookup_1 _ _ _ _ Hpre) in Hwin.
      destruct (chunk_ok_no_failure w win' e' evs _ _ Hwin Hfail). }
  destruct (chunk_failure_step w win s e e' evs _ _ Hsm Hem Hstep Hfail) as [-> ->].
  rewrite Hrun. cbn [fst snd]. split; [done|].
  exists (t3 ++ concat (chunk_events folder base <$> pre)). split_and!.
  - by rewrite Htr, <- (assoc_L (++)).
  - rewrite elem_of_app. intros [Hin|Hin].
    + unfold t3, loading_events in Hin. simpl in Hin.
      rewrite !elem_of_cons, elem_of_nil in Hin.
      destruct s; simpl in Hin; decompose [or] Hin; done.
    + apply list_elem_of_In, in_concat in Hin as (evs' & Hevs' & Hin).
      apply list_elem_of_In in Hevs', Hin.
      apply list_elem_of_fmap in Hevs' as (win' & -> & Hwin').
      apply list_elem_of_lookup in Hwin' as [i Hi].
      pose proof (lookup_lt_Some _ _ _ Hi) as Hlt.
      pose proof (plan_index _ _ _ i win' Hplan) as Hidx.
      rewrite lookup_app_l in Hidx by done. specialize (Hidx Hi).
      pose proof (plan_index _ _ _ (length pre) win Hplan
                    (list_lookup_middle pre post win _ eq_refl)) as Hidx'.
      revert Hin. apply failing_call_not_in_chunk. lia.
  - destruct s; simpl; rewrite !elem_of_cons, elem_of_nil;
      intros Hin; decompose [or] Hin; done.
Qed.

End Surfacing.

Lemma window_failure_witness :
  let w := talk_failing_on_2 in
  let win := Window 2 1200000 2400000 in
  let call := failing_call (folder_of w) (basename_of w) win Transcribing in
  let steps := steps_before (folder_of w) (basename_of w) win Transcribing in
  (run w).1 = inl (ExternalError "rate limit exceeded") ∧
  ∃ before,
    trace (run w).2
    = before
      ++ [Print (header_line (index win) (start_min win) (end_min win))]
      ++ steps ++ [call] ∧
    (call ∉ before) ∧ (call ∉ steps).
Proof.
  apply (window_failure_surfaces_unchanged talk_failing_on_2 20 3000000
           [Window 1 0 1200000] [Window 3 2400000 3000000]).
  - reflexivity.
  - reflexivity.
  - by exists Opaque.
  - reflexivity.
  - by vm_compute.
  - apply Forall_singleton. split_and!; first [by eexists; vm_compute | by vm_compute].
  - split; by vm_compute.
Defined.

(** C7 as stated fails: when the transcription of part 2 fails, the error
    that surfaces is the one of the service, and it does not name part 2. *)
Lemma surfaced_error_has_no_index :
  (run talk_failing_on_2).1 = inl (ExternalError "rate limit exceeded") ∧
  ¬ error_names_window (run talk_failing_on_2).1 2.
Proof.
  assert ((run talk_failing_on_2).1 = inl (ExternalError "rate limit exceeded")) as Hrun
    by (by vm_compute).
  split; [exact Hrun|]. rewrite Hrun. intros (e & [= <-] & Hin).
  vm_compute in Hin. discriminate.
Qed.

(** * Further properties *)

(** ** The ways a run ends *)

Lemma run_accepted w cm :
  chunk_minutes_of w = Some cm → has_key w = true →
  run w = split_and_transcribe w (audio_path w) cm (State [] (fs0 w)).
Proof.
  intros Hcm Hkey. unfold run. rewrite main_eq, Hcm, Hkey.
  unfold chunk_minutes_of in Hcm. by destruct (argv w) as [|? [|? ?]].
Qed.

Lemma run_rejected_line w :
  chunk_minutes_of w = None →
  run w = (inl (SystemExit 1),
           State [Print (if decide (length (argv w) < 2)%nat then usage
                         else "chunk_minutes must be an integer (e.g. 20)")] (fs0 w)).
Proof.
  intros Hcm. unfold run. rewrite main_eq, Hcm.
  unfold chunk_minutes_of in Hcm.
  destruct (argv w) as [|a0 [|a1 [|a2 rest]]]; simpl; try done.
Qed.

(** Every run ends in one of the eight ways. *)
Lemma run_outcome w : outcome w (run w).
Proof.
  destruct (chunk_minutes_of w) as [cm|] eqn:Hcm.
  2:{ rewrite (run_rejected_line w Hcm). by apply Rejected. }
  destruct (has_key w) eqn:Hkey.
  2:{ rewrite run_no_key by (by rewrite ?Hcm). apply No_key; [by rewrite Hcm|done]. }
  destruct (fs0 w !! audio_path w) as [c|] eqn:Hfile.
  2:{ rewrite (run_accepted w cm Hcm Hkey), split_and_transcribe_eq. cbn [fs trace].
      rewrite Hfile, bool_decide_false by (by intros [? ?]).
      by eapply No_file. }
  assert (is_Some (fs0 w !! audio_path w)) as Hsome by (by rewrite Hfile).
  destruct (duration_of w) as [e|d] eqn:Hd.
  { rewrite (run_accepted w cm Hcm Hkey), split_and_transcribe_eq. cbn [fs trace].
    rewrite bool_decide_true by done. unfold duration_of in Hd.
    destruct (from_file w (audio_path w)) as [e'|raw] eqn:Hraw.
    - injection Hd as ->. eapply Not_loaded; [done..|]. unfold duration_of. by rewrite Hraw.
    - rewrite Hd. eapply Not_loaded; [done..|]. unfold duration_of. by rewrite Hraw. }
  assert (loaded w cm d) as Hloaded by done.
  destruct (run_loaded w cm d Hcm Hkey Hsome Hd) as (dm & Hdm & ->). cbv zeta.
  destruct (num_chunks d (cm * 60 * 1000)) as [e|n] eqn:Hn.
  { by eapply Not_counted. }
  pose proof (plan_windows _ _ _ Hn) as Hplan.
  pose proof (loop_outcome w (folder_of w) (basename_of w) (cm * 60 * 1000) d n
                ((loading_events (audio_path w) ++ [Print (total_line dm)])
                 ++ [Print (splitting_line n cm)]) (fs0 w)) as Hout.
  cbv zeta in Hout.
  assert ((loading_events (audio_path w) ++ [Print (total_line dm)])
          ++ [Print (splitting_line n cm)] = opening_events w dm n cm) as Hopen.
  { unfold opening_events. by rewrite <- (assoc_L (++)). }
  rewrite Hopen in *.
  destruct (for_each _ _ _ _) as [[e|parts] st'].
  - destruct Hout as (pre & win & post & evs & Hsplit & Hpre & Hfail & Htr).
    rewrite Hsplit in Hplan. destruct st' as [tr files].
    cbn [trace fs] in Htr, Hfail. subst tr.
    by eapply Chunk_failed.
  - destruct Hout as (Hall & -> & Htr & Hfs). destruct st' as [tr files].
    cbn [trace fs] in Htr, Hfs. subst tr files. cbn [trace fs].
    destruct (open_w_error w _) as [e|] eqn:Hw.
    + rewrite <- (assoc_L (++)). by eapply Merged_failed.
    + rewrite <- (assoc_L (++)). by eapply Finished.
Qed.

Lemma planned_eq w cm d ws :
  loaded w cm d → plan d cm = inr ws → planned w = ws.
Proof. intros (Hcm & _ & _ & Hd) Hplan. unfold planned. by rewrite Hcm, Hd, Hplan. Qed.

Lemma planned_index w (i : nat) win :
  planned w !! i = Some win → index win = Z.of_nat i + 1.
Proof.
  unfold planned.
  destruct (chunk_minutes_of w) as [cm|]; [|done].
  destruct (duration_of w) as [|d]; [done|].
  destruct (plan d cm) as [|ws] eqn:Hplan; [done|].
  intros Hi. exact (plan_index d cm ws i win Hplan Hi).
Qed.

(** The indices of the planned windows differ. *)
Lemma planned_indices w : NoDup (index <$> planned w).
Proof.
  apply NoDup_alt. intros i j x.
  rewrite !list_lookup_fmap.
  destruct (planned w !! i) as [wi|] eqn:Hi; [|done].
  destruct (planned w !! j) as [wj|] eqn:Hj; [|done].
  apply planned_index in Hi, Hj. simpl. intros [= <-] [= Heq]. lia.
Qed.

(** ** The command line *)

Lemma chunk_minutes_of_None w :
  chunk_minutes_of w = None ↔
  (length (argv w) < 2)%nat ∨
  ∃ a0 path arg rest, argv w = a0 :: path :: arg :: rest ∧ Int.parse arg = None.
Proof.
  unfold chunk_minutes_of. destruct (argv w) as [|a0 [|a1 [|a2 rest]]]; simpl.
  - split; [left; lia|done].
  - split; [left; lia|done].
  - split; [done|]. intros [?|(?&?&?&?&?&?)]; [lia|done].
  - split.
    + intros H. right. by exists a0, a1, a2, rest.
    + intros [?|(?&?&?&?&[= -> -> -> ->]&?)]; [lia|done].
Qed.

(** X1: the run prints the usage line, and that line only, and exits with
    status 1 without touching anything, exactly when the command line has no
    path argument - whatever the environment and the disk hold. *)
Theorem usage_printed_iff_no_path (w : world) :
  run w = (inl (SystemExit 1), State [Print usage] (fs0 w))
  ↔ (length (argv w) < 2)%nat.
Proof.
  split.
  - intros Hrun. pose proof (run_outcome w) as Hout. rewrite Hrun in Hout.
    inversion Hout as [line Hcm Hline| | | | | | |]; subst.
    by destruct (decide (length (argv w) < 2)%nat).
  - intros Hlen. rewrite run_rejected_line.
    + by rewrite decide_True by done.
    + apply chunk_minutes_of_None. by left.
Qed.



(** X3: without a chunk length argument the run is the run with the
    argument "20": same result, same console, same calls, same files. *)
Theorem default_chunk_length_is_20 (w : world) (a0 path : string) :
  argv w = [a0; path] → run w = run (with_argv w [a0; path; "20"]).
Proof.
  intros Hargv. unfold run, main. rewrite Hargv. simpl.
  unfold bind, ret. destruct (environ w !! _) as [[|]|]; reflexivity.
Qed.

Lemma default_chunk_length_witness :
  run talk_25_min
  = run (with_argv talk_25_min ["transcribe_split.py"; "talk.mp3"; "20"]).
Proof.
  apply (default_chunk_length_is_20 talk_25_min "transcribe_split.py" "talk.mp3").
  reflexivity.
Defined.

(** X4: arguments after the chunk length are not looked at: the run is the
    run without them. *)
Theorem further_arguments_ignored (w : world) (a0 path arg : string) (rest : list string) :
  argv w = a0 :: path :: arg :: rest → run w = run (with_argv w [a0; path; arg]).
Proof.
  intros Hargv. unfold run, main. rewrite Hargv. simpl.
  destruct (Int.parse arg); [|reflexivity].
  unfold bind, ret. destruct (environ w !! _) as [[|]|]; reflexivity.
Qed.

Lemma further_arguments_witness :
  let w := talk ["talk.mp3"; "15"; "--fast"; "x"] (Some "sk-test") 1500000 echo in
  run w = run (with_argv w ["transcribe_split.py"; "talk.mp3"; "15"]).
Proof.
  intros w.
  apply (further_arguments_ignored w "transcribe_split.py" "talk.mp3" "15" ["--fast"; "x"]).
  reflexivity.
Defined.

Section IntOfStr.

Import Int.










End IntOfStr.



(** ** Before the loop *)

(** X6: when the command line and the credential are accepted and the audio
    path is not on disk, the run ends in [FileNotFoundError] with the message
    "Audio file not found: <absolute path>"; all it did was the existence
    check: nothing was printed, decoded or written. *)
Theorem missing_audio_file_aborts (w : world) :
  is_Some (chunk_minutes_of w) → has_key w = true →
  fs0 w !! audio_path w = None →
  run w = (inl (FileNotFoundError ("Audio file not found: " +:+ audio_path w)),
           State [PathExists (audio_path w)] (fs0 w)).
Proof.
  intros [cm Hcm] Hkey Hfile.
  rewrite (run_accepted w cm Hcm Hkey), split_and_transcribe_eq. cbn [fs trace].
  rewrite Hfile, bool_decide_false by (by intros [? ?]). done.
Qed.

Lemma missing_audio_file_witness :
  run (talk ["lost.mp3"] (Some "sk-test") 1500000 echo)
  = (inl (FileNotFoundError "Audio file not found: /home/u/lost.mp3"),
     State [PathExists "/home/u/lost.mp3"] {[ "/home/u/talk.mp3" := Opaque ]}).
Proof.
  apply (missing_audio_file_aborts (talk ["lost.mp3"] (Some "sk-test") 1500000 echo)).
  - by exists 20.
  - reflexivity.
  - reflexivity.
Defined.

(** X7: when the audio file is there and decoding it fails (or its length
    does not fit [len]), the run ends in that exception, unchanged, after the
    three opening lines; no file was written and no request was made. *)
Theorem undecodable_audio_aborts (w : world) (e : exn) :
  is_Some (chunk_minutes_of w) → has_key w = true →
  is_Some (fs0 w !! audio_path w) →
  duration_of w = inl e →
  run w = (inl e, State (loading_events (audio_path w)) (fs0 w)).
Proof.
  intros [cm Hcm] Hkey Hfile Hd.
  rewrite (run_accepted w cm Hcm Hkey), split_and_transcribe_eq. cbn [fs trace].
  rewrite bool_decide_true by done. unfold duration_of in Hd.
  destruct (from_file w (audio_path w)) as [e'|raw]; [by injection Hd as ->|].
  by rewrite Hd.
Qed.

Lemma undecodable_audio_witness :
  run talk_undecodable
  = (inl (ExternalError "could not decode"),
     State (loading_events "/home/u/talk.mp3") {[ "/home/u/talk.mp3" := Opaque ]}).
Proof.
  apply (undecodable_audio_aborts talk_undecodable (ExternalError "could not decode")).
  - by exists 20.
  - reflexivity.
  - by exists Opaque.
  - reflexivity.
Defined.

(** ** The plan for every length that [len] reports *)

Section Counting.

Import Py.

Lemma round_half_even_ge n d N : 0 < d → N * d ≤ n → N ≤ round_half_even n d.
Proof.
  intros Hd Hn. unfold round_half_even.
  pose proof (Z.div_mod n d ltac:(lia)).
  pose proof (Z.mod_pos_bound n d Hd).
  assert (N ≤ n / d) by nia.
  repeat case_match; lia.
Qed.

Lemma round_half_even_exact q d : 0 < d → round_half_even (q * d) d = q.
Proof.
  intros Hd. unfold round_half_even.
  rewrite Z.div_mul, Z.mod_mul by lia.
  destruct (Z.ltb_spec (2 * 0) d); [done|lia].
Qed.

(** The count is a number whenever the chunk length is not 0 and the exact
    quotient is below 2^53. *)
Lemma num_chunks_returns d c :
  0 ≤ d → c ≠ 0 → d < 2 ^ 53 * Z.abs c → returns (num_chunks d c).
Proof.
  intros Hd Hc Hdc. unfold num_chunks, truediv.
  destruct (Z.eqb_spec c 0); [done|].
  rewrite (Z.abs_eq d) by lia.
  destruct (Z.eq_dec d 0) as [->|]; [by eexists|].
  destruct (float_of_ratio_small d (Z.abs c)) as (s & _ & _ & ->); [lia..|].
  by eexists.
Qed.

(** For a quotient below 2^53 the loop runs [ceil_div] times, or once less. *)
Lemma num_chunks_bounds d c :
  0 ≤ d → 0 < c → d < 2 ^ 53 * c →
  ∃ n, num_chunks d c = inr n ∧ ceil_div d c - 1 ≤ n ≤ ceil_div d c.
Proof.
  intros Hd Hc Hdc.
  destruct (num_chunks_le d c Hd Hc Hdc) as (n & Hn & Hn0 & Hnk).
  exists n. split; [done|]. split; [|done].
  destruct (Z.eq_dec d 0) as [->|].
  { pose proof (ceil_div_spec 0 c Hc). nia. }
  revert Hn. unfold num_chunks. rewrite truediv_nonneg by lia.
  destruct (float_of_ratio_small d c) as (s & Hs & _ & ->); [lia..|].
  intros [= <-]. rewrite ceil_small_exponent by done.
  assert (0 < 2 ^ s) as Hp by (apply Z.pow_pos_nonneg; lia).
  pose proof (ceil_div_spec d c Hc) as [Hk _].
  set (k := ceil_div d c) in *.
  set (m := round_half_even (d * 2 ^ s) c).
  assert ((k - 1) * 2 ^ s ≤ m) as Hm.
  { apply round_half_even_ge; [done|]. nia. }
  pose proof (ceil_div_spec m (2 ^ s) Hp). nia.
Qed.

(** A quotient that is not 0 and not below half the smallest float does not
    round to 0. *)
Lemma num_chunks_pos d c :
  0 < d → 0 < c < 2 ^ 1075 → d < 2 ^ 53 * c →
  ∃ n, num_chunks d c = inr n ∧ 1 ≤ n.
Proof.
  intros Hd [Hc Hc'] Hdc. unfold num_chunks. rewrite truediv_nonneg by lia.
  destruct (float_of_ratio_small d c) as (s & Hs & Hsdef & ->); [lia..|].
  eexists. split; [done|]. rewrite ceil_small_exponent by done.
  assert (0 < 2 ^ s) as Hp by (apply Z.pow_pos_nonneg; lia).
  set (m := round_half_even (d * 2 ^ s) c).
  assert (1 ≤ m) as Hm.
  { apply (round_half_even_gt _ _ 0); [done|nia|].
    pose proof (ilog2_ratio_lower d c Hd Hc) as Hlo.
    set (L := ilog2_ratio d c) in *.
    destruct (Z.le_gt_cases 1074 (52 - L)).
    { replace s with 1074 by lia.
      assert (2 ^ 1075 = 2 * 2 ^ 1074) as Hpow by (by vm_compute). nia. }
    assert (s = 52 - L) as Hs' by lia.
    destruct (Z.le_gt_cases 0 L).
    - rewrite (pow2_nonneg L), (pow2_nonpos (- L)) in Hlo by lia.
      assert (1 ≤ 2 ^ L) by (apply (Z.pow_le_mono_r 2 0 L); lia). nia.
    - rewrite (pow2_nonpos L), (pow2_nonneg (- L)) in Hlo by lia.
      assert (2 ^ (- L) ≤ 2 ^ s) by (apply Z.pow_le_mono_r; lia). nia. }
  pose proof (ceil_div_spec m (2 ^ s) Hp). nia.
Qed.

(** Whole minutes are printed exactly. *)
Lemma minutes_whole k :
  0 ≤ k < 2 ^ 53 → minutes (k * 60000) = inr (Py.str k +:+ ".0").
Proof.
  intros [Hk Hk53]. unfold minutes. rewrite truediv_nonneg by lia.
  destruct (Z.eq_dec k 0) as [->|Hk0]; [reflexivity|].
  destruct (float_of_ratio_small (k * 60000) 60000) as (s & Hs & _ & ->); [lia..|].
  f_equal.
  assert (0 < 2 ^ s) as Hp by (apply Z.pow_pos_nonneg; lia).
  replace (k * 60000 * 2 ^ s) with (k * 2 ^ s * 60000) by lia.
  rewrite round_half_even_exact by lia.
  unfold format_1f. cbn [mant expo].
  rewrite (pow2_nonpos (- s)), Z.opp_involutive, (pow2_nonneg s) by lia.
  rewrite Z.abs_eq by nia.
  replace (k * 2 ^ s * 10 * 1) with (10 * k * 2 ^ s) by lia.
  rewrite round_half_even_exact by lia.
  destruct (Z.ltb_spec (k * 2 ^ s) 0); [nia|].
  replace (10 * k) with (k * 10) by lia.
  rewrite Z.div_mul, Z.mod_mul by lia.
  reflexivity.
Qed.

End Counting.

Lemma range_nonpos n : n ≤ 0 → range n = [].
Proof. intros Hn. unfold range. by replace (Z.to_nat n) with 0%nat by lia. Qed.

Lemma range_pos n : 1 ≤ n → range n = 0 :: ((λ i, i + 1) <$> range (n - 1)).
Proof.
  intros Hn. unfold range.
  replace (Z.to_nat n) with (S (Z.to_nat (n - 1))) by lia.
  simpl. f_equal. rewrite <- seq_shift, <- !list_fmap_compose.
  apply list_fmap_ext. intros _ i _. simpl. lia.
Qed.

Lemma plan_zero d : plan d 0 = inl (ZeroDivisionError "division by zero").
Proof. reflexivity. Qed.

(** A chunk length below zero plans no window. *)
Lemma plan_negative d cm :
  0 ≤ d ≤ Py.maxsize → cm < 0 →
  ∃ n, num_chunks d (cm * 60 * 1000) = inr n ∧ n ≤ 0 ∧ plan d cm = inr [].
Proof.
  intros Hd Hcm.
  assert (Py.maxsize < 2 ^ 53 * 60000) by (by vm_compute).
  destruct (num_chunks_returns d (cm * 60 * 1000)) as [n Hn]; [lia|lia| |].
  { assert (2 ^ 53 * 60000 ≤ 2 ^ 53 * Z.abs (cm * 60 * 1000))
      by (apply Z.mul_le_mono_nonneg_l; lia). lia. }
  pose proof (num_chunks_negative_chunk d (cm * 60 * 1000) n ltac:(lia) ltac:(lia) Hn)
    as Hle.
  exists n. split_and!; [done|done|].
  by rewrite (plan_windows _ _ _ Hn), range_nonpos.
Qed.

(** The plan of a chunk length of a minute or more, for a length that [len]
    reports. *)
Lemma plan_positive d cm :
  0 ≤ d ≤ Py.maxsize → 1 ≤ cm →
  ∃ n, num_chunks d (cm * 60 * 1000) = inr n ∧
       ceil_div d (cm * 60000) - 1 ≤ n ≤ ceil_div d (cm * 60000) ∧ 0 ≤ n ∧
       plan d cm = inr (window_of (cm * 60000) d <$> range n).
Proof.
  intros Hd Hcm.
  assert (Py.maxsize < 2 ^ 53 * 60000) by (by vm_compute).
  assert (cm * 60 * 1000 = cm * 60000) as Hc by lia.
  assert (d < 2 ^ 53 * (cm * 60000)) as Hdc.
  { assert (2 ^ 53 * 60000 ≤ 2 ^ 53 * (cm * 60000))
      by (apply Z.mul_le_mono_nonneg_l; lia). lia. }
  destruct (num_chunks_bounds d (cm * 60000)) as (n & Hn & Hnk); [lia..|].
  destruct (num_chunks_le d (cm * 60000)) as (n' & Hn' & Hn0 & _); [lia..|].
  assert (n' = n) as -> by congruence.
  exists n. rewrite Hc. split_and!; [done|lia|lia|lia|].
  rewrite <- Hc in Hn. rewrite (plan_windows _ _ _ Hn). by rewrite Hc.
Qed.

(** The windows of a loop that runs at most [ceil_div] times. *)
Lemma windows_inside c d n :
  0 < c → 0 ≤ d → 0 ≤ n ≤ ceil_div d c →
  let ws := window_of c d <$> range n in
  (∀ win, win ∈ ws →
     0 ≤ start_ms win < end_ms win ∧ end_ms win ≤ d ∧ end_ms win - start_ms win ≤ c) ∧
  (∀ (i : nat) win win',
     ws !! i = Some win → ws !! S i = Some win' → end_ms win = start_ms win') ∧
  (∀ (i : nat) win,
     ws !! i = Some win → (S i < length ws)%nat → end_ms win = (Z.of_nat i + 1) * c) ∧
  (∀ t, (∃ win, win ∈ ws ∧ start_ms win ≤ t < end_ms win) ↔ 0 ≤ t < Z.min (n * c) d).
Proof.
  intros Hc Hd Hn ws.
  pose proof (ceil_div_spec d c Hc) as [Hk _].
  split_and!.
  - intros win (i & -> & Hi)%elem_of_windows. simpl. nia.
  - intros i win win' [-> ?]%lookup_windows [-> ?]%lookup_windows. simpl. nia.
  - intros i win [-> ?]%lookup_windows. unfold ws.
    rewrite length_fmap, length_range. intros Hlt. simpl. nia.
  - intros t. split.
    + intros (win & (i & -> & Hi)%elem_of_windows & Ht). simpl in Ht. nia.
    + intros Ht. exists (window_of c d (t / c)).
      pose proof (Z.div_mod t c ltac:(lia)). pose proof (Z.mod_pos_bound t c Hc).
      assert (0 ≤ t / c < n) by nia.
      split; [|simpl; nia].
      apply list_elem_of_lookup. exists (Z.to_nat (t / c)). by apply windows_lookup.
Qed.

(** X8: for a chunk length of a minute or more and every audio length that
    [len] reports (0 to 2^63 - 1 ms) the plan is made, with
    ceil(duration_ms / chunk_ms) windows or one window less; every window is
    non-empty, lies within the audio and is at most chunk_ms long;
    consecutive windows touch; and together the windows cover exactly
    [0, min(n * chunk_ms, duration_ms)), n being their number. *)
Theorem plan_for_every_length (duration_ms chunk_minutes : Z) :
  1 ≤ chunk_minutes → 0 ≤ duration_ms ≤ Py.maxsize →
  ∃ ws n,
    plan duration_ms chunk_minutes = inr ws ∧ Z.of_nat (length ws) = n ∧
    ceil_div duration_ms (chunk_minutes * 60000) - 1 ≤ n
      ≤ ceil_div duration_ms (chunk_minutes * 60000) ∧
    (∀ win, win ∈ ws →
       0 ≤ start_ms win < end_ms win ∧ end_ms win ≤ duration_ms ∧
       end_ms win - start_ms win ≤ chunk_minutes * 60000) ∧
    (∀ (i : nat) win win',
       ws !! i = Some win → ws !! S i = Some win' → end_ms win = start_ms win') ∧
    (∀ t, (∃ win, win ∈ ws ∧ start_ms win ≤ t < end_ms win)
          ↔ 0 ≤ t < Z.min (n * (chunk_minutes * 60000)) duration_ms).
Proof.
  intros Hcm Hd.
  destruct (plan_positive duration_ms chunk_minutes Hd Hcm) as (n & _ & Hnk & Hn0 & Hplan).
  destruct (windows_inside (chunk_minutes * 60000) duration_ms n)
    as (Hin & Hcont & _ & Hcover); [lia..|].
  exists (window_of (chunk_minutes * 60000) duration_ms <$> range n), n.
  split_and!; try done; try lia.
  rewrite length_fmap, length_range. lia.
Qed.

Lemma plan_for_every_length_witness :
  ∃ ws n, plan 9223372036854775807 1 = inr ws ∧ Z.of_nat (length ws) = n ∧
          ceil_div 9223372036854775807 60000 - 1 ≤ n ≤ ceil_div 9223372036854775807 60000.
Proof.
  destruct (plan_for_every_length 9223372036854775807 1) as (ws & n & Hplan & Hlen & Hn & _).
  - lia.
  - split; [lia|]. by vm_compute.
  - exists ws, n. split_and!; [exact Hplan|exact Hlen|apply Hn|apply Hn].
Defined.

(** X9: a non-empty audio (of a length that [len] reports) is never planned
    without a chunk, for chunk lengths from one minute up to 2^1075 ms: the
    plan starts with window 1, from 0 to the chunk length or to the end of the
    audio. *)
Theorem nonempty_audio_has_a_first_chunk (duration_ms chunk_minutes : Z) :
  1 ≤ chunk_minutes → chunk_minutes * 60000 < 2 ^ 1075 →
  0 < duration_ms ≤ Py.maxsize →
  ∃ ws, plan duration_ms chunk_minutes
        = inr (Window 1 0 (Z.min (chunk_minutes * 60000) duration_ms) :: ws).
Proof.
  intros Hcm Hbig [Hd0 Hd].
  assert (Py.maxsize < 2 ^ 53 * 60000) by (by vm_compute).
  assert (chunk_minutes * 60 * 1000 = chunk_minutes * 60000) as Hc by lia.
  destruct (num_chunks_pos duration_ms (chunk_minutes * 60000)) as (n & Hn & Hn1);
    [lia|lia| |].
  { assert (2 ^ 53 * 60000 ≤ 2 ^ 53 * (chunk_minutes * 60000))
      by (apply Z.mul_le_mono_nonneg_l; lia). lia. }
  rewrite <- Hc in Hn. rewrite (plan_windows _ _ _ Hn), (range_pos n Hn1), Hc.
  rewrite fmap_cons. eexists. f_equal. f_equal.
  unfold window_of. f_equal; lia.
Qed.

Lemma nonempty_audio_witness :
  ∃ ws, plan 1 20 = inr (Window 1 0 (Z.min (20 * 60000) 1) :: ws).
Proof.
  apply (nonempty_audio_has_a_first_chunk 1 20).
  - lia.
  - by vm_compute.
  - split; [lia|]. by vm_compute.
Defined.

(** X10: in a plan for an audio length that [len] reports, the minutes of
    the start of every window are printed exactly: window i + 1 starts at
    "<i * chunk_minutes>.0"; and every window but the last ends at
    "<(i + 1) * chunk_minutes>.0". *)
Theorem labels_are_whole_minutes (duration_ms chunk_minutes : Z) (ws : list window) :
  0 ≤ duration_ms ≤ Py.maxsize →
  plan duration_ms chunk_minutes = inr ws →
  ∀ (i : nat) win,
    ws !! i = Some win →
    minutes (start_ms win) = inr (Py.str (Z.of_nat i * chunk_minutes) +:+ ".0") ∧
    ((S i < length ws)%nat →
     minutes (end_ms win) = inr (Py.str ((Z.of_nat i + 1) * chunk_minutes) +:+ ".0")).
Proof.
  intros Hd Hplan i win Hwin.
  assert (Py.maxsize < 2 ^ 53 * 60000) as Hmax by (by vm_compute).
  destruct (Z.le_gt_cases chunk_minutes 0) as [Hcm|Hcm].
  { exfalso. destruct (Z.eq_dec chunk_minutes 0) as [->|Hne].
    - by rewrite plan_zero in Hplan.
    - destruct (plan_negative duration_ms chunk_minutes Hd ltac:(lia)) as (n & _ & _ & Hnil).
      rewrite Hnil in Hplan. injection Hplan as <-. done. }
  destruct (plan_positive duration_ms chunk_minutes Hd ltac:(lia))
    as (n & _ & Hnk & Hn0 & Hplan').
  rewrite Hplan' in Hplan. injection Hplan as <-.
  destruct (windows_inside (chunk_minutes * 60000) duration_ms n)
    as (Hin & _ & Hfull & _); [lia..|].
  pose proof (Hin win (list_elem_of_lookup_2 _ _ _ Hwin)) as Hb.
  specialize (Hfull i win Hwin).
  apply lookup_windows in Hwin as [-> Hi]. simpl in *.
  split.
  - replace (Z.of_nat i * (chunk_minutes * 60000))
      with (Z.of_nat i * chunk_minutes * 60000) by lia.
    apply minutes_whole. nia.
  - intros Hlt. rewrite (Hfull Hlt).
    replace ((Z.of_nat i + 1) * (chunk_minutes * 60000))
      with ((Z.of_nat i + 1) * chunk_minutes * 60000) by lia.
    apply minutes_whole. specialize (Hfull Hlt). nia.
Qed.

Lemma labels_witness :
  minutes (start_ms (Window 2 1200000 2400000)) = inr "20.0" ∧
  minutes (end_ms (Window 2 1200000 2400000)) = inr "40.0".
Proof.
  destruct (labels_are_whole_minutes 3000000 20
              [Window 1 0 1200000; Window 2 1200000 2400000; Window 3 2400000 3000000])
    with (i := 1%nat) (win := Window 2 1200000 2400000) as [Hstart Hend].
  - split; [lia|]. by vm_compute.
  - by vm_compute.
  - reflexivity.
  - split; [exact Hstart|]. apply Hend. simpl. lia.
Defined.

(** X11: with a chunk length below zero (and the command line, the
    credential and the audio in order) the loop does not run: nothing is
    exported, no request is made, an empty merged transcript is written, and
    the run ends normally. *)
Theorem negative_chunk_minutes_writes_empty_transcript
    (w : world) (chunk_minutes duration_ms : Z) :
  chunk_minutes_of w = Some chunk_minutes → chunk_minutes < 0 →
  has_key w = true →
  is_Some (fs0 w !! audio_path w) →
  duration_of w = inr duration_ms →
  open_w_error w (full_path (folder_of w) (basename_of w)) = None →
  (run w).1 = inr tt ∧
  fs (run w).2 = <[full_path (folder_of w) (basename_of w) := Text ""]> (fs0 w) ∧
  exported (trace (run w).2) = [] ∧
  requested (trace (run w).2) = [].
Proof.
  intros Hcm Hneg Hkey Hfile Hd Hw.
  destruct (plan_negative duration_ms chunk_minutes (duration_bounds _ _ Hd) Hneg)
    as (n & Hn & Hn0 & _).
  destruct (run_loaded w chunk_minutes duration_ms Hcm Hkey Hfile Hd) as (dm & _ & ->).
  rewrite Hn. cbv zeta. rewrite (range_nonpos n Hn0). simpl. rewrite Hw. done.
Qed.

Lemma negative_chunk_minutes_witness :
  let w := talk ["talk.mp3"; "-1"] (Some "sk-test") 1500000 echo in
  (run w).1 = inr tt ∧
  fs (run w).2 = <[full_path (folder_of w) (basename_of w) := Text ""]> (fs0 w) ∧
  exported (trace (run w).2) = [] ∧
  requested (trace (run w).2) = [].
Proof.
  intros w.
  apply (negative_chunk_minutes_writes_empty_transcript w (-1) 1500000).
  - reflexivity.
  - lia.
  - reflexivity.
  - by exists Opaque.
  - reflexivity.
  - reflexivity.
Defined.

(** ** The names of the outputs *)

Section Names.

Import Path.

Lemma pretty_N_char_not_underscore d : (d < 10)%N → pretty_N_char d ≠ "_"%char.
Proof. unfold pretty_N_char. repeat case_match; done. Qed.

(** The decimal form of an int has no [_]. *)
Lemma str_free_underscore n : free_of "_" (Py.str n) = true.
Proof.
  assert (∀ x, free_of "_" (pretty (N.pos x)) = true) as Hpos.
  { intros x. unfold pretty, pretty_N. case_decide; [done|].
    apply pretty_N_go_free; [apply pretty_N_char_not_underscore|done]. }
  unfold Py.str, pretty, pretty_Z. destruct n as [|x|x]; [done|apply Hpos|].
  change ("-" +:+ pretty x) with (String "-" (pretty (N.pos x))).
  simpl. apply Hpos.
Qed.

(** An audio chunk and a transcript never have the same name. *)
Lemma chunk_path_ne_part_txt_path folder base n m :
  free_of "/" base = true → chunk_path folder base n ≠ part_txt_path folder base m.
Proof.
  intros Hb Heq. unfold chunk_path, part_txt_path, chunk_filename, part_txt_filename in Heq.
  apply join_suffix_inj in Heq.
  - apply (String.app_inj "_part_") in Heq.
    apply (f_equal (free_of "_")) in Heq.
    rewrite !free_of_app, !str_free_underscore in Heq. done.
  - by apply chunk_filename_free.
  - by apply part_txt_filename_free.
Qed.

Lemma full_path_ne_chunk_path folder base n :
  free_of "/" base = true → full_path folder base ≠ chunk_path folder base n.
Proof.
  intros Hb Heq. unfold chunk_path, full_path, chunk_filename, full_filename in Heq.
  apply join_suffix_inj in Heq.
  - apply (f_equal (λ s, String.get 1 s)) in Heq. done.
  - by apply full_filename_free.
  - by apply chunk_filename_free.
Qed.

Lemma full_path_ne_part_txt_path folder base n :
  free_of "/" base = true → full_path folder base ≠ part_txt_path folder base n.
Proof.
  intros Hb Heq. unfold part_txt_path, full_path, part_txt_filename, full_filename in Heq.
  apply join_suffix_inj in Heq.
  - apply (f_equal (λ s, String.get 1 s)) in Heq. done.
  - by apply full_filename_free.
  - by apply part_txt_filename_free.
Qed.

(** The last component of a path that [join] made is the name it was given. *)
Lemma basename_join folder name :
  free_of "/" name = true → basename (join folder name) = name.
Proof.
  intros Hname. rewrite join_relative by done. unfold dir_prefix, basename, split_at_sep.
  destruct (String.eqb folder "" || ends_with_slash folder) eqn:Hf.
  - apply orb_true_iff in Hf as [Hf|Hf].
    + apply String.eqb_eq in Hf as ->. rewrite append_nil_l.
      by rewrite rpartition_None.
    + destruct (ends_with_slash_snoc _ Hf) as [b ->].
      rewrite append_assoc. change ("/" +:+ name) with (String "/" name).
      by rewrite rpartition_app.
  - rewrite append_assoc. change ("/" +:+ name) with (String "/" name).
    by rewrite rpartition_app.
Qed.

(** [splitext] cuts a name in two: root and extension give the name back, and
    the extension is empty, or it starts with its only dot and the root is not
    empty. *)
Lemma splitext_name t :
  free_of "/" t = true →
  (splitext t).1 +:+ (splitext t).2 = t ∧
  ((splitext t).2 = "" ∨
   ∃ r, (splitext t).2 = String "." r ∧ free_of "." r = true ∧ (splitext t).1 ≠ "").
Proof.
  intros Ht. unfold splitext, split_at_sep. rewrite (rpartition_None "/" t) by done.
  destruct (rpartition "." t) as [[b a]|] eqn:Hdot.
  - destruct (all_of "." b) eqn:Hall; simpl.
    + split; [apply append_nil_r|by left].
    + apply rpartition_Some in Hdot as [-> Ha]. split; [done|].
      right. exists a. split_and!; [done|done|].
      rewrite append_nil_l. intros ->. done.
  - simpl. split; [apply append_nil_r|by left].
Qed.

(** Without a dot nothing is cut off. *)
Lemma splitext_no_dot t :
  free_of "/" t = true → free_of "." t = true → (splitext t).1 = t.
Proof.
  intros Ht Hdot. unfold splitext, split_at_sep.
  by rewrite (rpartition_None "/" t), (rpartition_None "." t).
Qed.

(** The extension starts at the last dot. *)
Lemma splitext_last_dot b a :
  free_of "/" (b +:+ String "." a) = true → free_of "." a = true →
  (splitext (b +:+ String "." a)).1
  = if all_of "." b then b +:+ String "." a else b.
Proof.
  intros Ht Ha. unfold splitext, split_at_sep.
  rewrite (rpartition_None "/" _) by done. rewrite rpartition_app by done.
  by destruct (all_of "." b).
Qed.

End Names.

(** X12: the stem of the output names is the file name of the input without
    its last extension.  A file name without a dot is the stem.  A file name
    [b.a] whose [a] has no dot gives the stem [b]: what follows the last dot
    is cut off, with the dot - unless [b] is empty or made of dots only (a
    hidden file like [.bashrc]), when the whole name is the stem.  The stem
    has no [/]. *)
Theorem output_stem_is_name_without_extension (w : world) :
  free_of "/" (basename_of w) = true ∧
  (free_of "." (Path.basename (audio_path w)) = true →
   basename_of w = Path.basename (audio_path w)) ∧
  (∀ b a,
     Path.basename (audio_path w) = b +:+ String "." a → free_of "." a = true →
     basename_of w = if Path.all_of "." b then Path.basename (audio_path w) else b).
Proof.
  pose proof (basename_free (audio_path w)) as Hfree.
  split_and!.
  - apply basename_of_free.
  - intros Hdot. by apply splitext_no_dot.
  - intros b a Hname Ha. unfold basename_of. rewrite Hname in *.
    by apply splitext_last_dot.
Qed.

Section InputAndOutputs.

Context (w : world).

Let folder := folder_of w.
Let base := basename_of w.

(** An output name - the stem, then [_] and more - is not the name of the
    input, which is the stem and its extension. *)
Lemma output_is_not_the_input suffix :
  free_of "/" suffix = true →
  Path.join folder (base +:+ String "_" suffix) ≠ audio_path w.
Proof.
  intros Hs Heq. apply (f_equal Path.basename) in Heq.
  rewrite basename_join in Heq.
  2:{ unfold base. rewrite free_of_app, basename_of_free. done. }
  destruct (splitext_name (Path.basename (audio_path w)) (basename_free _))
    as [Hjoin Hext].
  fold (basename_of w) in Hjoin. fold base in Hjoin. rewrite <- Hjoin in Heq.
  apply String.app_inj in Heq.
  destruct Hext as [Hext|(r & Hext & _)]; rewrite Hext in Heq; done.
Qed.

Lemma chunk_output_is_not_the_input win p :
  p ∈ chunk_outputs folder base win → p ≠ audio_path w.
Proof.
  unfold chunk_outputs. rewrite !elem_of_cons, elem_of_nil. intros [->|[->|[]]].
  - apply (output_is_not_the_input ("part_" +:+ Py.str (index win) +:+ ".mp3")).
    by rewrite !free_of_app, str_free.
  - apply (output_is_not_the_input
             ("part_" +:+ Py.str (index win) +:+ "_transcript.txt")).
    by rewrite !free_of_app, str_free.
Qed.

Lemma full_path_is_not_the_input : full_path folder base ≠ audio_path w.
Proof. by apply (output_is_not_the_input "full_transcript.txt"). Qed.

Lemma full_path_not_a_chunk_output win : full_path folder base ∉ chunk_outputs folder base win.
Proof.
  pose proof (basename_of_free w) as Hb.
  unfold chunk_outputs. rewrite !elem_of_cons, elem_of_nil. intros [Heq|[Heq|[]]].
  - by apply full_path_ne_chunk_path in Heq.
  - by apply full_path_ne_part_txt_path in Heq.
Qed.

Lemma chunk_outputs_disjoint win win' p :
  index win ≠ index win' →
  p ∈ chunk_outputs folder base win → p ∉ chunk_outputs folder base win'.
Proof.
  pose proof (basename_of_free w) as Hb.
  intros Hne. unfold chunk_outputs. rewrite !elem_of_cons, !elem_of_nil.
  intros [->|[->|[]]] [Heq|[Heq|[]]].
  - by apply chunk_path_inj in Heq.
  - by apply chunk_path_ne_part_txt_path in Heq.
  - symmetry in Heq. by apply chunk_path_ne_part_txt_path in Heq.
  - by apply part_txt_path_inj in Heq.
Qed.

Lemma chunk_outputs_NoDup ws :
  NoDup (index <$> ws) → NoDup (concat (chunk_outputs folder base <$> ws)).
Proof.
  pose proof (basename_of_free w) as Hb.
  induction ws as [|x ws IH]; intros Hnd; [apply NoDup_nil_2|].
  rewrite fmap_cons in Hnd. apply NoDup_cons in Hnd as [Hx Hnd].
  rewrite fmap_cons, concat_cons. apply NoDup_app. split_and!.
  - unfold chunk_outputs. apply NoDup_cons. split; [|apply NoDup_singleton].
    rewrite list_elem_of_singleton. by apply chunk_path_ne_part_txt_path.
  - intros p Hp Hin. apply list_elem_of_In, in_concat in Hin as (pair & Hpair & Hp').
    apply list_elem_of_In in Hpair, Hp'.
    apply list_elem_of_fmap in Hpair as (win & -> & Hwin).
    revert Hp'. apply (chunk_outputs_disjoint x win); [|done].
    intros Heq. apply Hx. rewrite Heq. apply list_elem_of_fmap. by exists win.
  - by apply IH.
Qed.

End InputAndOutputs.

Lemma elem_of_stated_outputs folder base ws p :
  p ∈ stated_outputs folder base ws ↔
  (∃ win, win ∈ ws ∧ p ∈ chunk_outputs folder base win) ∨ p = full_path folder base.
Proof.
  rewrite stated_outputs_eq, elem_of_app, list_elem_of_singleton.
  apply or_iff_compat_r. split.
  - intros Hin. apply list_elem_of_In, in_concat in Hin as (pair & Hpair & Hp).
    apply list_elem_of_In in Hpair, Hp.
    apply list_elem_of_fmap in Hpair as (win & -> & Hwin). by exists win.
  - intros (win & Hwin & Hp). apply list_elem_of_In, in_concat.
    exists (chunk_outputs folder base win). split; apply list_elem_of_In; [|done].
    apply list_elem_of_fmap. by exists win.
Qed.

(** X13: the output files of a run - two per planned chunk and the merged
    transcript - are all different files, and none of them is the input
    file. *)
Theorem outputs_are_distinct_files (w : world) :
  NoDup (stated_outputs (folder_of w) (basename_of w) (planned w)) ∧
  audio_path w ∉ stated_outputs (folder_of w) (basename_of w) (planned w).
Proof.
  split.
  - rewrite stated_outputs_eq. apply NoDup_app. split_and!.
    + apply (chunk_outputs_NoDup w), planned_indices.
    + intros p Hp ->%list_elem_of_singleton.
      apply list_elem_of_In, in_concat in Hp as (pair & Hpair & Hp).
      apply list_elem_of_In in Hpair, Hp.
      apply list_elem_of_fmap in Hpair as (win & -> & Hwin).
      by apply full_path_not_a_chunk_output in Hp.
    + apply NoDup_singleton.
  - rewrite elem_of_stated_outputs. intros [(win & _ & Hp)| Heq].
    + by apply chunk_output_is_not_the_input in Hp.
    + symmetry in Heq. by apply full_path_is_not_the_input in Heq.
Qed.

(** ** The files of a run *)

Section Files.

Context (w : world).

Let folder := folder_of w.
Let base := basename_of w.

Lemma foldl_add_files_lookup files ws p :
  foldl (add_files w folder base) files ws !! p = files !! p ∨
  ∃ win, win ∈ ws ∧ p ∈ chunk_outputs folder base win.
Proof.
  revert files. induction ws as [|x ws IH]; intros files; simpl; [by left|].
  destruct (IH (add_files w folder base files x)) as [Heq|(win & Hin & Hp)].
  2:{ right. exists win. split; [by apply elem_of_cons; right|done]. }
  destruct (decide (p ∈ chunk_outputs folder base x)) as [Hp|Hp].
  { right. exists x. split; [by apply elem_of_cons; left|done]. }
  left. rewrite Heq. unfold add_files. unfold chunk_outputs in Hp.
  rewrite !not_elem_of_cons in Hp. destruct Hp as (? & ? & _).
  by rewrite !lookup_insert_ne by done.
Qed.

Lemma foldl_add_files_other files ws p :
  (∀ win, win ∈ ws → p ∉ chunk_outputs folder base win) →
  foldl (add_files w folder base) files ws !! p = files !! p.
Proof.
  intros Hp. destruct (foldl_add_files_lookup files ws p) as [?|(win & Hin & Hp')]; [done|].
  destruct (Hp win Hin Hp').
Qed.

(** After the chunks of [ws], with indices that differ, the two files of
    each chunk hold what its own iteration wrote. *)
Lemma foldl_add_files_chunk files ws win :
  NoDup (index <$> ws) → win ∈ ws →
  foldl (add_files w folder base) files ws !! chunk_path folder base (index win)
  = Some (Mp3 (start_ms win) (end_ms win)) ∧
  foldl (add_files w folder base) files ws !! part_txt_path folder base (index win)
  = Some (Text (get "" (chunk_text w folder base win))).
Proof.
  pose proof (basename_of_free w) as Hb.
  revert files. induction ws as [|x ws IH]; intros files Hnd Hin.
  { by apply elem_of_nil in Hin. }
  rewrite fmap_cons in Hnd. apply NoDup_cons in Hnd as [Hx Hnd].
  apply elem_of_cons in Hin as [->|Hin]; simpl; [|by apply IH].
  assert (∀ p, p ∈ chunk_outputs folder base x →
            foldl (add_files w folder base) (add_files w folder base files x) ws !! p
            = add_files w folder base files x !! p) as Hkeep.
  { intros p Hp. apply foldl_add_files_other. intros win Hwin.
    apply (chunk_outputs_disjoint w x win); [|done].
    intros Heq. apply Hx. rewrite Heq. apply list_elem_of_fmap. by exists win. }
  rewrite !Hkeep by (unfold chunk_outputs; rewrite !elem_of_cons; auto).
  unfold add_files. split.
  - rewrite lookup_insert_ne, lookup_insert_eq; [done|].
    intros Heq. symmetry in Heq. by apply chunk_path_ne_part_txt_path in Heq.
  - by rewrite lookup_insert_eq.
Qed.

(** Where a run changed the file system. *)
Lemma run_fs_lookup p :
  fs (run w).2 !! p = fs0 w !! p ∨
  (∃ win, win ∈ planned w ∧ p ∈ chunk_outputs folder base win) ∨
  ((run w).1 = inr tt ∧ p = full_path folder base).
Proof.
  destruct (run_outcome w) as
    [ | | | | |cm d dm n pre win post e evs files Hl _ _ Hplan _ Hfail
      |cm d dm n ws e Hl _ _ Hplan
      |cm d dm n ws Hl _ _ Hplan]; cbn [fst snd fs]; try by left.
  - rewrite (planned_eq w cm d _ Hl Hplan).
    assert (∀ q, foldl (add_files w folder base) (fs0 w) pre !! q = fs0 w !! q ∨
                 ∃ win', win' ∈ pre ++ win :: post ∧
                         q ∈ chunk_outputs folder base win') as Hpre.
    { intros q. destruct (foldl_add_files_lookup (fs0 w) pre q) as [?|(win' & ? & ?)];
        [by left|].
      right. exists win'. split; [|done]. apply elem_of_app. by left. }
    assert (∀ q, q ∈ chunk_outputs folder base win →
              ∃ win', win' ∈ pre ++ win :: post ∧
                      q ∈ chunk_outputs folder base win') as Hwin.
    { intros q Hq. exists win. split; [|done].
      apply elem_of_app. right. apply elem_of_cons. by left. }
    inversion Hfail; subst.
    + destruct (Hpre p); auto.
    + destruct (Hpre p); auto.
    + destruct (decide (p = chunk_path folder base (index win))) as [->|Hne].
      * right. left. apply Hwin. apply elem_of_cons. by left.
      * rewrite lookup_insert_ne by done. destruct (Hpre p); auto.
    + destruct (decide (p = chunk_path folder base (index win))) as [->|Hne].
      * right. left. apply Hwin. apply elem_of_cons. by left.
      * rewrite lookup_insert_ne by done. destruct (Hpre p); auto.
  - rewrite (planned_eq w cm d _ Hl Hplan).
    destruct (foldl_add_files_lookup (fs0 w) ws p); auto.
  - rewrite (planned_eq w cm d _ Hl Hplan).
    destruct (decide (p = full_path folder base)) as [->|Hne]; [auto|].
    rewrite lookup_insert_ne by done.
    destruct (foldl_add_files_lookup (fs0 w) ws p); auto.
Qed.

End Files.

Section OutputsOnDisk.

Context (w : world).

Lemma length_chunk_outputs ws :
  length (concat (chunk_outputs (folder_of w) (basename_of w) <$> ws)) = (2 * length ws)%nat.
Proof. induction ws as [|win ws IH]; [done|]. rewrite fmap_cons, concat_cons. simpl. lia. Qed.

Lemma written_chunk_outputs ws :
  written (concat (chunk_events (folder_of w) (basename_of w) <$> ws))
  = concat (chunk_outputs (folder_of w) (basename_of w) <$> ws).
Proof. apply written_chunks. Qed.

(** The two files of the chunks [ws], once they all went through. *)
Lemma chunks_on_disk files ws win :
  NoDup (index <$> ws) → Forall (chunk_ok w (folder_of w) (basename_of w)) ws → win ∈ ws →
  foldl (add_files w (folder_of w) (basename_of w)) files ws !! chunk_path (folder_of w) (basename_of w) (index win)
  = Some (Mp3 (start_ms win) (end_ms win)) ∧
  ∃ text, chunk_text w (folder_of w) (basename_of w) win = inr text ∧
    foldl (add_files w (folder_of w) (basename_of w)) files ws !! part_txt_path (folder_of w) (basename_of w) (index win)
    = Some (Text text).
Proof.
  intros Hnd Hall Hwin.
  destruct (foldl_add_files_chunk w files ws win Hnd Hwin) as [Hcp Htp].
  rewrite Forall_forall in Hall.
  destruct (Hall win Hwin) as (_ & _ & _ & [text Htext] & _).
  split; [done|]. exists text. split; [done|]. rewrite Htp. by rewrite Htext.
Qed.

(** A chunk after whose two writes the run went on to another write has
    both its files on disk, however the run ends. *)
Lemma completed_chunk_on_disk (i : nat) win :
  planned w !! i = Some win →
  (2 * i + 2 < length (written (trace (run w).2)))%nat →
  fs (run w).2 !! chunk_path (folder_of w) (basename_of w) (index win)
  = Some (Mp3 (start_ms win) (end_ms win)) ∧
  ∃ text, chunk_text w (folder_of w) (basename_of w) win = inr text ∧
    fs (run w).2 !! part_txt_path (folder_of w) (basename_of w) (index win) = Some (Text text).
Proof.
  pose proof (planned_indices w) as Hnd. pose proof (basename_of_free w) as Hb.
  revert Hnd.
  destruct (run_outcome w) as
    [ | | | | |cm d dm n pre win' post e evs files Hl _ _ Hplan Hpre Hfail
      |cm d dm n ws e Hl _ _ Hplan Hall
      |cm d dm n ws Hl _ _ Hplan Hall]; cbn [fst snd trace fs];
    try (intros _ _ Hlen; cbn in Hlen; lia).
  - rewrite (planned_eq w cm d _ Hl Hplan). intros Hnd Hi.
    rewrite !written_app, written_chunk_outputs, !length_app, length_chunk_outputs.
    change (written (opening_events w dm n cm)) with (@nil string).
    pose proof (prefix_length _ _ (written_failure _ _ _ _ _ _ _ _ Hfail)) as Hevs.
    simpl in Hevs. cbn [length]. intros Hlen.
    assert (i < length pre)%nat as Hlt by lia.
    rewrite lookup_app_l in Hi by done.
    pose proof (list_elem_of_lookup_2 _ _ _ Hi) as Hwin.
    rewrite fmap_app, fmap_cons in Hnd.
    apply NoDup_app in Hnd as (Hnd_pre & Hdisj & _).
    assert (index win ≠ index win') as Hne.
    { intros Heq. apply (Hdisj (index win)).
      - apply list_elem_of_fmap. by exists win.
      - rewrite Heq. apply elem_of_cons. by left. }
    destruct (chunks_on_disk (fs0 w) pre win Hnd_pre Hpre Hwin) as (Hcp & text & Htext & Htp).
    assert (files !! chunk_path (folder_of w) (basename_of w) (index win)
            = Some (Mp3 (start_ms win) (end_ms win)) ∧
            files !! part_txt_path (folder_of w) (basename_of w) (index win) = Some (Text text)) as [? ?].
    { inversion Hfail; subst; [done|done| |].
      - rewrite !lookup_insert_ne; [done| |].
        + intros Heq. by apply chunk_path_ne_part_txt_path in Heq.
        + intros Heq. apply chunk_path_inj in Heq; [congruence|done].
      - rewrite !lookup_insert_ne; [done| |].
        + intros Heq. by apply chunk_path_ne_part_txt_path in Heq.
        + intros Heq. apply chunk_path_inj in Heq; [congruence|done]. }
    split; [done|]. by exists text.
  - rewrite (planned_eq w cm d _ Hl Hplan). intros Hnd Hi _.
    apply chunks_on_disk; [done|done|]. by apply list_elem_of_lookup_2 in Hi.
  - rewrite (planned_eq w cm d _ Hl Hplan). intros Hnd Hi _.
    pose proof (list_elem_of_lookup_2 _ _ _ Hi) as Hwin.
    destruct (chunks_on_disk (fs0 w) ws win Hnd Hall Hwin) as (Hcp & text & Htext & Htp).
    split.
    + rewrite lookup_insert_ne; [done|].
      intros Heq. eapply (full_path_not_a_chunk_output w win).
      rewrite Heq. apply elem_of_cons. by left.
    + exists text. split; [done|]. rewrite lookup_insert_ne; [done|].
      intros Heq. eapply (full_path_not_a_chunk_output w win).
      rewrite Heq. apply elem_of_cons. right. apply elem_of_cons. by left.
Qed.

(** On a normal end the run logged one write more than two per chunk. *)
Lemma finished_run_writes :
  (run w).1 = inr tt →
  length (written (trace (run w).2)) = (2 * length (planned w) + 1)%nat.
Proof.
  intros Hok. destruct (run_writes w) as [_ Hall]. rewrite (Hall Hok).
  rewrite stated_outputs_eq, length_app.
  change (λ win, [chunk_path (folder_of w) (basename_of w) (index win);
                  part_txt_path (folder_of w) (basename_of w) (index win)])
    with (chunk_outputs (folder_of w) (basename_of w)).
  rewrite length_chunk_outputs. simpl. lia.
Qed.

End OutputsOnDisk.

(** C8: all output files are written in the directory of the input file
    and are named from its basename.  The writes of a run are, in order,
    those of the stated outputs - for the chunk with 1-based index n the audio
    <basename>_part_<n>.mp3 and then the text
    <basename>_part_<n>_transcript.txt, and last the merged
    <basename>_full_transcript.txt - all of them when the run ends normally
    and the first so many when it aborts, and each of these names lies in the
    directory of the input file.  On disk: a chunk after whose two writes
    the run went on to another write has yielded both its files under these
    names, the audio file with the slice of its window and the text file with
    the text returned for it; after a normal end every stated output is
    there, the merged one with text; and no file other than the stated
    outputs is changed by any run. *)
Theorem outputs_next_to_input (w : world) :
  written (trace (run w).2)
    `prefix_of` stated_outputs (folder_of w) (basename_of w) (planned w) ∧
  ((run w).1 = inr tt →
   written (trace (run w).2) = stated_outputs (folder_of w) (basename_of w) (planned w)) ∧
  (∀ (i : nat) win, planned w !! i = Some win → index win = Z.of_nat i + 1) ∧
  (∀ p, p ∈ stated_outputs (folder_of w) (basename_of w) (planned w) →
        Path.dirname p = Path.dirname (audio_path w)) ∧
  (∀ (i : nat) win,
     planned w !! i = Some win →
     (2 * i + 2 < length (written (trace (run w).2)))%nat →
     fs (run w).2
       !! Path.join (folder_of w)
            (basename_of w +:+ "_part_" +:+ Py.str (Z.of_nat i + 1) +:+ ".mp3")
     = Some (Mp3 (start_ms win) (end_ms win)) ∧
     ∃ text,
       chunk_text w (folder_of w) (basename_of w) win = inr text ∧
       fs (run w).2
         !! Path.join (folder_of w)
              (basename_of w +:+ "_part_" +:+ Py.str (Z.of_nat i + 1)
               +:+ "_transcript.txt")
       = Some (Text text)) ∧
  ((run w).1 = inr tt →
   (∀ p, p ∈ stated_outputs (folder_of w) (basename_of w) (planned w) →
         is_Some (fs (run w).2 !! p)) ∧
   ∃ merged,
     fs (run w).2
       !! Path.join (folder_of w) (basename_of w +:+ "_full_transcript.txt")
     = Some (Text merged)) ∧
  (∀ p, fs (run w).2 !! p ≠ fs0 w !! p →
        p ∈ stated_outputs (folder_of w) (basename_of w) (planned w)).
Proof.
  destruct (run_writes w) as [Hprefix Hall].
  assert (∀ (i : nat) win,
            planned w !! i = Some win →
            (2 * i + 2 < length (written (trace (run w).2)))%nat →
            fs (run w).2 !! chunk_path (folder_of w) (basename_of w) (index win)
            = Some (Mp3 (start_ms win) (end_ms win)) ∧
            ∃ text,
              chunk_text w (folder_of w) (basename_of w) win = inr text ∧
              fs (run w).2 !! part_txt_path (folder_of w) (basename_of w) (index win)
              = Some (Text text)) as Hdisk.
  { intros i win. apply completed_chunk_on_disk. }
  assert ((run w).1 = inr tt →
          ∃ merged, fs (run w).2 !! full_path (folder_of w) (basename_of w)
                    = Some (Text merged)) as Hmerged.
  { intros Hok.
    destruct (run_success_state w Hok) as (? & ? & ? & ? & _ & _ & _ & _ & _ & _ & _ & ->).
    eexists. apply lookup_insert_eq. }
  split_and!; [done|done| | | | |].
  - apply planned_index.
  - intros p. rewrite stated_outputs_eq, elem_of_app, list_elem_of_singleton.
    pose proof (basename_of_free w) as Hb.
    intros [Hin| ->].
    + apply list_elem_of_In, in_concat in Hin as (pair & Hpair & Hp).
      apply list_elem_of_In in Hpair, Hp.
      apply list_elem_of_fmap in Hpair as (win & -> & _).
      rewrite !elem_of_cons, elem_of_nil in Hp. destruct Hp as [->|[->|[]]].
      * apply dirname_join. by apply chunk_filename_free.
      * apply dirname_join. by apply part_txt_filename_free.
    + apply dirname_join. by apply full_filename_free.
  - intros i win Hi Hlen. rewrite <- (planned_index w i win Hi).
    exact (Hdisk i win Hi Hlen).
  - intros Hok. split; [|exact (Hmerged Hok)].
    intros p. rewrite elem_of_stated_outputs. intros [(win & Hwin & Hp)| ->].
    + apply list_elem_of_lookup in Hwin as [i Hi].
      pose proof (lookup_lt_Some _ _ _ Hi) as Hlt.
      destruct (Hdisk i win Hi) as (Hcp & text & _ & Htp).
      { rewrite (finished_run_writes w Hok). lia. }
      unfold chunk_outputs in Hp. rewrite !elem_of_cons, elem_of_nil in Hp.
      destruct Hp as [->|[->|[]]]; eauto.
    + destruct (Hmerged Hok) as [merged ->]. eauto.
  - intros p Hp. rewrite elem_of_stated_outputs.
    destruct (run_fs_lookup w p) as [?|[?|[_ ?]]]; [done|by left|by right].
Qed.

Lemma outputs_witness :
  (run talk_25_min).1 = inr tt ∧
  written (trace (run talk_25_min).2)
  = ["/home/u/talk_part_1.mp3"; "/home/u/talk_part_1_transcript.txt";
     "/home/u/talk_part_2.mp3"; "/home/u/talk_part_2_transcript.txt";
     "/home/u/talk_full_transcript.txt"] ∧
  (∀ p, p ∈ ["/home/u/talk_part_1.mp3"; "/home/u/talk_part_1_transcript.txt";
             "/home/u/talk_part_2.mp3"; "/home/u/talk_part_2_transcript.txt";
             "/home/u/talk_full_transcript.txt"] →
        is_Some (fs (run talk_25_min).2 !! p)) ∧
  fs (run talk_25_min).2 !! "/home/u/talk_part_2.mp3" = Some (Mp3 1200000 1500000).
Proof.
  assert ((run talk_25_min).1 = inr tt) as Hok by (by vm_compute).
  destruct (outputs_next_to_input talk_25_min) as (_ & Hall & _ & _ & Hdisk & Hfiles & _).
  split; [exact Hok|]. split; [rewrite (Hall Hok); by vm_compute|].
  split.
  - destruct (Hfiles Hok) as [Hsome _]. exact Hsome.
  - destruct (Hdisk 1%nat (Window 2 1200000 1500000)) as [Hcp _].
    + by vm_compute.
    + rewrite (Hall Hok). vm_compute. lia.
    + exact Hcp.
Defined.

(** X14: after a run that ended normally, the audio file of every planned
    chunk holds the slice of its window, and the transcript file of the chunk
    holds the text that the service returned for that audio file, as it is:
    no later chunk and no merged transcript has overwritten them. *)
Theorem chunk_files_after_success (w : world) :
  (run w).1 = inr tt →
  ∀ win, win ∈ planned w →
    fs (run w).2 !! chunk_path (folder_of w) (basename_of w) (index win)
    = Some (Mp3 (start_ms win) (end_ms win)) ∧
    ∃ text,
      chunk_text w (folder_of w) (basename_of w) win = inr text ∧
      fs (run w).2 !! part_txt_path (folder_of w) (basename_of w) (index win)
      = Some (Text text).
Proof.
  intros Hok win Hwin.
  destruct (run_success_state w Hok) as (cm & d & dm & n & _ & _ & _ & _ & Hall & _ & _ & Hfs).
  rewrite Hfs.
  destruct (foldl_add_files_chunk w (fs0 w) (planned w) win (planned_indices w) Hwin)
    as [Hcp Htp].
  assert (win ∈ planned w) as Hwin' by done.
  rewrite Forall_forall in Hall. apply Hall in Hwin' as (_ & _ & _ & [text Htext] & _).
  split.
  - rewrite lookup_insert_ne; [done|].
    intros Heq. eapply (full_path_not_a_chunk_output w win).
    rewrite Heq. apply elem_of_cons. by left.
  - exists text. split; [done|]. rewrite lookup_insert_ne.
    + rewrite Htp. by rewrite Htext.
    + intros Heq. eapply (full_path_not_a_chunk_output w win).
      rewrite Heq. apply elem_of_cons. right. apply elem_of_cons. by left.
Qed.

Lemma chunk_files_witness :
  let files := fs (run talk_25_min).2 in
  files !! "/home/u/talk_part_1.mp3" = Some (Mp3 0 1200000) ∧
  ∃ text,
    chunk_text talk_25_min "/home/u" "talk" (Window 1 0 1200000) = inr text ∧
    files !! "/home/u/talk_part_1_transcript.txt" = Some (Text text).
Proof.
  apply (chunk_files_after_success talk_25_min eq_refl (Window 1 0 1200000)).
  apply elem_of_cons. by left.
Defined.

(** X15: a run, however it ends, leaves every file that is not one of its
    stated outputs as it was: absent if it was absent, with its content if it
    was there. *)
Theorem only_outputs_change (w : world) (p : string) :
  p ∉ stated_outputs (folder_of w) (basename_of w) (planned w) →
  fs (run w).2 !! p = fs0 w !! p.
Proof.
  rewrite elem_of_stated_outputs. intros Hp.
  destruct (run_fs_lookup w p) as [?|[?|[_ ?]]]; [done|..]; destruct Hp; auto.
Qed.

Lemma only_outputs_change_witness :
  fs (run talk_failing_on_2).2 !! "/home/u/talk_part_1.txt"
  = fs0 talk_failing_on_2 !! "/home/u/talk_part_1.txt".
Proof.
  apply (only_outputs_change talk_failing_on_2 "/home/u/talk_part_1.txt").
  apply (bool_decide_unpack _). by vm_compute.
Defined.

(** X16: no run writes to the path of its input: the audio file is after
    the run what it was before. *)
Theorem input_file_untouched (w : world) :
  fs (run w).2 !! audio_path w = fs0 w !! audio_path w.
Proof.
  destruct (run_fs_lookup w (audio_path w)) as [?|[(win & _ & Hp)|[_ Heq]]]; [done|..].
  - by apply chunk_output_is_not_the_input in Hp.
  - symmetry in Heq. by apply full_path_is_not_the_input in Heq.
Qed.





(** ** The calls of a run *)

Section Calls.

Context (w : world).

Let folder := folder_of w.
Let base := basename_of w.

Lemma exported_app tr1 tr2 : exported (tr1 ++ tr2) = exported tr1 ++ exported tr2.
Proof. apply omap_app. Qed.

Lemma requested_app tr1 tr2 : requested (tr1 ++ tr2) = requested tr1 ++ requested tr2.
Proof. apply omap_app. Qed.

Lemma printed_app tr1 tr2 : printed (tr1 ++ tr2) = printed tr1 ++ printed tr2.
Proof. apply omap_app. Qed.

Lemma exported_chunks ws :
  exported (concat (chunk_events folder base <$> ws)) = slice_of folder base <$> ws.
Proof.
  induction ws as [|win ws IH]; [done|].
  rewrite !fmap_cons, !concat_cons, exported_app, IH. done.
Qed.

Lemma requested_chunks ws :
  requested (concat (chunk_events folder base <$> ws))
  = (λ win, chunk_path folder base (index win)) <$> ws.
Proof.
  induction ws as [|win ws IH]; [done|].
  rewrite !fmap_cons, !concat_cons, requested_app, IH. done.
Qed.

Lemma printed_chunks ws :
  printed (concat (chunk_events folder base <$> ws)) = concat (chunk_lines base <$> ws).
Proof.
  induction ws as [|win ws IH]; [done|].
  rewrite !fmap_cons, !concat_cons, printed_app, IH. done.
Qed.

(** The slices that a run exports are, in order, those of its plan: all of
    them when the run ends normally, the first so many when it aborts. *)
Lemma run_exported :
  exported (trace (run w).2) `prefix_of` (slice_of folder base <$> planned w) ∧
  ((run w).1 = inr tt →
   exported (trace (run w).2) = slice_of folder base <$> planned w).
Proof.
  destruct (run_outcome w) as
    [ | | | | |cm d dm n pre win post e evs files Hl _ _ Hplan _ Hfail
      |cm d dm n ws e Hl _ _ Hplan
      |cm d dm n ws Hl _ _ Hplan]; cbn [fst snd trace];
    try (split; [apply prefix_nil|done]).
  - rewrite (planned_eq w cm d _ Hl Hplan). split; [|done].
    rewrite !exported_app, exported_chunks, fmap_app, fmap_cons.
    change (exported (opening_events w dm n cm)) with (@nil (string * Z * Z)).
    rewrite app_nil_l. apply prefix_app.
    destruct Hfail; simpl; [apply prefix_nil|by eexists..].
  - rewrite (planned_eq w cm d _ Hl Hplan). split; [|done].
    rewrite !exported_app, exported_chunks. simpl. by rewrite app_nil_r.
  - rewrite (planned_eq w cm d _ Hl Hplan).
    rewrite !exported_app, exported_chunks. simpl. by rewrite app_nil_r.
Qed.

(** The files that a run sends to the service are, in order, the audio files
    of its plan. *)
Lemma run_requested :
  requested (trace (run w).2)
    `prefix_of` ((λ win, chunk_path folder base (index win)) <$> planned w) ∧
  ((run w).1 = inr tt →
   requested (trace (run w).2)
   = (λ win, chunk_path folder base (index win)) <$> planned w).
Proof.
  destruct (run_outcome w) as
    [ | | | | |cm d dm n pre win post e evs files Hl _ _ Hplan _ Hfail
      |cm d dm n ws e Hl _ _ Hplan
      |cm d dm n ws Hl _ _ Hplan]; cbn [fst snd trace];
    try (split; [apply prefix_nil|done]).
  - rewrite (planned_eq w cm d _ Hl Hplan). split; [|done].
    rewrite !requested_app, requested_chunks, fmap_app, fmap_cons.
    change (requested (opening_events w dm n cm)) with (@nil string).
    rewrite app_nil_l. apply prefix_app.
    destruct Hfail; simpl; [apply prefix_nil|apply prefix_nil|by eexists..].
  - rewrite (planned_eq w cm d _ Hl Hplan). split; [|done].
    rewrite !requested_app, requested_chunks. simpl. by rewrite app_nil_r.
  - rewrite (planned_eq w cm d _ Hl Hplan).
    rewrite !requested_app, requested_chunks. simpl. by rewrite app_nil_r.
Qed.

Lemma elem_of_exported tr p s e : Export p s e ∈ tr ↔ (p, s, e) ∈ exported tr.
Proof.
  unfold exported. rewrite list_elem_of_omap. split.
  - intros Hin. by exists (Export p s e).
  - intros (ev & Hin & Hev). destruct ev; try done. by injection Hev as -> -> ->.
Qed.

End Calls.

(** X18: with a chunk length of a minute or more, every slice that a run
    exports - whether the run goes on to finish or aborts - is a non-empty
    part of the audio: it starts at a multiple i of the chunk length, ends
    after its start and not after the end of the audio, is at most one chunk
    length long, and goes to the audio file of part i + 1. *)
Theorem exported_slices_within_audio (w : world) (chunk_minutes duration_ms : Z) :
  chunk_minutes_of w = Some chunk_minutes → 1 ≤ chunk_minutes →
  duration_of w = inr duration_ms →
  ∀ p s e, Export p s e ∈ trace (run w).2 →
    0 ≤ s < e ∧ e ≤ duration_ms ∧ e - s ≤ chunk_minutes * 60000 ∧
    ∃ i, 0 ≤ i ∧ s = i * (chunk_minutes * 60000) ∧
         p = chunk_path (folder_of w) (basename_of w) (i + 1).
Proof.
  intros Hcm Hpos Hd p s e Hin.
  apply elem_of_exported in Hin.
  destruct (run_exported w) as [[rest Hpre] _].
  assert ((p, s, e) ∈ slice_of (folder_of w) (basename_of w) <$> planned w) as Hplanned.
  { rewrite Hpre. apply elem_of_app. by left. }
  apply list_elem_of_fmap in Hplanned as (win & [= -> -> ->] & Hwin).
  pose proof (duration_bounds _ _ Hd) as Hdb.
  destruct (plan_positive duration_ms chunk_minutes Hdb Hpos)
    as (n & _ & Hnk & Hn0 & Hplan).
  unfold planned in Hwin. rewrite Hcm, Hd, Hplan in Hwin.
  destruct (windows_inside (chunk_minutes * 60000) duration_ms n)
    as (Hinside & _); [lia..|].
  destruct (Hinside win Hwin) as (? & ? & ?).
  apply elem_of_windows in Hwin as (i & -> & Hi).
  split_and!; [lia..|]. exists i. split_and!; [lia|done|done].
Qed.

Lemma exported_slices_witness :
  0 ≤ 1200000 < 1500000 ∧ 1500000 ≤ 1500000 ∧ 1500000 - 1200000 ≤ 20 * 60000 ∧
  ∃ i, 0 ≤ i ∧ 1200000 = i * (20 * 60000) ∧
       "/home/u/talk_part_2.mp3"
       = chunk_path (folder_of talk_25_min) (basename_of talk_25_min) (i + 1).
Proof.
  apply (exported_slices_within_audio talk_25_min 20 1500000).
  - reflexivity.
  - lia.
  - reflexivity.
  - apply elem_of_exported. apply (bool_decide_unpack _). by vm_compute.
Defined.

(** X19: the files that a run sends to the transcription service are, in
    order, the audio files of the planned chunks - one request for each chunk
    when the run ends normally, for the first so many when it aborts - and no
    file is sent twice. *)
Theorem one_request_per_chunk (w : world) :
  requested (trace (run w).2)
    `prefix_of` ((λ win, chunk_path (folder_of w) (basename_of w) (index win))
                 <$> planned w) ∧
  ((run w).1 = inr tt →
   requested (trace (run w).2)
   = (λ win, chunk_path (folder_of w) (basename_of w) (index win)) <$> planned w) ∧
  NoDup (requested (trace (run w).2)).
Proof.
  destruct (run_requested w) as [Hpre Hall]. split_and!; [done|done|].
  destruct Hpre as [rest Hpre].
  assert (NoDup ((λ win, chunk_path (folder_of w) (basename_of w) (index win))
                 <$> planned w)) as Hnd.
  { rewrite (list_fmap_compose index (chunk_path (folder_of w) (basename_of w))).
    apply NoDup_fmap_2; [|apply planned_indices].
    intros n m Heq. by apply chunk_path_inj in Heq; [|apply basename_of_free]. }
  rewrite Hpre in Hnd. by apply NoDup_app in Hnd as [? _].
Qed.

(** ** How a run ends *)

(** X20: a run ends normally only if everything went through: the command
    line was accepted with a chunk length other than 0, the credential was
    there, the audio file was there and decoded, and the export, the
    transcription and the transcript write of every planned chunk and the
    write of the merged transcript succeeded.  No failure is swallowed. *)
Theorem normal_end_needs_every_call (w : world) :
  (run w).1 = inr tt →
  ∃ chunk_minutes duration_ms,
    chunk_minutes_of w = Some chunk_minutes ∧ chunk_minutes ≠ 0 ∧
    has_key w = true ∧
    is_Some (fs0 w !! audio_path w) ∧
    duration_of w = inr duration_ms ∧
    Forall (calls_succeed w (folder_of w) (basename_of w)) (planned w) ∧
    open_w_error w (full_path (folder_of w) (basename_of w)) = None.
Proof.
  destruct (run_outcome w) as
    [ | | | | | | |cm d dm n ws (Hcm & Hkey & Hfile & Hd) _ Hn Hplan Hall Hw];
    cbn [fst]; try done.
  intros _. exists cm, d. split_and!; try done.
  - intros ->. by rewrite num_chunks_zero_chunk in Hn.
  - rewrite (planned_eq w cm d ws) by done.
    eapply Forall_impl; [exact Hall|].
    intros win (_ & _ & ? & ? & ?). by split_and!.
Qed.

Lemma normal_end_witness :
  ∃ chunk_minutes duration_ms,
    chunk_minutes_of talk_25_min = Some chunk_minutes ∧ chunk_minutes ≠ 0 ∧
    has_key talk_25_min = true ∧
    is_Some (fs0 talk_25_min !! audio_path talk_25_min) ∧
    duration_of talk_25_min = inr duration_ms ∧
    Forall (calls_succeed talk_25_min (folder_of talk_25_min) (basename_of talk_25_min))
      (planned talk_25_min) ∧
    open_w_error talk_25_min
      (full_path (folder_of talk_25_min) (basename_of talk_25_min)) = None.
Proof. exact (normal_end_needs_every_call talk_25_min eq_refl). Defined.

(** X21: the arithmetic of the script raises nothing but the division by a
    chunk length of 0: for every audio length that [len] reports and every
    other chunk length, negative ones included, the total minutes can be
    formatted, the chunk count is a number (no [OverflowError] in the float
    division), the plan is made, and the minutes of the bounds of every
    planned window can be formatted. *)
Theorem arithmetic_never_raises (duration_ms chunk_minutes : Z) :
  0 ≤ duration_ms ≤ Py.maxsize → chunk_minutes ≠ 0 →
  returns (minutes duration_ms) ∧
  returns (num_chunks duration_ms (chunk_minutes * 60 * 1000)) ∧
  ∃ ws, plan duration_ms chunk_minutes = inr ws ∧
        ∀ win, win ∈ ws →
          returns (minutes (start_ms win)) ∧ returns (minutes (end_ms win)).
Proof.
  intros Hd Hne.
  assert (Py.maxsize < 2 ^ 53 * 60000) by (by vm_compute).
  assert (returns (num_chunks duration_ms (chunk_minutes * 60 * 1000))) as [n Hn].
  { apply num_chunks_returns; [lia|lia|].
    assert (2 ^ 53 * 60000 ≤ 2 ^ 53 * Z.abs (chunk_minutes * 60 * 1000))
      by (apply Z.mul_le_mono_nonneg_l; lia).
    lia. }
  split_and!.
  - by apply minutes_returns.
  - by exists n.
  - eexists. split; [by apply plan_windows|].
    intros win Hwin.
    by apply (planned_window_minutes duration_ms chunk_minutes _ win Hd
                (plan_windows _ _ _ Hn)).
Qed.

Lemma arithmetic_witness :
  returns (minutes 9223372036854775807) ∧
  returns (num_chunks 9223372036854775807 (-7 * 60 * 1000)) ∧
  ∃ ws, plan 9223372036854775807 (-7) = inr ws ∧
        ∀ win, win ∈ ws →
          returns (minutes (start_ms win)) ∧ returns (minutes (end_ms win)).
Proof.
  apply (arithmetic_never_raises 9223372036854775807 (-7)).
  - split; [lia|]. by vm_compute.
  - lia.
Defined.

(** ** The console *)

(** X22: the console of a run that ended normally, line by line: the audio
    file, the output folder, the loading notice, the total length in minutes
    to one decimal place, the number of chunks and the chunk length; then for
    each planned chunk, in order, its header with the part number and the
    minutes, the export notice, the transcription notice and the saved
    notice; then "Done." and the path of the merged transcript. *)
Theorem console_of_a_finished_run (w : world) :
  (run w).1 = inr tt →
  ∃ chunk_minutes duration_ms duration_min n,
    chunk_minutes_of w = Some chunk_minutes ∧
    duration_of w = inr duration_ms ∧
    minutes duration_ms = inr duration_min ∧
    num_chunks duration_ms (chunk_minutes * 60 * 1000) = inr n ∧
    printed (trace (run w).2)
    = ["Audio file: " +:+ audio_path w;
       "Output folder: " +:+ folder_of w;
       nl +:+ "Loading audio file...";
       "Total audio length: " +:+ duration_min +:+ " minutes";
       "Splitting into " +:+ Py.str n +:+ " chunk(s) of ~" +:+ Py.str chunk_minutes
       +:+ " minutes each." +:+ nl]
      ++ concat (chunk_lines (basename_of w) <$> planned w)
      ++ ["Done.";
          "Full transcript saved to: " +:+ full_path (folder_of w) (basename_of w)].
Proof.
  destruct (run_outcome w) as
    [ | | | | | | |cm d dm n ws Hl Hdm Hn Hplan]; cbn [fst snd trace]; try done.
  intros _. exists cm, d, dm, n.
  pose proof Hl as (Hcm & _ & _ & Hd). split_and!; [done..|].
  rewrite (planned_eq w cm d _ Hl Hplan).
  rewrite !printed_app, printed_chunks. reflexivity.
Qed.

Lemma console_witness :
  ∃ chunk_minutes duration_ms duration_min n,
    chunk_minutes_of talk_25_min = Some chunk_minutes ∧
    duration_of talk_25_min = inr duration_ms ∧
    minutes duration_ms = inr duration_min ∧
    num_chunks duration_ms (chunk_minutes * 60 * 1000) = inr n ∧
    printed (trace (run talk_25_min).2)
    = ["Audio file: " +:+ audio_path talk_25_min;
       "Output folder: " +:+ folder_of talk_25_min;
       nl +:+ "Loading audio file...";
       "Total audio length: " +:+ duration_min +:+ " minutes";
       "Splitting into " +:+ Py.str n +:+ " chunk(s) of ~" +:+ Py.str chunk_minutes
       +:+ " minutes each." +:+ nl]
      ++ concat (chunk_lines (basename_of talk_25_min) <$> planned talk_25_min)
      ++ ["Done.";
          "Full transcript saved to: "
          +:+ full_path (folder_of talk_25_min) (basename_of talk_25_min)].
Proof. exact (console_of_a_finished_run talk_25_min eq_refl). Defined.
